(** * QuoteBot: retrieval engine, quote scorer and conversation window

    A shallow embedding of the memory and retrieval code of the repository:
    [memory/vector_db.py] (VectorDBManager), [memory/quote_db.py]
    (QuoteDBManager), [memory/short_term.py] (ConversationBuffer) and the
    quote stage of [agents/cinematic_pipeline.py].

    Conventions of the embedding.
    - Python floats are rationals ([Q]).  The arithmetic is exact, except
      at the two places where the rounding of binary floating point
      decides what the code returns: the base similarity of
      [search_with_decay], which numpy computes in the precision of the
      distance it is given (that rounding is a parameter of the
      development), and the composite of [search_quote], which Python
      computes in doubles ([Py.float64]) before it is printed with three
      decimals.  Infinities and NaN are outside the model.
    - The disk is a map from paths to files and directories.  A path is
      read literally, as the key of the map: there is no resolution of
      [.], [..], repeated separators or links.  The current directory and
      the root directory always exist.
    - Strings are [string]; a character is a code point below 256.
    - Python dictionaries used as maps are [gmap]; dictionaries used as
      records are Rocq records whose optional keys are [option] fields.
    - Exceptions are values of [exn]; a fallible operation returns
      [result].
    - The clock ([time.time()]) is an explicit argument [now].
    - The sentence encoder and the L2 normaliser are parameters of the
      development (Section variables). *)

From stdpp Require Import gmap strings list fin_maps sorting.
From Stdlib Require Import Ascii QArith Qabs Qround Lqa Permutation Sorted.

Set Default Proof Using "Type".

(** ** Exceptions and fallible results *)

Inductive exn : Type :=
| KeyError
| IndexError
| FileNotFoundError
| DecodeError
| ValueError
| ZeroDivisionError
| RuntimeError
| AssertionError
| FileExistsError
| NotADirectoryError
| IsADirectoryError.

Inductive result (A : Type) : Type :=
| Ok (a : A)
| Raise (e : exn).
Arguments Ok {A} a.
Arguments Raise {A} e.

#[global] Instance result_ret : MRet result := fun A a => Ok a.
#[global] Instance result_bind : MBind result := fun A B f m =>
  match m with
  | Ok a => f a
  | Raise e => Raise e
  end.

(** ** Python built-ins used by the source *)

Module Py.

(** [l[:k]]: a non-negative [k] keeps the first [k] items, a negative one
    drops the last [-k]. *)
Definition slice_to {A} (l : list A) (k : Z) : list A :=
  if (0 <=? k)%Z then take (Z.to_nat k) l
  else take (length l - Z.to_nat (- k)) l.

(** [l[i]]: a negative index counts from the end; an index out of range
    raises [IndexError]. *)
Definition getitem {A} (l : list A) (i : Z) : result A :=
  let j := if (i <? 0)%Z then (i + Z.of_nat (length l))%Z else i in
  if (j <? 0)%Z then Raise IndexError
  else match l !! Z.to_nat j with
       | Some x => Ok x
       | None => Raise IndexError
       end.

(** [str.isspace] on one character (code points below 256). *)
Definition isspace (c : Ascii.ascii) : bool :=
  let n := Ascii.nat_of_ascii c in
  ((9 <=? n) && (n <=? 13) || (28 <=? n) && (n <=? 32)
   || (n =? 133) || (n =? 160))%nat.

(** [str.lower] on one character (code points below 256). *)
Definition lower_char (c : Ascii.ascii) : Ascii.ascii :=
  let n := Ascii.nat_of_ascii c in
  if ((65 <=? n) && (n <=? 90)
      || (192 <=? n) && (n <=? 222) && negb (n =? 215))%nat
  then Ascii.ascii_of_nat (n + 32)
  else c.

Fixpoint lower (s : string) : string :=
  match s with
  | EmptyString => EmptyString
  | String c s' => String (lower_char c) (lower s')
  end.

(** [str.split()] with no separator: the maximal runs of non-whitespace
    characters.  [cur] is the run being read, in reverse. *)
Fixpoint split_from (cur : list Ascii.ascii) (s : string) : list string :=
  match s with
  | EmptyString =>
      match cur with
      | [] => []
      | _ => [String.string_of_list_ascii (rev cur)]
      end
  | String c s' =>
      if isspace c then
        match cur with
        | [] => split_from [] s'
        | _ => String.string_of_list_ascii (rev cur) :: split_from [] s'
        end
      else split_from (c :: cur) s'
  end.

Definition split (s : string) : list string := split_from [] s.

(** [list.sort] is stable.  [before y x] says that [y] must come strictly
    before [x]; an item is inserted in front of the first item that does
    not have to precede it, so equal keys keep their original order. *)
Fixpoint insert_sorted {A} (before : A → A → bool) (x : A) (l : list A)
  : list A :=
  match l with
  | [] => [x]
  | y :: l' =>
      if before y x then y :: insert_sorted before x l' else x :: y :: l'
  end.

Definition sort_with {A} (before : A → A → bool) (l : list A) : list A :=
  foldr (insert_sorted before) [] l.

(** [l.sort(key=key, reverse=True)] for a rational key. *)
Definition sort_desc {A} (key : A → Q) (l : list A) : list A :=
  sort_with (fun y x => negb (Qle_bool (key y) (key x))) l.

(** [l.sort(key=key)], ascending. *)
Definition sort_asc {A} (key : A → Q) (l : list A) : list A :=
  sort_with (fun y x => negb (Qle_bool (key x) (key y))) l.

(** [max(0.0, x)]. *)
Definition max0 (x : Q) : Q := if Qle_bool 0 x then x else 0%Q.

(** [float(f"{x:.3f}")]: the nearest multiple of 1/1000, ties to the even
    one. *)
Definition round_half_even (x : Q) : Z :=
  let n := Qfloor x in
  let r := (x - inject_Z n)%Q in
  match (r ?= 1 # 2)%Q with
  | Lt => n
  | Gt => (n + 1)%Z
  | Eq => if Z.even n then n else (n + 1)%Z
  end.

Definition round3 (x : Q) : Q := Qmake (round_half_even (x * 1000)%Q) 1000.

(** The power of two [2 ^ e], for any integer [e]. *)
Definition pow2 (e : Z) : Q :=
  if (0 <=? e)%Z then inject_Z (2 ^ e) else 1 # Z.to_pos (2 ^ (- e)).

(** Rounding to the nearest binary floating-point number with [prec]
    significant bits and no exponent below [emin], ties to the even
    significand, as IEEE 754 arithmetic rounds the exact result of each
    operation.  [e0] is the exponent of [x] ([2 ^ e0 <= |x| < 2 ^ (e0 + 1)])
    and [2 ^ e] the spacing of the floating-point numbers around [x]. *)
Definition round_float (prec emin : Z) (x : Q) : Q :=
  if Qeq_bool x 0 then 0%Q
  else
    let a := Qabs x in
    let k := (Z.log2 (Qnum a) - Z.log2 (Zpos (Qden a)))%Z in
    let e0 := if Qle_bool (pow2 k) a then k else (k - 1)%Z in
    let e := Z.max (e0 - prec + 1) emin in
    let m := round_half_even (a / pow2 e)%Q in
    let r := (inject_Z m * pow2 e)%Q in
    if Qle_bool 0 x then r else (- r)%Q.

(** numpy's [float32] and Python's [float] (binary64). *)
Definition float32 (x : Q) : Q := round_float 24 (-149) x.
Definition float64 (x : Q) : Q := round_float 53 (-1074) x.

(** [collections.deque(maxlen=n).append(x)]: the oldest item is dropped
    when the bound is exceeded. *)
Definition deque_append {A} (maxlen : nat) (x : A) (l : list A) : list A :=
  let l' := l ++ [x] in
  if (maxlen <? length l')%nat then drop 1 l' else l'.

End Py.

(** ** memory/short_term.py *)

Record message : Type := Message { role : string; content : string }.

Record ConversationBuffer : Type := MkBuffer {
  maxlen : nat;
  buffer : list message
}.

(** [ConversationBuffer(max_turns)]: [deque(maxlen=max_turns)] refuses a
    negative bound. *)
Definition new_ConversationBuffer (max_turns : Z) : result ConversationBuffer :=
  if (max_turns <? 0)%Z then Raise ValueError
  else Ok (MkBuffer (Z.to_nat max_turns) []).

Definition add_interaction (user_text assistant_text : string)
  (b : ConversationBuffer) : ConversationBuffer :=
  let b1 := Py.deque_append (maxlen b) (Message "user" user_text) (buffer b) in
  let b2 := Py.deque_append (maxlen b) (Message "assistant" assistant_text) b1 in
  MkBuffer (maxlen b) b2.

Definition get_history (b : ConversationBuffer) : list message := buffer b.

Definition clear (b : ConversationBuffer) : ConversationBuffer :=
  MkBuffer (maxlen b) [].

(** The messages of a list of exchanges, in order. *)
Definition exchange_messages (ex : string * string) : list message :=
  [Message "user" ex.1; Message "assistant" ex.2].

Definition add_interactions (exs : list (string * string))
  (b : ConversationBuffer) : ConversationBuffer :=
  foldl (fun b ex => add_interaction ex.1 ex.2 b) b exs.

(** ** The vector index *)

(** The index library (faiss) is not part of the repository; the model
    below follows the EmbeddingIndex of the design.  A flat index keeps
    the inserted vectors in insertion order. *)
Module faiss.

Definition vec : Type := list Q.

Inductive metric : Type := METRIC_L2 | METRIC_INNER_PRODUCT.

Record Index : Type := MkIndex {
  metric_type : metric;
  vectors : list vec
}.

Definition IndexFlatL2 : Index := MkIndex METRIC_L2 [].
Definition IndexFlatIP : Index := MkIndex METRIC_INNER_PRODUCT [].

Definition ntotal (ix : Index) : Z := Z.of_nat (length (vectors ix)).

(** Modelled from the spec: [insert] appends the vectors to the index. *)
Definition add (xs : list vec) (ix : Index) : Index :=
  MkIndex (metric_type ix) (vectors ix ++ xs).

(** [numpy.dot] on two vectors. *)
Definition dot (x y : vec) : Q := foldr Qplus 0%Q (zip_with Qmult x y).

Definition l2_sqr (x y : vec) : Q :=
  foldr Qplus 0%Q (zip_with (fun a b => ((a - b) * (a - b))%Q) x y).

(** Modelled from the spec: the two index flavours, L2 distance over raw
    vectors (reported squared, as the library does) and inner product
    over normalised vectors. *)
Definition distance (m : metric) (q v : vec) : Q :=
  match m with
  | METRIC_L2 => l2_sqr q v
  | METRIC_INNER_PRODUCT => dot q v
  end.

(** Modelled from the spec: every stored vector with its distance or
    score and its position, best first (nearest first for L2, highest
    score first for inner product).  Equal distances stay in insertion
    order. *)
Definition ranked (ix : Index) (q : vec) : list (Q * Z) :=
  let hits := imap (fun i v => (distance (metric_type ix) q v, Z.of_nat i))
                   (vectors ix) in
  match metric_type ix with
  | METRIC_L2 => Py.sort_asc fst hits
  | METRIC_INNER_PRODUCT => Py.sort_desc fst hits
  end.

(** Modelled from the spec: up to [k] nearest neighbours as an ordered
    list of [(distance_or_score, position)], fewer when the index holds
    fewer than [k] entries and none when it is empty.  (The library pads
    the answer with the position [-1], which every caller skips.) *)
Definition nearest (ix : Index) (q : vec) (k : Z) : list (Q * Z) :=
  take (Z.to_nat k) (ranked ix q).

(** [index.search(x, k)]: the Python wrapper of the library opens with
    [assert k > 0], so a request for no neighbour raises. *)
Definition search (ix : Index) (q : vec) (k : Z) : result (list (Q * Z)) :=
  if (0 <? k)%Z then Ok (nearest ix q k) else Raise AssertionError.

End faiss.

(** ** Records of the two stores *)

(** A memory record: the dictionary [{"text", "timestamp", "importance",
    "type"}].  Records of bulk-loaded static domains carry other keys and
    no timestamp. *)
Record memory_obj : Type := MemoryObj {
  m_text : option string;
  m_timestamp : option Q;
  m_importance : option Q;
  m_type : option string;
  m_others : list (string * string)
}.

(** [self.databases[domain]]: [{"index": ..., "data": [...]}]. *)
Record domain_db : Type := DomainDb {
  index : faiss.Index;
  data : list memory_obj
}.

(** A quote of the reference corpus. *)
Record quote : Type := Quote {
  q_text : string;
  q_character : string;
  q_source : string;
  q_emotion : option string;
  q_usecase : option string;
  q_type : option string
}.

(** One entry of the list returned by [search_quote]. *)
Record quote_result : Type := QuoteResult {
  r_index : Z;
  r_semantic_sim : Q;
  r_emotion_sim : Q;
  r_type_weight : Q;
  r_composite : Q;
  r_metadata : quote
}.

(** The files the two managers read and write, and the directories that
    hold them. *)
Inductive file : Type :=
| IndexFile (ix : faiss.Index)
| MetaFile (source_mtime : option Q) (d : list memory_obj)
| QuotesFile (qs : list quote)
| Directory.

Abbreviation filesystem := (gmap string file).

Record VectorDBManager : Type := MkVectorDB {
  data_dir : string;
  index_dir : string;
  databases : gmap string domain_db
}.

Record QuoteDBManager : Type := MkQuoteDB {
  json_path : string;
  index_path : string;
  quotes : list quote;
  quote_index : option faiss.Index;
  _emotion_vecs : gmap string faiss.vec
}.

(** The turn state of the pipeline. *)
Record GraphState : Type := MkGraphState {
  user_query : string;
  preferences : list memory_obj;
  chat_history : list message;
  direct_answer : string;
  selected_quote : option quote_result;
  final_response : string
}.

(** The part of the pipeline object the quote stage reads and writes. *)
Record CinematicPipeline : Type := MkPipeline {
  quote_db : QuoteDBManager;
  _used_indices : list Z
}.

(** ** Paths and files *)

Definition starts_with_slash (s : string) : bool :=
  match s with
  | String c _ => bool_decide (c = "/"%char)
  | EmptyString => false
  end.

Fixpoint ends_with_slash (s : string) : bool :=
  match s with
  | EmptyString => false
  | String c EmptyString => bool_decide (c = "/"%char)
  | String _ s' => ends_with_slash s'
  end.

(** [os.path.join(a, b)] on a POSIX system. *)
Definition os_path_join (a b : string) : string :=
  if starts_with_slash b then b
  else if bool_decide (a = "") || ends_with_slash a then a +:+ b
  else a +:+ "/" +:+ b.

(** [s.rstrip('/')]. *)
Fixpoint rstrip_slash (s : string) : string :=
  match s with
  | EmptyString => EmptyString
  | String c s' =>
      let r := rstrip_slash s' in
      if bool_decide (c = "/"%char) && bool_decide (r = "") then EmptyString
      else String c r
  end.

(** [p[:p.rfind('/') + 1]]: [p] up to its last separator, the empty string
    when it has none. *)
Fixpoint head_to_last_slash (p : string) : string :=
  match p with
  | EmptyString => EmptyString
  | String c p' =>
      let h := head_to_last_slash p' in
      if bool_decide (c = "/"%char) || negb (bool_decide (h = ""))
      then String c h
      else EmptyString
  end.

(** [os.path.dirname(p)] on a POSIX system: the head is stripped of its
    trailing separators unless it consists of separators only. *)
Definition os_path_dirname (p : string) : string :=
  let head := head_to_last_slash p in
  if bool_decide (rstrip_slash head = "") then head else rstrip_slash head.

(** The directories on the way to [s], outermost first and [s] itself
    last: the prefixes of [s] that end where a component ends.  [acc] is
    the part read so far and [at_sep] says that it is empty or ends with a
    separator. *)
Fixpoint ancestors_from (acc : string) (at_sep : bool) (s : string)
  : list string :=
  match s with
  | EmptyString => if at_sep then [] else [acc]
  | String c s' =>
      if bool_decide (c = "/"%char) then
        (if at_sep then [] else [acc])
        ++ ancestors_from (acc +:+ "/") true s'
      else ancestors_from (acc +:+ String c EmptyString) false s'
  end.

Definition ancestors (s : string) : list string := ancestors_from "" true s.

(** [faiss.read_index(p)]: the library raises [RuntimeError] on anything
    it cannot read as an index. *)
Definition read_index (fs : filesystem) (p : string) : result faiss.Index :=
  match fs !! p with
  | Some (IndexFile ix) => Ok ix
  | Some _ => Raise RuntimeError
  | None => Raise RuntimeError
  end.

(** [json.load(open(p))] on a metadata file. *)
Definition read_meta (fs : filesystem) (p : string)
  : result (option Q * list memory_obj) :=
  match fs !! p with
  | Some (MetaFile t d) => Ok (t, d)
  | Some Directory => Raise IsADirectoryError
  | Some _ => Raise DecodeError
  | None => Raise FileNotFoundError
  end.

(** [json.load(open(p))] on the quote corpus. *)
Definition read_quotes (fs : filesystem) (p : string) : result (list quote) :=
  match fs !! p with
  | Some (QuotesFile qs) => Ok qs
  | Some Directory => Raise IsADirectoryError
  | Some _ => Raise DecodeError
  | None => Raise FileNotFoundError
  end.

(** [os.path.exists(p)]. *)
Definition exists_path (fs : filesystem) (p : string) : bool :=
  bool_decide (is_Some (fs !! p)).

(** The entry of the disk is a directory. *)
Definition is_directory (entry : option file) : bool :=
  match entry with
  | Some Directory => true
  | _ => false
  end.

(** [d] is a directory: the current directory (the empty directory part
    of a bare file name), the root, or a directory of the disk. *)
Definition is_dir (fs : filesystem) (d : string) : bool :=
  bool_decide (rstrip_slash d = "") || is_directory (fs !! d).

(** A file can be created or replaced at [p]: the directory part of [p] is
    a directory and [p] itself is not one. *)
Definition can_write (fs : filesystem) (p : string) : bool :=
  is_dir fs (os_path_dirname p) && negb (is_directory (fs !! p)).

(** [faiss.write_index(ix, p)]: the library raises [RuntimeError] when it
    cannot open [p] for writing. *)
Definition write_index (fs : filesystem) (p : string) (ix : faiss.Index)
  : result filesystem :=
  if can_write fs p then Ok (<[p := IndexFile ix]> fs) else Raise RuntimeError.

(** [json.dump(..., open(p, 'w'))]. *)
Definition write_json (fs : filesystem) (p : string) (f : file)
  : result filesystem :=
  if can_write fs p then Ok (<[p := f]> fs)
  else if is_directory (fs !! p) then Raise IsADirectoryError
  else if exists_path fs (os_path_dirname p) then Raise NotADirectoryError
  else Raise FileNotFoundError.

(** The directory creation of [os.makedirs] along the [prefixes] of the
    target: a prefix that is a directory is kept, one that is a file stops
    the walk, a missing one is created in its parent. *)
Fixpoint makedirs_along (fs : filesystem) (prefixes : list string)
  : result filesystem :=
  match prefixes with
  | [] => Ok fs
  | p :: rest =>
      match fs !! p with
      | Some Directory => makedirs_along fs rest
      | Some _ =>
          Raise (match rest with
                 | [] => FileExistsError
                 | _ => NotADirectoryError
                 end)
      | None =>
          if is_dir fs (os_path_dirname p)
          then makedirs_along (<[p := Directory]> fs) rest
          else Raise FileNotFoundError
      end
  end.

(** [os.makedirs(name, exist_ok=True)]: creates the directory [name] and
    every missing directory on the way to it; an existing directory is not
    an error, an existing file is, and so is the empty name. *)
Definition os_makedirs (fs : filesystem) (name : string) : result filesystem :=
  if bool_decide (name = "") then Raise FileNotFoundError
  else makedirs_along fs (ancestors name).

Definition Qltb (x y : Q) : bool := negb (Qle_bool y x).

Definition lookup_key {A} (m : gmap string A) (k : string) : result A :=
  match m !! k with
  | Some x => Ok x
  | None => Raise KeyError
  end.

(** [m["text"]]. *)
Definition get_text (m : memory_obj) : result string :=
  match m_text m with
  | Some t => Ok t
  | None => Raise KeyError
  end.

Fixpoint get_texts (l : list memory_obj) : result (list string) :=
  match l with
  | [] => Ok []
  | m :: l' => t ← get_text m; ts ← get_texts l'; Ok (t :: ts)
  end.

Definition set_domain (mgr : VectorDBManager) (domain_name : string)
  (db : domain_db) : VectorDBManager :=
  MkVectorDB (data_dir mgr) (index_dir mgr) (<[domain_name := db]> (databases mgr)).

Definition domain_index_path (mgr : VectorDBManager) (domain_name : string) : string :=
  os_path_join (index_dir mgr) (domain_name +:+ ".index").

Definition domain_meta_path (mgr : VectorDBManager) (domain_name : string) : string :=
  os_path_join (index_dir mgr) (domain_name +:+ "_meta.json").

(** The fixed constants of the two scorers. *)
Definition IDENTITY_THRESHOLD : Q := 1.0.
Definition RELEVANCE_FLOOR : Q := 0.40.
Definition W_SEMANTIC : Q := 0.70.
Definition W_EMOTION : Q := 0.30.
Definition MIN_SCORE : Q := 0.25.

(** ** memory/quote_db.py, the parts that do not use the encoder *)

Definition emotion_label (q : quote) : string := default "general" (q_emotion q).

(** The document embedded for one quote: its text and its usecase, or a
    synthesized situation when the usecase is missing or empty. *)
Definition compound_doc (q : quote) : string :=
  let base_usecase := default "" (q_usecase q) in
  let base_usecase :=
    if bool_decide (base_usecase = "") then
      "Situation: User needs a quote about " +:+ emotion_label q +:+ "."
    else base_usecase in
  "Quote: " +:+ q_text q +:+ ". " +:+ base_usecase.

(** ** A small corpus and encoder, used to run the model *)

Module Demo.

(** A toy encoder into the plane.  The vectors it gives to queries, to
    compound documents and to emotion labels are unit vectors, so
    normalising them changes nothing. *)
Definition encode (s : string) : faiss.vec :=
  if bool_decide (s = "Quote: Keep moving forward. Situation: User needs a quote about resolve.")
  then [4 # 5; 3 # 5]
  else if bool_decide (s = "Quote: Do or do not. Situation: User needs a quote about motivation.")
  then [3255 # 5993; 5032 # 5993]
  else if bool_decide (s = "resolve") then [0; 1]
  else if bool_decide (s = "motivation") then [3 # 5; 4 # 5]
  else if bool_decide (s = "dark mode please") then [0; 1]
  else if bool_decide (s = "I like tea") then [3; 0]
  else if bool_decide (s = "I like green tea") then [3; 1]
  else if bool_decide (s = "I like iced tea") then [4; 1767767 # 2500000]
  else [1; 0].

Definition normalize_L2 (v : faiss.vec) : faiss.vec := v.

(** The scalar arithmetic of NumPy 2 on a [float32] distance. *)
Definition np_round : Q → Q := Py.float32.

(** The disk after the constructor of the memory manager has made its
    index directory. *)
Definition disk : filesystem :=
  <["data/indexes" := Directory]> (<["data" := Directory]> ∅).

Definition keep_moving : quote :=
  Quote "Keep moving forward" "Walt" "Meet the Robinsons" (Some "resolve") None
        (Some "quote").

Definition do_or_do_not : quote :=
  Quote "Do or do not" "Yoda" "Star Wars" (Some "motivation") None
        (Some "quote").

Definition corpus : list quote := [keep_moving; do_or_do_not].

(** A disk that holds the corpus file and no index directory yet. *)
Definition quote_files : filesystem :=
  <["data/quote_dictionary.json" := QuotesFile corpus]>
    (<["data" := Directory]> ∅).

(** The manager [_load_or_build] builds from [quote_files]. *)
Definition quote_manager : QuoteDBManager :=
  MkQuoteDB "data/quote_dictionary.json" "data/indexes/quote.index" corpus
    (Some (faiss.MkIndex faiss.METRIC_INNER_PRODUCT
             [[4 # 5; 3 # 5]; [3255 # 5993; 5032 # 5993]]))
    (<["resolve" := [0; 1]]> (<["motivation" := [3 # 5; 4 # 5]]> ∅)).

Definition pipeline : CinematicPipeline := MkPipeline quote_manager [].

Definition turn (query : string) : GraphState :=
  MkGraphState query [] [] "" None "".

(** A memory manager with one stored preference, written at time 0. *)
Definition tea : memory_obj :=
  MemoryObj (Some "I like tea") (Some 0) (Some (1 # 2)) (Some "preferences") [].

Definition tea_store : domain_db :=
  DomainDb (faiss.MkIndex faiss.METRIC_L2 [[3; 0]]) [tea].

Definition memory_manager : VectorDBManager :=
  MkVectorDB "data" "data/indexes" {[ "preferences" := tea_store ]}.

Definition empty_manager : VectorDBManager :=
  MkVectorDB "data" "data/indexes" ∅.

(** Two records of the same importance, written one day apart. *)
Definition young : memory_obj :=
  MemoryObj (Some "a") (Some 172800) (Some (1 # 2)) (Some "preferences") [].

Definition old : memory_obj :=
  MemoryObj (Some "b") (Some 86400) (Some (1 # 2)) (Some "preferences") [].

(** Three exchanges of a conversation. *)
Definition exchanges : list (string * string) :=
  [("u1", "a1"); ("u2", "a2"); ("u3", "a3")].

Definition query : string := "I need some motivation today".

(** A conversation of four turns. *)
Definition turns : list GraphState :=
  turn <$> [query; "hello"; "I need some motivation now";
            "I need some motivation ok"].

End Demo.

(** ** Regular expressions of the gatekeeper *)

(** The trigger patterns of [agents/memory_gatekeeper.py] use literals,
    concatenation, alternation and optional groups only. *)
Module Re.

Inductive t : Type :=
| Lit (s : string)
| Seq (a b : t)
| Alt (a b : t)
| Opt (a : t).

(** The rest of [s] after the literal [p], when [s] starts with [p]. *)
Fixpoint strip_prefix (p s : string) : option string :=
  match p with
  | EmptyString => Some s
  | String c p' =>
      match s with
      | String d s' => if Ascii.eqb c d then strip_prefix p' s' else None
      | EmptyString => None
      end
  end.

(** The rests of [s] after each way the pattern matches a prefix of [s]. *)
Fixpoint matches_from (r : t) (s : string) : list string :=
  match r with
  | Lit p =>
      match strip_prefix p s with
      | Some rest => [rest]
      | None => []
      end
  | Seq a b => matches_from a s ≫= matches_from b
  | Alt a b => matches_from a s ++ matches_from b s
  | Opt a => matches_from a s ++ [s]
  end.

(** [pattern.search(s)]: the pattern matches at some position of [s]. *)
Fixpoint search (r : t) (s : string) : bool :=
  match matches_from r s with
  | _ :: _ => true
  | [] =>
      match s with
      | String _ s' => search r s'
      | EmptyString => false
      end
  end.

(** The length of the shortest text the pattern matches. *)
Fixpoint min_length (r : t) : nat :=
  match r with
  | Lit p => String.length p
  | Seq a b => min_length a + min_length b
  | Alt a b => min_length a `min` min_length b
  | Opt _ => 0
  end.

End Re.

(** ** agents/memory_gatekeeper.py, the parts that do not use the encoder *)

(** [self.trigger_phrases], in the order of the source. *)
Definition trigger_phrases : list Re.t :=
  [ Re.Seq (Re.Lit "remember") (Re.Opt (Re.Lit " that"));
    Re.Lit "from now on";
    Re.Seq (Re.Lit "i ")
      (Re.Seq (Re.Opt (Re.Alt (Re.Lit "really ") (Re.Lit "strongly ")))
              (Re.Lit "prefer"));
    Re.Lit "i struggle with";
    Re.Lit "my goal is";
    Re.Lit "call me";
    Re.Seq (Re.Lit "never ")
      (Re.Alt (Re.Lit "call")
         (Re.Alt (Re.Lit "say") (Re.Alt (Re.Lit "do") (Re.Lit "use"))));
    Re.Seq (Re.Lit "i ")
      (Re.Seq (Re.Opt (Re.Alt (Re.Lit "really ") (Re.Lit "absolutely ")))
              (Re.Alt (Re.Lit "love")
                 (Re.Alt (Re.Lit "hate") (Re.Lit "can't stand"))));
    Re.Seq (Re.Lit "always ")
      (Re.Alt (Re.Lit "use") (Re.Alt (Re.Lit "call") (Re.Lit "refer")));
    Re.Seq (Re.Lit "my ")
      (Re.Seq (Re.Alt (Re.Lit "name")
                 (Re.Alt (Re.Lit "favorite") (Re.Lit "passion")))
              (Re.Lit " is")) ].

(** ['|'.join(self.trigger_phrases)]. *)
Fixpoint join_alternatives (first : Re.t) (others : list Re.t) : Re.t :=
  match others with
  | [] => first
  | r :: others' => Re.Alt first (join_alternatives r others')
  end.

Definition trigger_regex : Re.t :=
  match trigger_phrases with
  | [] => Re.Lit ""
  | r :: rs => join_alternatives r rs
  end.

(** [_fast_check]: [bool(self.trigger_regex.search(user_text))].  The
    patterns are written in lower case and compiled with [re.IGNORECASE];
    on code points below 256 that is the search of the pattern in the
    lower-cased text. *)
Definition _fast_check (user_text : string) : bool :=
  Re.search trigger_regex (Py.lower user_text).

(** The structured decision of the classifier, after [json.loads]: the
    keys ["store"], ["summary"], ["type"] and ["importance"], each
    optional; [dec_store] says that ["store"] is the JSON value [true]. *)
Record decision : Type := Decision {
  dec_store : bool;
  dec_summary : option string;
  dec_type : option string;
  dec_importance : option Q
}.

(** What [evaluate_and_store] does with one utterance: nothing because no
    trigger matched, nothing because the classifier output was unusable
    or said not to store, a stored memory, or an exception of
    [add_memory] caught and logged. *)
Inductive gate_outcome : Type :=
| NotTriggered
| Dropped
| Stored (st : VectorDBManager * filesystem)
| Swallowed (e : exn).

Definition VALID_DOMAINS : list string :=
  ["preferences"; "learning_progress"; "personal_context"].

(** ** memory/short_term.py, the formatted history *)

Definition newline : string := String (Ascii.ascii_of_nat 10) EmptyString.

Definition history_line (msg : message) : string :=
  (if bool_decide (role msg = "user") then "User" else "Assistant")
  +:+ ": " +:+ content msg +:+ newline.

Definition get_history_string (b : ConversationBuffer) : string :=
  match buffer b with
  | [] => "No previous context."
  | msgs => foldl (fun history_str msg => history_str +:+ history_line msg) "" msgs
  end.

(** The operations of a conversation buffer. *)
Inductive buffer_op : Type :=
| AddInteraction (user_text assistant_text : string)
| Clear.

Definition run_buffer_op (b : ConversationBuffer) (op : buffer_op)
  : ConversationBuffer :=
  match op with
  | AddInteraction u a => add_interaction u a b
  | Clear => clear b
  end.

Definition run_buffer_ops (ops : list buffer_op) (b : ConversationBuffer)
  : ConversationBuffer :=
  foldl run_buffer_op b ops.

(** ** More data for running the model *)

Module Demo2.

(** A catchphrase and a quote. *)
Definition catchphrase : quote :=
  Quote "Do or do not" "Yoda" "Star Wars" (Some "motivation") None
        (Some "catchphrase").

Definition corpus : list quote := [Demo.keep_moving; catchphrase].

Definition quote_manager : QuoteDBManager :=
  MkQuoteDB "data/quote_dictionary.json" "data/indexes/quote.index" corpus
    (Some (faiss.MkIndex faiss.METRIC_INNER_PRODUCT
             [[4 # 5; 3 # 5]; [3255 # 5993; 5032 # 5993]]))
    (<["resolve" := [0; 1]]> (<["motivation" := [3 # 5; 4 # 5]]> ∅)).

(** A quote manager whose index file is older than its corpus: two
    vectors for one quote. *)
Definition stale_manager : QuoteDBManager :=
  MkQuoteDB "data/quote_dictionary.json" "data/indexes/quote.index"
    [Demo.keep_moving]
    (Some (faiss.MkIndex faiss.METRIC_INNER_PRODUCT
             [[4 # 5; 3 # 5]; [3255 # 5993; 5032 # 5993]]))
    (<["resolve" := [0; 1]]> ∅).

(** Files of a domain whose index holds more vectors than its metadata
    holds records. *)
Definition torn_index : faiss.Index :=
  faiss.MkIndex faiss.METRIC_L2 [[3; 0]; [0; 1]].

Definition torn_files : filesystem :=
  <["data/indexes/preferences_meta.json" := MetaFile None [Demo.tea]]>
    (<["data/indexes/preferences.index" := IndexFile torn_index]> Demo.disk).

(** The files [add_memory] leaves after storing [Demo.tea] on a disk
    without files. *)
Definition tea_files : filesystem :=
  <["data/indexes/preferences_meta.json" := MetaFile None [Demo.tea]]>
    (<["data/indexes/preferences.index" :=
         IndexFile (faiss.MkIndex faiss.METRIC_L2 [[3; 0]])]> Demo.disk).








(** A bulk-loaded domain: its record has the keys of its source file and
    neither text nor timestamp. *)
Definition slang : memory_obj :=
  MemoryObj None None None None [("term", "rizz"); ("meaning", "charisma")].

Definition slang_store : domain_db :=
  DomainDb (faiss.MkIndex faiss.METRIC_L2 [[3; 0]]) [slang].

Definition slang_manager : VectorDBManager :=
  MkVectorDB "data" "data/indexes" {[ "slang_dictionary" := slang_store ]}.



(** A conversation: two exchanges, a reset, three exchanges. *)
Definition conversation : list buffer_op :=
  [AddInteraction "u1" "a1"; AddInteraction "u2" "a2"; Clear;
   AddInteraction "u3" "a3"; AddInteraction "u4" "a4";
   AddInteraction "u5" "a5"].

(** The classifier of the gatekeeper, as a table. *)
Definition classify (user_text : string) : option decision :=
  if bool_decide (user_text = "remember that I prefer dark mode")
  then Some (Decision true (Some "dark mode please") (Some "preferences")
               (Some (4 # 5)))
  else if bool_decide (user_text = "my goal is to learn Rust")
  then Some (Decision true (Some "I like tea") (Some "goals") None)
  else None.

End Demo2.


Section Model.

(** The sentence encoder, [model.encode] on one text (a batch is encoded
    text by text), and [faiss.normalize_L2] on one vector. *)
Variable encode : string → faiss.vec.
Variable normalize_L2 : faiss.vec → faiss.vec.

(** The rounding of numpy's scalar arithmetic on a distance returned by
    the index (a [float32]): to the nearest [float32] from NumPy 2 on, to
    the nearest double before. *)
Variable np_round : Q → Q.

(** *** memory/vector_db.py *)

(** [_init_empty_domain].  The constructor creates [index_dir] and nothing
    creates a directory below it; a state left behind by an exception is
    not part of the result. *)
Definition _init_empty_domain (mgr : VectorDBManager) (fs : filesystem)
  (domain_name : string) : result (VectorDBManager * filesystem) :=
  let index_path := domain_index_path mgr domain_name in
  let meta_path := domain_meta_path mgr domain_name in
  if exists_path fs index_path && exists_path fs meta_path then
    cached_meta ← read_meta fs meta_path;
    ix ← read_index fs index_path;
    Ok (set_domain mgr domain_name (DomainDb ix cached_meta.2), fs)
  else
    let db := DomainDb faiss.IndexFlatL2 [] in
    fs ← write_index fs index_path (index db);
    fs ← write_json fs meta_path (MetaFile None []);
    Ok (set_domain mgr domain_name db, fs).

Definition _save_domain (mgr : VectorDBManager) (fs : filesystem)
  (domain_name : string) : result filesystem :=
  db ← lookup_key (databases mgr) domain_name;
  fs ← write_index fs (domain_index_path mgr domain_name) (index db);
  write_json fs (domain_meta_path mgr domain_name) (MetaFile None (data db)).

(** The record written by both paths of [add_memory]. *)
Definition new_memory (now : Q) (text : string) (importance : Q)
  (mem_type : string) : memory_obj :=
  MemoryObj (Some text) (Some now) (Some importance) (Some mem_type) [].

(** Step 3 and 4 of [add_memory]: append and save. *)
Definition add_memory_append (mgr : VectorDBManager) (fs : filesystem)
  (now : Q) (domain_name : string) (db : domain_db) (text : string)
  (importance : Q) (mem_type : string)
  : result (VectorDBManager * filesystem) :=
  let memory_obj := new_memory now text importance mem_type in
  let db' := DomainDb (faiss.add [encode text] (index db))
                      (data db ++ [memory_obj]) in
  let mgr' := set_domain mgr domain_name db' in
  fs' ← _save_domain mgr' fs domain_name;
  Ok (mgr', fs').

(** Step 2 of [add_memory] once a duplicate is matched: overwrite,
    rebuild and save. *)
Definition add_memory_overwrite (mgr : VectorDBManager) (fs : filesystem)
  (now : Q) (domain_name : string) (db : domain_db) (match_idx : Z)
  (text : string) (importance : Q) (mem_type : string)
  : result (VectorDBManager * filesystem) :=
  old ← Py.getitem (data db) match_idx;
  old_text ← get_text old;
  let data' := <[Z.to_nat match_idx := new_memory now text importance mem_type]>
                 (data db) in
  texts ← get_texts data';
  let new_index := faiss.add (encode <$> texts) faiss.IndexFlatL2 in
  let mgr' := set_domain mgr domain_name (DomainDb new_index data') in
  fs' ← _save_domain mgr' fs domain_name;
  Ok (mgr', fs').

Definition add_memory (mgr : VectorDBManager) (fs : filesystem) (now : Q)
  (domain_name : string) (text : string) (importance : Q) (mem_type : string)
  : result (VectorDBManager * filesystem) :=
  st ← (if bool_decide (is_Some (databases mgr !! domain_name))
        then Ok (mgr, fs)
        else _init_empty_domain mgr fs domain_name);
  let mgr := st.1 in
  let fs := st.2 in
  db ← lookup_key (databases mgr) domain_name;
  let embedding := encode text in
  if (0 <? faiss.ntotal (index db))%Z then
    hits ← faiss.search (index db) embedding 1;
    match hits with
    | (d, i) :: _ =>
        if negb (i =? -1)%Z && Qltb d IDENTITY_THRESHOLD then
          add_memory_overwrite mgr fs now domain_name db i text importance mem_type
        else
          add_memory_append mgr fs now domain_name db text importance mem_type
    | [] => Raise IndexError
    end
  else
    add_memory_append mgr fs now domain_name db text importance mem_type.

(** The decay formula of [search_with_decay] for one record whose base
    similarity is [base_similarity]. *)
Definition age_in_days (now timestamp : Q) : Q := ((now - timestamp) / 86400.0)%Q.

Definition decayed_score (base_similarity importance age : Q) : Q :=
  let recency_weight := (base_similarity * (1.0 / (1.0 + age)))%Q in
  (base_similarity + importance * 0.5 + recency_weight)%Q.

Definition final_score (now base_similarity : Q) (m : memory_obj) : result Q :=
  match m_timestamp m with
  | None => Ok base_similarity
  | Some timestamp =>
      let age := age_in_days now timestamp in
      let importance := default 0.5%Q (m_importance m) in
      if Qeq_bool (1.0 + age) 0 then Raise ZeroDivisionError
      else Ok (decayed_score base_similarity importance age)
  end.

(** [1.0 / (1.0 + distances[0][i])]: numpy rounds the sum and the
    quotient.  (A distance of an L2 index is not negative, so the sum is
    not zero.) *)
Definition base_similarity_of (d : Q) : Q :=
  np_round (1.0 / np_round (1.0 + d))%Q.

(** The scoring loop of [search_with_decay] over the hits of the index.
    The floor 0.40 is compared in the precision of the similarity. *)
Fixpoint score_hits (now : Q) (data : list memory_obj) (hits : list (Q * Z))
  : result (list (Q * memory_obj)) :=
  match hits with
  | [] => Ok []
  | (d, idx) :: hits' =>
      if (idx =? -1)%Z then score_hits now data hits'
      else
        memory_obj ← Py.getitem data idx;
        let base_similarity := base_similarity_of d in
        if Qltb base_similarity (np_round RELEVANCE_FLOOR)
        then score_hits now data hits'
        else
          score ← final_score now base_similarity memory_obj;
          rest ← score_hits now data hits';
          Ok ((score, memory_obj) :: rest)
  end.

Definition search_with_decay (mgr : VectorDBManager) (now : Q)
  (domain_name : string) (query : string) (top_k : Z)
  : result (list memory_obj) :=
  match databases mgr !! domain_name with
  | None => Ok []
  | Some db =>
      if (faiss.ntotal (index db) =? 0)%Z then Ok []
      else
        let fetch_k := Z.min 10 (faiss.ntotal (index db)) in
        let query_emb := encode query in
        hits ← faiss.search (index db) query_emb fetch_k;
        scored_results ← score_hits now (data db) hits;
        Ok (snd <$> Py.slice_to (Py.sort_desc fst scored_results) top_k)
  end.

(** *** memory/quote_db.py *)

Definition _build_emotion_cache (qs : list quote) : gmap string faiss.vec :=
  foldr (fun q m => <[emotion_label q := normalize_L2 (encode (emotion_label q))]> m)
        ∅ qs.

(** [QuoteDBManager(json_path, index_path)], that is [_load_or_build].
    Building the index of an empty corpus fails on [embs.shape[1]]. *)
Definition _load_or_build (fs : filesystem) (json_path index_path : string)
  : result (QuoteDBManager * filesystem) :=
  fs ← os_makedirs fs (os_path_dirname index_path);
  if negb (exists_path fs json_path) then Raise FileNotFoundError
  else
    qs ← read_quotes fs json_path;
    st ← (if exists_path fs index_path then
            ix ← read_index fs index_path; Ok (ix, fs)
          else
            let texts := compound_doc <$> qs in
            let embs := (fun t => normalize_L2 (encode t)) <$> texts in
            match embs with
            | [] => Raise IndexError
            | _ =>
                let index_obj := faiss.add embs faiss.IndexFlatIP in
                fs ← write_index fs index_path index_obj;
                Ok (index_obj, fs)
            end);
    Ok (MkQuoteDB json_path index_path qs (Some st.1) (_build_emotion_cache qs),
        st.2).

Definition _emotion_sim (self : QuoteDBManager) (query_unit_vec : faiss.vec)
  (emotion_label : string) : Q :=
  match _emotion_vecs self !! emotion_label with
  | None => 0.0%Q
  | Some emotion_vec => faiss.dot query_unit_vec emotion_vec
  end.

(** [W_SEMANTIC * semantic_sim + W_EMOTION * emotion_sim] in Python
    floats: the two weights are the doubles nearest to 0.70 and 0.30, and
    each product and the sum are rounded to the nearest double. *)
Definition composite_of (semantic_sim emotion_sim : Q) : Q :=
  Py.float64 (Py.float64 (Py.float64 W_SEMANTIC * semantic_sim)
              + Py.float64 (Py.float64 W_EMOTION * emotion_sim))%Q.

(** The candidate loop of [search_quote]. *)
Fixpoint score_quotes (self : QuoteDBManager) (query_unit : faiss.vec)
  (used_indices : list Z) (hits : list (Q * Z)) : result (list quote_result) :=
  match hits with
  | [] => Ok []
  | (cosine_sim, idx) :: hits' =>
      if (idx =? -1)%Z || bool_decide (idx ∈ used_indices) then
        score_quotes self query_unit used_indices hits'
      else
        quote_data ← Py.getitem (quotes self) idx;
        let semantic_sim := Py.max0 cosine_sim in
        let emotion_sim :=
          Py.max0 (_emotion_sim self query_unit (emotion_label quote_data)) in
        let composite := composite_of semantic_sim emotion_sim in
        rest ← score_quotes self query_unit used_indices hits';
        Ok (QuoteResult idx (Py.round3 semantic_sim) (Py.round3 emotion_sim)
              1.0 (Py.round3 composite) quote_data :: rest)
  end.

Definition search_quote (self : QuoteDBManager) (query : string) (top_k : Z)
  (used_indices : list Z) : result (list quote_result) :=
  match quote_index self with
  | None => Ok []
  | Some idx_obj =>
      let raw_vec := normalize_L2 (encode query) in
      let fetch_k := Z.min (top_k * 4) (faiss.ntotal idx_obj) in
      hits ← faiss.search idx_obj raw_vec fetch_k;
      results ← score_quotes self raw_vec used_indices hits;
      let results := Py.sort_desc r_composite results in
      Ok (take (Z.to_nat (Z.min top_k (Z.of_nat (length results)))) results)
  end.

(** *** agents/cinematic_pipeline.py, the quote stage *)

Definition set_selected_quote (state : GraphState) (q : option quote_result)
  : GraphState :=
  MkGraphState (user_query state) (preferences state) (chat_history state)
    (direct_answer state) q (final_response state).

(** [self._used_indices.append(i)] followed by the bounded [pop(0)]. *)
Definition track_usage (used : list Z) (i : Z) : list Z :=
  let used := used ++ [i] in
  if (5 <? length used)%nat then drop 1 used else used.

Definition _node_retrieve_quote (self : CinematicPipeline) (state : GraphState)
  : result (CinematicPipeline * GraphState) :=
  let query := Py.lower (user_query state) in
  let words := Py.split query in
  if (length words <? 4)%nat then Ok (self, set_selected_quote state None)
  else
    candidates ← search_quote (quote_db self) (user_query state) 3
                   (_used_indices self);
    match candidates with
    | [] => Ok (self, set_selected_quote state None)
    | best :: _ =>
        if Qltb (r_composite best) MIN_SCORE then
          Ok (self, set_selected_quote state None)
        else
          Ok (MkPipeline (quote_db self) (track_usage (_used_indices self) (r_index best)),
              set_selected_quote state (Some best))
    end.

(** A conversation: the quote stage run on the state of each turn in
    order.  A turn whose search raises leaves the pipeline object as it
    was.  The result is the pipeline after the last turn and the accepted
    quotes, oldest first. *)
Fixpoint retrieve_turns (self : CinematicPipeline) (turns : list GraphState)
  : CinematicPipeline * list quote_result :=
  match turns with
  | [] => (self, [])
  | state :: turns' =>
      match _node_retrieve_quote self state with
      | Ok (self', state') =>
          let r := retrieve_turns self' turns' in
          (r.1, match selected_quote state' with
                | Some q => q :: r.2
                | None => r.2
                end)
      | Raise _ => retrieve_turns self turns'
      end
  end.

(** A sequence of [add_memory] calls on one domain; each call carries the
    clock reading at which it runs. *)
Record memory_call : Type := MemoryCall {
  call_now : Q;
  call_text : string;
  call_importance : Q;
  call_type : string
}.

Fixpoint add_memories (mgr : VectorDBManager) (fs : filesystem)
  (domain_name : string) (calls : list memory_call)
  : result (VectorDBManager * filesystem) :=
  match calls with
  | [] => Ok (mgr, fs)
  | c :: calls' =>
      st ← add_memory mgr fs (call_now c) domain_name (call_text c)
             (call_importance c) (call_type c);
      add_memories st.1 st.2 domain_name calls'
  end.

(** ** Functions and predicates used to state the properties *)

Definition all_hits (ix : faiss.Index) (q : faiss.vec) : list (Q * Z) :=
  imap (fun i v => (faiss.distance (faiss.metric_type ix) q v, Z.of_nat i))
       (faiss.vectors ix).

(** The last [n] items of a list. *)
Definition last_n {A} (n : nat) (l : list A) : list A := drop (length l - n) l.

(** A hit is kept by the scoring loop when its base similarity is not
    below the relevance floor. *)
Definition survives (hit : Q * Z) : bool :=
  negb (hit.2 =? -1)%Z
  && negb (Qltb (base_similarity_of hit.1) (np_round RELEVANCE_FLOOR)).


(** The two files of a domain hold its index and its metadata. *)
Definition persisted (fs : filesystem) (mgr : VectorDBManager)
  (domain_name : string) (db : domain_db) : Prop :=
  fs !! domain_index_path mgr domain_name = Some (IndexFile (index db))
  ∧ fs !! domain_meta_path mgr domain_name = Some (MetaFile None (data db)).

(** The vector at a position is the embedding of the text of the record at
    that position. *)
Definition embeds (v : faiss.vec) (m : memory_obj) : Prop :=
  ∃ t, m_text m = Some t ∧ v = encode t.

(** Index and metadata are parallel: the vector at each position is the
    embedding of the text of the record at that position. *)
Definition store_inv (db : domain_db) : Prop :=
  Forall2 embeds (faiss.vectors (index db)) (data db).

(** A domain is ready for [add_memory] when its store satisfies the
    invariant or, for a domain that is not loaded yet, when its two files
    are missing or hold a store that satisfies it. *)
Definition domain_ready (mgr : VectorDBManager) (fs : filesystem)
  (domain_name : string) : Prop :=
  match databases mgr !! domain_name with
  | Some db => store_inv db
  | None =>
      exists_path fs (domain_index_path mgr domain_name)
      && exists_path fs (domain_meta_path mgr domain_name) = false
      ∨ ∃ ix t d,
          fs !! domain_index_path mgr domain_name = Some (IndexFile ix)
          ∧ fs !! domain_meta_path mgr domain_name = Some (MetaFile t d)
          ∧ store_inv (DomainDb ix d)
  end.

(** What one [add_memory] makes of a store: the append of a record with
    its vector, or the overwrite of one record followed by the rebuild of
    the index from the texts of all records. *)
Definition memory_step (new_vec : faiss.vec) (new : memory_obj)
  (db db' : domain_db) : Prop :=
  (index db' = faiss.add [new_vec] (index db) ∧ data db' = data db ++ [new])
  ∨ ∃ (i : nat) texts,
      (i < length (data db))%nat
      ∧ data db' = <[i := new]> (data db)
      ∧ Forall2 (fun t m => m_text m = Some t) texts (data db')
      ∧ index db' = faiss.MkIndex faiss.METRIC_L2 (encode <$> texts).

(** [P] holds of the store a sequence of calls on the domain starts from:
    the loaded store or, for a domain that is not loaded, the store its
    two files hold, if they hold one. *)
Definition store_before (P : domain_db → Prop) (mgr : VectorDBManager)
  (fs : filesystem) (domain_name : string) : Prop :=
  match databases mgr !! domain_name with
  | Some db => P db
  | None =>
      ∀ ix t d,
        fs !! domain_index_path mgr domain_name = Some (IndexFile ix) →
        fs !! domain_meta_path mgr domain_name = Some (MetaFile t d) →
        P (DomainDb ix d)
  end.

(** The string has no path separator. *)
Fixpoint no_slash (s : string) : bool :=
  match s with
  | EmptyString => true
  | String c s' => negb (bool_decide (c = "/"%char)) && no_slash s'
  end.

(** The path of the two files of a domain without their endings. *)
Definition domain_stem (mgr : VectorDBManager) (domain_name : string) : string :=
  os_path_join (index_dir mgr) domain_name.

(** The two files of a domain can be written: the directory that holds
    them exists and neither path is a directory.  That is the case for
    every domain name without a path separator once the constructor has
    created the index directory. *)
Definition files_writable (fs : filesystem) (mgr : VectorDBManager)
  (domain_name : string) : Prop :=
  can_write fs (domain_index_path mgr domain_name) = true
  ∧ can_write fs (domain_meta_path mgr domain_name) = true.

(** A hit is a candidate when it is a real position outside the excluded
    ones. *)
Definition eligible (used_indices : list Z) (hit : Q * Z) : bool :=
  negb ((hit.2 =? -1)%Z || bool_decide (hit.2 ∈ used_indices)).

(** The two signals of a candidate, before rounding. *)
Definition semantic_signal (cosine_sim : Q) : Q := Py.max0 cosine_sim.

Definition emotion_signal (self : QuoteDBManager) (query_unit : faiss.vec)
  (q : quote) : Q :=
  Py.max0 (_emotion_sim self query_unit (emotion_label q)).

(** The entry [search_quote] records for the hit [hit] on the quote [q]. *)
Definition result_of (self : QuoteDBManager) (query_unit : faiss.vec)
  (hit : Q * Z) (q : quote) : quote_result :=
  QuoteResult hit.2
    (Py.round3 (semantic_signal hit.1))
    (Py.round3 (emotion_signal self query_unit q))
    1.0
    (Py.round3 (composite_of (semantic_signal hit.1)
                             (emotion_signal self query_unit q)))
    q.

(** The index of the manager is the inner-product index of the normalised
    embeddings of the compound documents of its quotes, as
    [_load_or_build] builds it. *)
Definition quote_db_built (self : QuoteDBManager) : Prop :=
  quote_index self
  = Some (faiss.MkIndex faiss.METRIC_INNER_PRODUCT
            ((fun q => normalize_L2 (encode (compound_doc q))) <$> quotes self)).


(** The decay formula when every operation rounds its exact result with
    [fl], as floating-point arithmetic does. *)
Definition rounded_decayed_score (fl : Q → Q) (base_similarity importance age : Q)
  : Q :=
  let recency_weight :=
    fl (base_similarity * fl (1.0 / fl (1.0 + age)))%Q in
  fl (fl (base_similarity + fl (importance * 0.5)) + recency_weight)%Q.

(** ** Further functions of the source *)

(** [VectorDBManager.search]: the standard search routes to the decayed
    one. *)
Definition search (mgr : VectorDBManager) (now : Q) (domain_name query : string)
  (top_k : Z) : result (list memory_obj) :=
  search_with_decay mgr now domain_name query top_k.

(** [QuoteDBManager.search_catchphrase]. *)
Definition search_catchphrase (self : QuoteDBManager) (query : string)
  (top_k : Z) (used_indices : list Z) : result (list quote_result) :=
  all_results ← search_quote self query (top_k * 3) used_indices;
  let catchphrases :=
    filter (fun r => q_type (r_metadata r) = Some "catchphrase") all_results in
  let result_len := Z.min (Z.of_nat (length catchphrases)) top_k in
  Ok (take (Z.to_nat result_len) catchphrases).

(** [CinematicPipeline._node_load_context].  [vector_db] and [chat_buffer]
    are the objects the pipeline holds; each of the two searches reads the
    clock on its own.  When both searches raise, the exception of the
    first is the one reported here. *)
Definition _node_load_context (vector_db : VectorDBManager)
  (chat_buffer : ConversationBuffer) (now_prefs now_facts : Q)
  (state : GraphState) : result GraphState :=
  prefs ← search_with_decay vector_db now_prefs "preferences" (user_query state) 2;
  facts ← search_with_decay vector_db now_facts "personal_context"
            (user_query state) 2;
  let history := get_history chat_buffer in
  let all_memory := prefs ++ facts in
  _ ← match all_memory with
      | [] => Ok ""
      | m :: _ => get_text m
      end;
  Ok (MkGraphState (user_query state) all_memory history (direct_answer state)
        (selected_quote state) (final_response state)).

(** The classifier of the gatekeeper: the reply of the text-generation
    service to the system prompt and the utterance, cleaned and parsed by
    [json.loads]; [None] when that raises. *)
Variable classify : string → option decision.

(** [MemoryGatekeeper.evaluate_and_store]. *)
Definition evaluate_and_store (mgr : VectorDBManager) (fs : filesystem)
  (now : Q) (user_text : string) : gate_outcome :=
  if negb (_fast_check user_text) then NotTriggered
  else
    match classify user_text with
    | None => Dropped
    | Some decision =>
        if dec_store decision then
          let summary := default "" (dec_summary decision) in
          let domain := default "personal_context" (dec_type decision) in
          let importance := default 0.5%Q (dec_importance decision) in
          let domain :=
            if bool_decide (domain ∈ VALID_DOMAINS) then domain
            else "personal_context" in
          match add_memory mgr fs now domain summary importance domain with
          | Ok st => Stored st
          | Raise e => Swallowed e
          end
        else Dropped
    end.


(** The last character of a string. *)
Fixpoint last_char (s : string) : option Ascii.ascii :=
  match s with
  | EmptyString => None
  | String c EmptyString => Some c
  | String _ s' => last_char s'
  end.


(** * Properties *)

(** ** Sorting *)

Section sorting_facts.
Context {A : Type} (before : A → A → bool) (R : A → A → Prop).
Hypothesis before_true : ∀ x y, before y x = true → R y x.
Hypothesis before_false : ∀ x y, before y x = false → R x y.
Hypothesis R_trans : ∀ x y z, R x y → R y z → R x z.

Lemma insert_sorted_perm x l : Py.insert_sorted before x l ≡ₚ x :: l.
Proof.
  induction l as [|y l IH]; simpl; [done|].
  destruct (before y x); [|done].
  rewrite IH. apply Permutation_swap.
Qed.

Lemma sort_with_perm l : Py.sort_with before l ≡ₚ l.
Proof.
  induction l as [|x l IH]; simpl; [done|].
  rewrite insert_sorted_perm. by f_equiv.
Qed.

Lemma insert_sorted_sorted x l :
  StronglySorted R l → StronglySorted R (Py.insert_sorted before x l).
Proof using before_true before_false R_trans.
  induction l as [|y l IH]; simpl; intros Hs.
  - repeat constructor.
  - apply StronglySorted_cons in Hs as [Hy Hl].
    destruct (before y x) eqn:Hb.
    + apply StronglySorted_cons. split; [|by apply IH].
      rewrite insert_sorted_perm. constructor; [by apply before_true|done].
    + apply StronglySorted_cons. split.
      * constructor; [by apply before_false|].
        eapply Forall_impl; [exact Hy|]. intros z Hz.
        eapply R_trans; [|exact Hz]. by apply before_false.
      * by apply StronglySorted_cons.
Qed.

Lemma sort_with_sorted l : StronglySorted R (Py.sort_with before l).
Proof using before_true before_false R_trans.
  induction l as [|x l IH]; simpl; [constructor|].
  by apply insert_sorted_sorted.
Qed.
End sorting_facts.

Lemma sort_desc_perm {A} (key : A → Q) l : Py.sort_desc key l ≡ₚ l.
Proof. apply sort_with_perm. Qed.

Lemma sort_asc_perm {A} (key : A → Q) l : Py.sort_asc key l ≡ₚ l.
Proof. apply sort_with_perm. Qed.

Lemma sort_desc_sorted {A} (key : A → Q) l :
  StronglySorted (fun a b => (key b <= key a)%Q) (Py.sort_desc key l).
Proof.
  apply sort_with_sorted.
  - intros x y Hb. apply negb_true_iff in Hb.
    destruct (Qlt_le_dec (key x) (key y)) as [Hlt|Hle].
    + by apply Qlt_le_weak.
    + apply Qle_bool_iff in Hle. congruence.
  - intros x y Hb. apply negb_false_iff in Hb. by apply Qle_bool_iff.
  - intros x y z Hxy Hyz. by eapply Qle_trans.
Qed.

Lemma sort_asc_sorted {A} (key : A → Q) l :
  StronglySorted (fun a b => (key a <= key b)%Q) (Py.sort_asc key l).
Proof.
  apply sort_with_sorted.
  - intros x y Hb. apply negb_true_iff in Hb.
    destruct (Qlt_le_dec (key y) (key x)) as [Hlt|Hle].
    + by apply Qlt_le_weak.
    + apply Qle_bool_iff in Hle. congruence.
  - intros x y Hb. apply negb_false_iff in Hb. by apply Qle_bool_iff.
  - intros x y z Hxy Hyz. by eapply Qle_trans.
Qed.

(** ** The vector index *)

Lemma ranked_perm ix q : faiss.ranked ix q ≡ₚ all_hits ix q.
Proof.
  unfold faiss.ranked, all_hits.
  destruct (faiss.metric_type ix); [apply sort_asc_perm|apply sort_desc_perm].
Qed.

Lemma elem_of_all_hits ix q d i :
  (d, i) ∈ all_hits ix q ↔
  ∃ (j : nat) v, i = Z.of_nat j ∧ faiss.vectors ix !! j = Some v
                 ∧ d = faiss.distance (faiss.metric_type ix) q v.
Proof.
  unfold all_hits. rewrite elem_of_lookup_imap. split.
  - intros (j & v & Heq & Hj). injection Heq as -> ->. eauto.
  - intros (j & v & -> & Hj & ->). eauto.
Qed.

Lemma ranked_length ix q : length (faiss.ranked ix q) = length (faiss.vectors ix).
Proof. rewrite (Permutation_length (ranked_perm ix q)). apply length_imap. Qed.

Lemma nearest_length ix q k :
  length (faiss.nearest ix q k) = (Z.to_nat k `min` length (faiss.vectors ix))%nat.
Proof. unfold faiss.nearest. by rewrite length_take, ranked_length. Qed.

Lemma elem_of_nearest ix q k d i :
  (d, i) ∈ faiss.nearest ix q k →
  ∃ (j : nat) v, i = Z.of_nat j ∧ faiss.vectors ix !! j = Some v
                 ∧ d = faiss.distance (faiss.metric_type ix) q v.
Proof.
  unfold faiss.nearest. intros Hin%subseteq_take.
  apply elem_of_all_hits. by rewrite <- ranked_perm.
Qed.

(** The first hit of an L2 search is a nearest neighbour. *)
Lemma nearest_head ix q k d i rest :
  faiss.metric_type ix = faiss.METRIC_L2 →
  faiss.nearest ix q k = (d, i) :: rest →
  ∀ (j : nat) w, faiss.vectors ix !! j = Some w → (d <= faiss.l2_sqr q w)%Q.
Proof.
  intros Hm Hs j w Hj.
  assert (∃ rest', faiss.ranked ix q = (d, i) :: rest') as [rest' Hr].
  { unfold faiss.nearest in Hs. destruct (faiss.ranked ix q) as [|h t].
    - by rewrite take_nil in Hs.
    - destruct (Z.to_nat k); simpl in Hs; [done|]. injection Hs as -> _. eauto. }
  assert ((faiss.l2_sqr q w, Z.of_nat j) ∈ faiss.ranked ix q) as Hin.
  { rewrite ranked_perm. apply elem_of_all_hits. exists j, w. by rewrite Hm. }
  assert (StronglySorted (fun a b : Q * Z => (a.1 <= b.1)%Q) (faiss.ranked ix q)) as Hsorted.
  { unfold faiss.ranked. rewrite Hm. apply sort_asc_sorted. }
  rewrite Hr in Hin, Hsorted.
  apply StronglySorted_cons in Hsorted as [Hall _].
  apply elem_of_cons in Hin as [Heq|Hin].
  - injection Heq as <- _. apply Qle_refl.
  - rewrite Forall_forall in Hall. by apply (Hall _ Hin).
Qed.

(** A search for at least one hit in a non-empty index has a first hit. *)
Lemma nearest_nonempty ix q k :
  (0 < k)%Z → (0 < faiss.ntotal ix)%Z →
  ∃ d i rest, faiss.nearest ix q k = (d, i) :: rest.
Proof.
  intros Hk Hn. pose proof (nearest_length ix q k) as Hlen.
  unfold faiss.ntotal in Hn.
  destruct (faiss.nearest ix q k) as [|[d i] rest]; [|eauto].
  simpl in Hlen. lia.
Qed.

(** [index.search] answers when it is asked for at least one neighbour. *)
Lemma search_Ok ix q k :
  (0 < k)%Z → faiss.search ix q k = Ok (faiss.nearest ix q k).
Proof. intros Hk. unfold faiss.search. by destruct (Z.ltb_spec 0 k); [|lia]. Qed.

Lemma search_Ok_inv ix q k hits :
  faiss.search ix q k = Ok hits → (0 < k)%Z ∧ hits = faiss.nearest ix q k.
Proof.
  unfold faiss.search. destruct (Z.ltb_spec 0 k); [|done].
  by intros [= <-].
Qed.

Lemma search_refused ix q k :
  (k <= 0)%Z → faiss.search ix q k = Raise AssertionError.
Proof. intros Hk. unfold faiss.search. by destruct (Z.ltb_spec 0 k); [lia|]. Qed.

(** ** The conversation window *)

Lemma deque_append_last_n {A} (n : nat) (x : A) (l : list A) :
  Py.deque_append n x (last_n n l) = last_n n (l ++ [x]).
Proof.
  unfold Py.deque_append, last_n.
  rewrite !length_app, length_drop. simpl.
  destruct (decide (length l < n)%nat) as [Hlt|Hge].
  - replace (length l - n)%nat with 0%nat by lia.
    replace (length l + 1 - n)%nat with 0%nat by lia. simpl.
    rewrite drop_0.
    destruct (Nat.ltb_spec n (length l - 0 + 1)); [lia|done].
  - destruct (Nat.ltb_spec n (length l - (length l - n) + 1)); [|lia].
    destruct (decide (n = 0)%nat) as [->|Hn].
    + rewrite Nat.sub_0_r, drop_all. simpl.
      rewrite drop_ge; [done|]. rewrite length_app. simpl. lia.
    + rewrite drop_app_le by (rewrite length_drop; lia).
      rewrite drop_drop.
      rewrite (drop_app_le l [x]) by lia.
      do 2 f_equal. lia.
Qed.

Lemma add_interaction_last_n n (msgs : list message) u a :
  add_interaction u a (MkBuffer n (last_n n msgs))
  = MkBuffer n (last_n n (msgs ++ exchange_messages (u, a))).
Proof.
  unfold add_interaction, exchange_messages. simpl.
  rewrite !deque_append_last_n. by rewrite <- app_assoc.
Qed.

(** What [get_history] returns after any sequence of exchanges: the last
    [max_turns] messages, not the last [max_turns] exchanges. *)
Lemma get_history_last_messages n (exs : list (string * string)) :
  get_history (add_interactions exs (MkBuffer n []))
  = last_n n (exs ≫= exchange_messages).
Proof.
  change (MkBuffer n []) with (MkBuffer n (last_n n [])).
  change (exs ≫= exchange_messages) with ([] ++ exs ≫= exchange_messages).
  generalize (@nil message) as msgs.
  induction exs as [|[u a] exs IH]; intros msgs; simpl.
  - by rewrite app_nil_r.
  - unfold add_interactions in *. simpl.
    rewrite add_interaction_last_n, IH. by rewrite <- app_assoc.
Qed.

(** C9 (code defect).  With the default bound of 5, three exchanges leave
    five messages in the window: the user message of the first exchange is
    gone while its assistant reply is still there.  The window is bounded
    in messages, so it holds two and a half exchanges, not the five most
    recent ones. *)
Theorem conversation_window_counts_messages :
  ∃ b, new_ConversationBuffer 5 = Ok b
       ∧ get_history (add_interactions Demo.exchanges b)
         = [Message "assistant" "a1"; Message "user" "u2";
            Message "assistant" "a2"; Message "user" "u3";
            Message "assistant" "a3"]
       ∧ get_history (add_interactions Demo.exchanges b)
         ≠ Demo.exchanges ≫= exchange_messages.
Proof.
  eexists. split; [reflexivity|]. split; [reflexivity|]. discriminate.
Qed.

(** ** Decay scoring *)

Lemma Qinv_le_contravar (a b : Q) :
  (0 < a)%Q → (a <= b)%Q → (/ b <= / a)%Q.
Proof.
  intros Ha Hab. apply Qle_shift_inv_l; [done|].
  rewrite Qmult_comm. apply Qle_shift_div_r.
  - by eapply Qlt_le_trans.
  - by rewrite Qmult_1_l.
Qed.

Lemma decayed_score_antitone (s imp1 imp2 a1 a2 : Q) :
  (0 <= s)%Q → (imp1 == imp2)%Q → (0 <= a1)%Q → (a1 <= a2)%Q →
  (decayed_score s imp2 a2 <= decayed_score s imp1 a1)%Q.
Proof.
  intros Hs Himp Ha1 Ha12. unfold decayed_score.
  rewrite Himp.
  apply Qplus_le_r.
  rewrite (Qmult_comm s), (Qmult_comm s).
  apply Qmult_le_compat_r; [|done].
  unfold Qdiv. rewrite (Qmult_comm 1.0), (Qmult_comm 1.0).
  apply Qmult_le_compat_r; [|done].
  apply Qinv_le_contravar; lra.
Qed.

(** The order of the scores does not depend on the arithmetic being exact:
    it survives any rounding that is monotone and does not take 1 below
    itself, as rounding to the nearest floating-point number does. *)
Lemma rounded_decayed_score_antitone (fl : Q → Q) (s imp a1 a2 : Q) :
  (∀ x y, (x <= y)%Q → (fl x <= fl y)%Q) →
  (1 <= fl 1)%Q →
  (0 <= s)%Q → (0 <= a1)%Q → (a1 <= a2)%Q →
  (rounded_decayed_score fl s imp a2 <= rounded_decayed_score fl s imp a1)%Q.
Proof.
  intros Hmono Hone Hs Ha1 Ha12. unfold rounded_decayed_score.
  assert (0 < fl (1.0 + a1))%Q as Hpos.
  { eapply Qlt_le_trans; [|apply (Hmono 1%Q); lra]. lra. }
  apply Hmono, Qplus_le_r, Hmono.
  rewrite (Qmult_comm s), (Qmult_comm s).
  apply Qmult_le_compat_r; [|done].
  apply Hmono. unfold Qdiv.
  rewrite (Qmult_comm 1.0), (Qmult_comm 1.0).
  apply Qmult_le_compat_r; [|done].
  apply Qinv_le_contravar; [done|]. apply Hmono. lra.
Qed.

(** C7.  Two dynamic records scored in the same call with the same base
    similarity (at or above the relevance floor) and the same importance:
    when the ages are non-negative, the younger record scores at least as
    much as the older one. *)
Theorem decay_monotonicity (now s : Q) (m1 m2 : memory_obj) (t1 t2 : Q) :
  m_timestamp m1 = Some t1 →
  m_timestamp m2 = Some t2 →
  (default 0.5 (m_importance m1) == default 0.5 (m_importance m2))%Q →
  (RELEVANCE_FLOOR <= s)%Q →
  (0 <= age_in_days now t1)%Q →
  (age_in_days now t1 <= age_in_days now t2)%Q →
  ∃ score1 score2,
    final_score now s m1 = Ok score1
    ∧ final_score now s m2 = Ok score2
    ∧ (score2 <= score1)%Q.
Proof.
  intros Ht1 Ht2 Himp Hs Ha1 Ha12.
  assert (0 <= s)%Q as Hs0 by (unfold RELEVANCE_FLOOR in Hs; lra).
  unfold final_score. rewrite Ht1, Ht2.
  destruct (Qeq_bool (1.0 + age_in_days now t1) 0) eqn:E1.
  { apply Qeq_bool_iff in E1. lra. }
  destruct (Qeq_bool (1.0 + age_in_days now t2) 0) eqn:E2.
  { apply Qeq_bool_iff in E2. lra. }
  eexists _, _. split; [done|]. split; [done|].
  by apply decayed_score_antitone.
Qed.

(** ** Decayed search *)

Lemma survives_floor hit :
  survives hit = true →
  (np_round RELEVANCE_FLOOR <= base_similarity_of hit.1)%Q.
Proof.
  unfold survives, Qltb. rewrite andb_true_iff, !negb_true_iff, negb_false_iff.
  intros [_ H]. by apply Qle_bool_iff.
Qed.


(** The score is defined unless the record is stamped exactly one day
    after the clock reading. *)
Lemma final_score_defined now s m :
  (∀ t, m_timestamp m = Some t → ¬ (1 + (now - t) / 86400 == 0)%Q) →
  ∃ score, final_score now s m = Ok score.
Proof.
  intros Ht. unfold final_score.
  destruct (m_timestamp m) as [t|]; [|eauto].
  destruct (Qeq_bool _ _) eqn:E; [|eauto].
  apply Qeq_bool_iff in E. exfalso. apply (Ht t eq_refl).
  unfold age_in_days in E. rewrite <- E.
  assert (1.0 == 1)%Q as -> by reflexivity.
  assert (86400.0 == 86400)%Q as -> by reflexivity.
  reflexivity.
Qed.

Lemma final_score_division now s m t :
  m_timestamp m = Some t → (1 + (now - t) / 86400 == 0)%Q →
  final_score now s m = Raise ZeroDivisionError.
Proof.
  intros Ht Hz. unfold final_score. rewrite Ht.
  destruct (Qeq_bool _ _) eqn:E; [done|].
  apply Qeq_bool_neq in E. exfalso. apply E.
  unfold age_in_days. rewrite <- Hz.
  assert (1.0 == 1)%Q as -> by reflexivity.
  assert (86400.0 == 86400)%Q as -> by reflexivity.
  reflexivity.
Qed.

Lemma not_future_defined now (m : memory_obj) :
  (∀ t, m_timestamp m = Some t → (t <= now)%Q) →
  ∀ t, m_timestamp m = Some t → ¬ (1 + (now - t) / 86400 == 0)%Q.
Proof.
  intros Hts t Ht Hz. specialize (Hts t Ht).
  assert (0 <= (now - t) / 86400)%Q; [|lra].
  apply Qle_shift_div_l; lra.
Qed.

Lemma final_score_total now s m :
  (∀ t, m_timestamp m = Some t → (t <= now)%Q) →
  ∃ score, final_score now s m = Ok score.
Proof. intros Ht. by apply final_score_defined, not_future_defined. Qed.

Lemma getitem_Ok {A} (l : list A) (i : Z) x :
  (0 <= i)%Z → Py.getitem l i = Ok x ↔ l !! Z.to_nat i = Some x.
Proof.
  intros Hi. unfold Py.getitem.
  destruct (Z.ltb_spec i 0); [lia|].
  destruct (Z.ltb_spec i 0); [lia|].
  destruct (l !! Z.to_nat i); split; congruence.
Qed.

Lemma score_hits_Forall2 now dat hits scored :
  score_hits now dat hits = Ok scored →
  Forall2 (fun hit sm =>
             Py.getitem dat hit.2 = Ok sm.2
             ∧ final_score now (base_similarity_of hit.1) sm.2 = Ok sm.1)
          (filter (fun hit => survives hit) hits) scored.
Proof.
  revert scored. induction hits as [|[d i] hits IH]; intros scored; simpl.
  - intros [= <-]. constructor.
  - destruct (i =? -1)%Z eqn:Ei.
    { rewrite filter_cons_False; [apply IH|].
      unfold survives. simpl. rewrite Ei. by intros []. }
    destruct (Py.getitem dat i) as [m|e] eqn:Hget; simpl; [|done].
    destruct (Qltb (base_similarity_of d) (np_round RELEVANCE_FLOOR)) eqn:Ef.
    { rewrite filter_cons_False; [apply IH|].
      unfold survives. simpl. rewrite Ei, Ef. by intros []. }
    rewrite filter_cons_True by (unfold survives; simpl; by rewrite Ei, Ef).
    destruct (final_score now (base_similarity_of d) m) as [sc|e] eqn:Hsc;
      simpl; [|done].
    destruct (score_hits now dat hits) as [rest|e]; simpl; [|done].
    intros [= <-]. constructor; [done|]. by apply IH.
Qed.



Lemma Forall2_elem_r {A B} (P : A → B → Prop) (l : list A) (k : list B) y :
  Forall2 P l k → y ∈ k → ∃ x, x ∈ l ∧ P x y.
Proof.
  induction 1 as [|x y' l k Hxy _ IH]; intros Hy.
  - by apply elem_of_nil in Hy.
  - apply elem_of_cons in Hy as [->|Hy].
    + exists x. split; [left|done].
    + destruct (IH Hy) as (x' & Hx' & HP). exists x'. split; [by right|done].
Qed.

Lemma slice_to_nonneg {A} (l : list A) (k : Z) :
  (0 <= k)%Z → Py.slice_to l k = take (Z.to_nat k) l.
Proof. intros Hk. unfold Py.slice_to. by destruct (Z.leb_spec 0 k); [|lia]. Qed.





(** ** Paths of a domain *)

Lemma string_length_app (s1 s2 : string) :
  String.length (s1 +:+ s2) = (String.length s1 + String.length s2)%nat.
Proof. induction s1 as [|c s1 IH]; simpl; [done|]. by rewrite IH. Qed.

Lemma string_app_assoc (s t u : string) : (s +:+ t) +:+ u = s +:+ (t +:+ u).
Proof.
  induction s as [|c s IH]; [done|].
  change (String c ((s +:+ t) +:+ u) = String c (s +:+ (t +:+ u))).
  by rewrite IH.
Qed.

Lemma starts_with_slash_app (s t : string) :
  starts_with_slash (s +:+ t)
  = if bool_decide (s = "") then starts_with_slash t else starts_with_slash s.
Proof. by destruct s. Qed.

Lemma os_path_join_length (a s t1 t2 : string) :
  starts_with_slash t1 = false → starts_with_slash t2 = false →
  String.length t1 ≠ String.length t2 →
  os_path_join a (s +:+ t1) ≠ os_path_join a (s +:+ t2).
Proof.
  intros H1 H2 Hlen Heq. apply (f_equal String.length) in Heq.
  unfold os_path_join in Heq. rewrite !starts_with_slash_app, H1, H2 in Heq.
  destruct (if bool_decide (s = "") then false else starts_with_slash s);
    [|destruct (bool_decide (a = "") || ends_with_slash a)];
    rewrite !string_length_app in Heq; lia.
Qed.

Lemma domain_paths_distinct mgr domain_name :
  domain_index_path mgr domain_name ≠ domain_meta_path mgr domain_name.
Proof. by apply os_path_join_length. Qed.

Lemma os_path_join_app (a s t : string) :
  starts_with_slash t = false →
  os_path_join a (s +:+ t) = os_path_join a s +:+ t.
Proof.
  intros Ht. unfold os_path_join. rewrite starts_with_slash_app, Ht.
  assert ((if bool_decide (s = "") then false else starts_with_slash s)
          = starts_with_slash s) as -> by (by destruct s).
  destruct (starts_with_slash s); [done|].
  destruct (bool_decide (a = "") || ends_with_slash a);
    by rewrite !string_app_assoc.
Qed.

Lemma domain_index_path_stem mgr domain_name :
  domain_index_path mgr domain_name = domain_stem mgr domain_name +:+ ".index".
Proof. by apply os_path_join_app. Qed.

Lemma domain_meta_path_stem mgr domain_name :
  domain_meta_path mgr domain_name = domain_stem mgr domain_name +:+ "_meta.json".
Proof. by apply os_path_join_app. Qed.

Lemma head_no_slash (t : string) :
  no_slash t = true → head_to_last_slash t = "".
Proof.
  induction t as [|c t IH]; [done|]. simpl.
  intros [Hc Ht]%andb_true_iff. rewrite (IH Ht).
  apply negb_true_iff in Hc. by rewrite Hc.
Qed.

Lemma head_app_no_slash (x t : string) :
  no_slash t = true → head_to_last_slash (x +:+ t) = head_to_last_slash x.
Proof.
  intros Ht. induction x as [|c x IH].
  - change ("" +:+ t) with t. by rewrite head_no_slash.
  - change (String c x +:+ t) with (String c (x +:+ t)). simpl. by rewrite IH.
Qed.

Lemma head_length (x : string) :
  (String.length (head_to_last_slash x) <= String.length x)%nat.
Proof.
  induction x as [|c x IH]; simpl; [done|].
  destruct (_ || _); simpl; lia.
Qed.

Lemma rstrip_length (x : string) :
  (String.length (rstrip_slash x) <= String.length x)%nat.
Proof.
  induction x as [|c x IH]; simpl; [done|].
  destruct (_ && _); simpl; lia.
Qed.

(** The directory part of a path does not depend on an ending without
    separator, and is shorter than the path with that ending. *)
Lemma dirname_app_no_slash (x t : string) :
  no_slash t = true → os_path_dirname (x +:+ t) = os_path_dirname x.
Proof. intros Ht. unfold os_path_dirname. by rewrite head_app_no_slash. Qed.

Lemma dirname_length (x : string) :
  (String.length (os_path_dirname x) <= String.length x)%nat.
Proof.
  unfold os_path_dirname. pose proof (head_length x).
  pose proof (rstrip_length (head_to_last_slash x)).
  destruct (bool_decide _); lia.
Qed.

Lemma dirname_app_neq (x t u : string) :
  no_slash t = true → u ≠ "" → os_path_dirname (x +:+ t) ≠ x +:+ u.
Proof.
  intros Ht Hu Heq. rewrite dirname_app_no_slash in Heq by done.
  apply (f_equal String.length) in Heq. rewrite string_length_app in Heq.
  pose proof (dirname_length x). destruct u; [done|]. simpl in Heq. lia.
Qed.

Lemma domain_dirname_meta mgr domain_name :
  os_path_dirname (domain_meta_path mgr domain_name)
  = os_path_dirname (domain_index_path mgr domain_name).
Proof.
  rewrite domain_meta_path_stem, domain_index_path_stem.
  by rewrite !dirname_app_no_slash.
Qed.

Lemma domain_dirname_not_file mgr domain_name :
  os_path_dirname (domain_index_path mgr domain_name)
  ≠ domain_index_path mgr domain_name
  ∧ os_path_dirname (domain_index_path mgr domain_name)
    ≠ domain_meta_path mgr domain_name.
Proof.
  rewrite domain_meta_path_stem, domain_index_path_stem.
  split; by apply dirname_app_neq.
Qed.

(** ** Writing the files of a domain *)

Lemma is_dir_insert_file (fs : filesystem) (d p : string) (f : file) :
  d ≠ p → is_dir (<[p := f]> fs) d = is_dir fs d.
Proof. intros Hne. unfold is_dir. by rewrite lookup_insert_ne. Qed.

Lemma can_write_insert_other (fs : filesystem) (p p' : string) (f : file) :
  p ≠ p' → os_path_dirname p ≠ p' →
  can_write (<[p' := f]> fs) p = can_write fs p.
Proof.
  intros Hne Hdir. unfold can_write.
  by rewrite is_dir_insert_file, lookup_insert_ne.
Qed.

Lemma can_write_insert_same (fs : filesystem) (p : string) (f : file) :
  os_path_dirname p ≠ p → is_directory (Some f) = false →
  can_write fs p = true → can_write (<[p := f]> fs) p = true.
Proof.
  intros Hdir Hf. unfold can_write.
  rewrite is_dir_insert_file by done. rewrite lookup_insert_eq, Hf.
  intros [H _]%andb_true_iff. by rewrite H.
Qed.

(** What the two writes of [_save_domain] and [_init_empty_domain] do. *)
Lemma write_domain_files (fs : filesystem) mgr domain_name ix (d : list memory_obj) :
  (fs1 ← write_index fs (domain_index_path mgr domain_name) ix;
   write_json fs1 (domain_meta_path mgr domain_name) (MetaFile None d))
  = if can_write fs (domain_index_path mgr domain_name) then
      if can_write fs (domain_meta_path mgr domain_name) then
        Ok (<[domain_meta_path mgr domain_name := MetaFile None d]>
              (<[domain_index_path mgr domain_name := IndexFile ix]> fs))
      else Raise IsADirectoryError
    else Raise RuntimeError.
Proof.
  unfold write_index.
  destruct (can_write fs (domain_index_path mgr domain_name)) eqn:Hi; [|done].
  simpl. unfold write_json.
  destruct (domain_dirname_not_file mgr domain_name) as [Hne1 Hne2].
  rewrite can_write_insert_other.
  2: { intros Heq. by apply (domain_paths_distinct mgr domain_name). }
  2: { by rewrite domain_dirname_meta. }
  destruct (can_write fs (domain_meta_path mgr domain_name)) eqn:Hm; [done|].
  rewrite lookup_insert_ne
    by (intros Heq; by apply (domain_paths_distinct mgr domain_name)).
  unfold can_write in Hi, Hm. rewrite domain_dirname_meta in Hm.
  apply andb_true_iff in Hi as [Hdir _]. rewrite Hdir in Hm. simpl in Hm.
  apply negb_false_iff in Hm. by rewrite Hm.
Qed.

Lemma write_domain_files_Ok (fs : filesystem) mgr domain_name ix d :
  files_writable fs mgr domain_name →
  (fs1 ← write_index fs (domain_index_path mgr domain_name) ix;
   write_json fs1 (domain_meta_path mgr domain_name) (MetaFile None d))
  = Ok (<[domain_meta_path mgr domain_name := MetaFile None d]>
          (<[domain_index_path mgr domain_name := IndexFile ix]> fs)).
Proof. intros [Hi Hm]. by rewrite write_domain_files, Hi, Hm. Qed.

Lemma write_domain_files_inv (fs fs' : filesystem) mgr domain_name ix d :
  (fs1 ← write_index fs (domain_index_path mgr domain_name) ix;
   write_json fs1 (domain_meta_path mgr domain_name) (MetaFile None d))
  = Ok fs' →
  files_writable fs mgr domain_name
  ∧ fs' = <[domain_meta_path mgr domain_name := MetaFile None d]>
            (<[domain_index_path mgr domain_name := IndexFile ix]> fs).
Proof.
  rewrite write_domain_files. unfold files_writable.
  destruct (can_write fs (domain_index_path mgr domain_name)); [|done].
  destruct (can_write fs (domain_meta_path mgr domain_name)); [|done].
  by intros [= <-].
Qed.

(** The files stay writable once they are written. *)
Lemma files_writable_written (fs : filesystem) mgr domain_name ix d :
  files_writable fs mgr domain_name →
  files_writable
    (<[domain_meta_path mgr domain_name := MetaFile None d]>
       (<[domain_index_path mgr domain_name := IndexFile ix]> fs))
    mgr domain_name.
Proof.
  intros [Hi Hm].
  destruct (domain_dirname_not_file mgr domain_name) as [Hne1 Hne2].
  pose proof (domain_paths_distinct mgr domain_name) as Hne.
  split.
  - rewrite can_write_insert_other by done.
    by apply can_write_insert_same.
  - apply can_write_insert_same; [by rewrite domain_dirname_meta|done|].
    rewrite can_write_insert_other; [done|by apply not_eq_sym|].
    by rewrite domain_dirname_meta.
Qed.

Lemma files_writable_index_dir fs mgr mgr2 domain_name :
  index_dir mgr2 = index_dir mgr →
  files_writable fs mgr2 domain_name ↔ files_writable fs mgr domain_name.
Proof.
  intros H. unfold files_writable, domain_index_path, domain_meta_path.
  by rewrite H.
Qed.

(** Without the directory, the index file cannot be written. *)
Lemma write_domain_files_no_dir (fs : filesystem) mgr domain_name ix d :
  is_dir fs (os_path_dirname (domain_index_path mgr domain_name)) = false →
  (fs1 ← write_index fs (domain_index_path mgr domain_name) ix;
   write_json fs1 (domain_meta_path mgr domain_name) (MetaFile None d))
  = Raise RuntimeError.
Proof.
  intros Hdir. rewrite write_domain_files. unfold can_write. by rewrite Hdir.
Qed.

Lemma save_domain_set mgr fs domain_name db :
  files_writable fs mgr domain_name →
  ∃ fs', _save_domain (set_domain mgr domain_name db) fs domain_name = Ok fs'
         ∧ persisted fs' (set_domain mgr domain_name db) domain_name db.
Proof.
  intros Hw. unfold _save_domain, lookup_key, set_domain. simpl.
  rewrite lookup_insert_eq. simpl.
  change (domain_index_path (MkVectorDB (data_dir mgr) (index_dir mgr) _)
            domain_name) with (domain_index_path mgr domain_name).
  change (domain_meta_path (MkVectorDB (data_dir mgr) (index_dir mgr) _)
            domain_name) with (domain_meta_path mgr domain_name).
  rewrite write_domain_files_Ok by done.
  eexists. split; [done|].
  split; simpl.
  - rewrite lookup_insert_ne; [by rewrite lookup_insert_eq|].
    intros Heq. by apply (domain_paths_distinct mgr domain_name).
  - by rewrite lookup_insert_eq.
Qed.

(** ** Making directories *)

Lemma makedirs_along_entries fs ps fs1 :
  makedirs_along fs ps = Ok fs1 →
  ∀ p, fs1 !! p = fs !! p
       ∨ (fs !! p = None ∧ fs1 !! p = Some Directory ∧ p ∈ ps).
Proof.
  revert fs. induction ps as [|q ps IH]; intros fs; simpl.
  - intros [= <-] p. by left.
  - destruct (fs !! q) as [[ix|t d|qs|]|] eqn:Hq; try done.
    + intros H p. destruct (IH _ H p) as [Heq|(Hn & Hd & Hin)]; [by left|].
      right. split; [done|]. split; [done|]. by right.
    + destruct (is_dir fs (os_path_dirname q)); [|done].
      intros H p. destruct (IH _ H p) as [Heq|(Hn & Hd & Hin)].
      * destruct (decide (p = q)) as [->|Hne].
        -- right. rewrite Heq, lookup_insert_eq.
           split; [done|]. split; [done|left].
        -- left. by rewrite Heq, lookup_insert_ne.
      * destruct (decide (p = q)) as [->|Hne].
        -- by rewrite lookup_insert_eq in Hn.
        -- rewrite lookup_insert_ne in Hn by done.
           right. split; [done|]. split; [done|]. by right.
Qed.

Lemma makedirs_along_dirs fs ps fs1 :
  makedirs_along fs ps = Ok fs1 → ∀ p, p ∈ ps → fs1 !! p = Some Directory.
Proof.
  revert fs. induction ps as [|q ps IH]; intros fs; simpl.
  - intros _ p Hin. by apply elem_of_nil in Hin.
  - destruct (fs !! q) as [[ix|t d|qs|]|] eqn:Hq; try done.
    + intros H p [->|Hin]%elem_of_cons; [|by eapply IH].
      destruct (makedirs_along_entries _ _ _ H q) as [->|(Hn & _)]; congruence.
    + destruct (is_dir fs (os_path_dirname q)); [|done].
      intros H p [->|Hin]%elem_of_cons; [|by eapply IH].
      destruct (makedirs_along_entries _ _ _ H q) as [->|(Hn & _)].
      * apply lookup_insert_eq.
      * by rewrite lookup_insert_eq in Hn.
Qed.

Lemma makedirs_along_idem fs ps :
  (∀ p, p ∈ ps → fs !! p = Some Directory) → makedirs_along fs ps = Ok fs.
Proof.
  induction ps as [|q ps IH]; intros H; simpl; [done|].
  rewrite (H q) by left. apply IH. intros p Hin. apply H. by right.
Qed.

(** [os.makedirs] leaves every entry of the disk as it was and adds only
    directories. *)
Lemma makedirs_new_entries fs name fs1 :
  os_makedirs fs name = Ok fs1 →
  ∀ p, fs !! p = None → fs1 !! p = None ∨ fs1 !! p = Some Directory.
Proof.
  unfold os_makedirs. destruct (bool_decide (name = "")); [done|].
  intros H p Hnone.
  destruct (makedirs_along_entries _ _ _ H p) as [->|(_ & -> & _)];
    [by left|by right].
Qed.


(** Once made, the directories are there: a second [os.makedirs] changes
    nothing. *)
Lemma makedirs_idem fs name fs1 :
  os_makedirs fs name = Ok fs1 → os_makedirs fs1 name = Ok fs1.
Proof.
  unfold os_makedirs. destruct (bool_decide (name = "")); [done|].
  intros H. apply makedirs_along_idem. by eapply makedirs_along_dirs.
Qed.

(** ** Insertion with deduplication *)

Lemma get_texts_spec (l : list memory_obj) (texts : list string) :
  get_texts l = Ok texts ↔ Forall2 (fun t m => m_text m = Some t) texts l.
Proof.
  revert texts. induction l as [|m l IH]; intros texts; simpl.
  - split; [intros [= <-]; constructor|].
    intros H. by apply Forall2_nil_inv_r in H as ->.
  - unfold get_text. destruct (m_text m) as [t|] eqn:Ht; simpl.
    + destruct (get_texts l) as [ts|e] eqn:Hts; simpl.
      * split.
        -- intros [= <-]. constructor; [done|]. by apply IH.
        -- intros H.
           apply Forall2_cons_inv_r in H as (t' & ts' & Ht' & Hrest & ->).
           apply IH in Hrest. congruence.
      * split; [done|]. intros H.
        apply Forall2_cons_inv_r in H as (t' & ts' & _ & Hrest & _).
        apply IH in Hrest. congruence.
    + split; [done|]. intros H.
      apply Forall2_cons_inv_r in H as (t' & ts' & Ht' & _). congruence.
Qed.

Lemma get_texts_Ok (l : list memory_obj) :
  Forall (fun m => is_Some (m_text m)) l →
  ∃ texts, get_texts l = Ok texts ∧ Forall2 embeds (encode <$> texts) l.
Proof.
  induction 1 as [|m l [t Ht] _ (texts & Hts & HF)]; simpl.
  - exists []. split; [done|constructor].
  - unfold get_text. rewrite Ht. simpl. rewrite Hts. simpl.
    exists (t :: texts). split; [done|]. constructor; [|done]. by exists t.
Qed.

Lemma texts_embeds (texts : list string) (l : list memory_obj) :
  Forall2 (fun t m => m_text m = Some t) texts l →
  Forall2 embeds (encode <$> texts) l.
Proof.
  induction 1 as [|t m texts l Ht _ IH]; [constructor|].
  rewrite fmap_cons. constructor; [by exists t|done].
Qed.

Lemma save_domain_set_eq mgr fs domain_name db :
  files_writable fs mgr domain_name →
  _save_domain (set_domain mgr domain_name db) fs domain_name
  = Ok (<[domain_meta_path mgr domain_name := MetaFile None (data db)]>
          (<[domain_index_path mgr domain_name := IndexFile (index db)]> fs)).
Proof.
  intros Hw. unfold _save_domain, lookup_key, set_domain. simpl.
  rewrite lookup_insert_eq. simpl.
  by apply (write_domain_files_Ok fs mgr).
Qed.

Lemma save_domain_set_inv mgr fs domain_name db fs' :
  _save_domain (set_domain mgr domain_name db) fs domain_name = Ok fs' →
  files_writable fs mgr domain_name
  ∧ fs' = <[domain_meta_path mgr domain_name := MetaFile None (data db)]>
            (<[domain_index_path mgr domain_name := IndexFile (index db)]> fs).
Proof.
  unfold _save_domain, lookup_key, set_domain. simpl.
  rewrite lookup_insert_eq. simpl.
  apply (write_domain_files_inv fs fs' mgr).
Qed.

Lemma save_domain_set_no_dir mgr fs domain_name db :
  is_dir fs (os_path_dirname (domain_index_path mgr domain_name)) = false →
  _save_domain (set_domain mgr domain_name db) fs domain_name
  = Raise RuntimeError.
Proof.
  intros Hdir. unfold _save_domain, lookup_key, set_domain. simpl.
  rewrite lookup_insert_eq. simpl.
  by apply (write_domain_files_no_dir fs mgr).
Qed.

Lemma save_frame mgr (fs : filesystem) domain_name (f g : file) (p : string) :
  p ≠ domain_index_path mgr domain_name →
  p ≠ domain_meta_path mgr domain_name →
  (<[domain_meta_path mgr domain_name := f]>
     (<[domain_index_path mgr domain_name := g]> fs)) !! p = fs !! p.
Proof. intros Hi Hm. by rewrite !lookup_insert_ne. Qed.

Lemma persisted_after_save mgr (fs : filesystem) domain_name db :
  persisted
    (<[domain_meta_path mgr domain_name := MetaFile None (data db)]>
       (<[domain_index_path mgr domain_name := IndexFile (index db)]> fs))
    mgr domain_name db.
Proof.
  split.
  - rewrite lookup_insert_ne; [by rewrite lookup_insert_eq|].
    intros Heq. by apply (domain_paths_distinct mgr domain_name).
  - by rewrite lookup_insert_eq.
Qed.

Lemma add_memory_append_ok mgr fs now domain_name db text importance mem_type :
  files_writable fs mgr domain_name →
  let db' := DomainDb (faiss.add [encode text] (index db))
                      (data db ++ [new_memory now text importance mem_type]) in
  add_memory_append mgr fs now domain_name db text importance mem_type
  = Ok (set_domain mgr domain_name db',
        <[domain_meta_path mgr domain_name := MetaFile None (data db')]>
          (<[domain_index_path mgr domain_name := IndexFile (index db')]> fs)).
Proof.
  intros Hw db'. unfold add_memory_append.
  fold db'. by rewrite save_domain_set_eq.
Qed.

Lemma add_memory_overwrite_ok mgr fs now domain_name db (j : nat) text
    importance mem_type :
  (j < length (data db))%nat →
  Forall (fun m => is_Some (m_text m)) (data db) →
  files_writable fs mgr domain_name →
  ∃ texts,
    let data' := <[j := new_memory now text importance mem_type]> (data db) in
    let db' := DomainDb (faiss.MkIndex faiss.METRIC_L2 (encode <$> texts)) data' in
    add_memory_overwrite mgr fs now domain_name db (Z.of_nat j) text importance mem_type
    = Ok (set_domain mgr domain_name db',
          <[domain_meta_path mgr domain_name := MetaFile None (data db')]>
            (<[domain_index_path mgr domain_name := IndexFile (index db')]> fs))
    ∧ Forall2 (fun t m => m_text m = Some t) texts data'.
Proof.
  intros Hj Htext Hw. unfold add_memory_overwrite.
  destruct (lookup_lt_is_Some_2 (data db) j Hj) as [old Hold].
  assert (Py.getitem (data db) (Z.of_nat j) = Ok old) as ->.
  { apply getitem_Ok; [lia|]. by rewrite Nat2Z.id. }
  simpl. rewrite Nat2Z.id.
  assert (is_Some (m_text old)) as [told Htold].
  { rewrite Forall_forall in Htext. apply Htext.
    by eapply list_elem_of_lookup_2. }
  unfold get_text at 1. rewrite Htold. simpl.
  destruct (get_texts_Ok (<[j := new_memory now text importance mem_type]> (data db)))
    as (texts & Hts & _).
  { apply Forall_insert; [done|]. by eexists. }
  rewrite Hts. simpl. exists texts.
  unfold faiss.add, faiss.IndexFlatL2. simpl.
  rewrite save_domain_set_eq by done. simpl.
  split; [done|]. by apply get_texts_spec.
Qed.

Lemma add_memory_present mgr fs now domain_name db text importance mem_type :
  databases mgr !! domain_name = Some db →
  add_memory mgr fs now domain_name text importance mem_type
  = if (0 <? faiss.ntotal (index db))%Z then
      match faiss.nearest (index db) (encode text) 1 with
      | (d, i) :: _ =>
          if negb (i =? -1)%Z && Qltb d IDENTITY_THRESHOLD then
            add_memory_overwrite mgr fs now domain_name db i text importance mem_type
          else
            add_memory_append mgr fs now domain_name db text importance mem_type
      | [] => Raise IndexError
      end
    else add_memory_append mgr fs now domain_name db text importance mem_type.
Proof.
  intros Hdb. unfold add_memory.
  rewrite bool_decide_eq_true_2 by (by eexists). simpl.
  unfold lookup_key. rewrite Hdb. simpl.
  by destruct (0 <? faiss.ntotal (index db))%Z.
Qed.

(** The outcome of [add_memory] on a loaded domain, when it succeeds. *)
Lemma add_memory_present_Ok mgr fs now domain_name db text importance mem_type
    mgr' fs' :
  databases mgr !! domain_name = Some db →
  add_memory mgr fs now domain_name text importance mem_type = Ok (mgr', fs') →
  ∃ db',
    mgr' = set_domain mgr domain_name db'
    ∧ fs' = <[domain_meta_path mgr domain_name := MetaFile None (data db')]>
              (<[domain_index_path mgr domain_name := IndexFile (index db')]> fs)
    ∧ files_writable fs mgr domain_name
    ∧ memory_step (encode text) (new_memory now text importance mem_type) db db'.
Proof.
  intros Hdb. rewrite (add_memory_present _ _ _ _ db) by done.
  assert (add_memory_append mgr fs now domain_name db text importance mem_type
          = Ok (mgr', fs') →
          ∃ db',
            mgr' = set_domain mgr domain_name db'
            ∧ fs' = <[domain_meta_path mgr domain_name := MetaFile None (data db')]>
                      (<[domain_index_path mgr domain_name := IndexFile (index db')]> fs)
            ∧ files_writable fs mgr domain_name
            ∧ memory_step (encode text) (new_memory now text importance mem_type)
                db db')
    as Happend.
  { unfold add_memory_append.
    destruct (_save_domain _ fs domain_name) as [fs1|e] eqn:Hsave; simpl; [|done].
    apply save_domain_set_inv in Hsave as [Hw ->].
    intros [= <- <-]. eexists. split; [done|]. split; [done|]. split; [done|].
    left. done. }
  destruct (0 <? faiss.ntotal (index db))%Z; [|done].
  destruct (faiss.nearest (index db) (encode text) 1) as [|[d i] rest] eqn:Hs;
    [done|].
  destruct (negb (i =? -1)%Z && Qltb d IDENTITY_THRESHOLD); [|done].
  assert ((d, i) ∈ faiss.nearest (index db) (encode text) 1) as Hin
    by (rewrite Hs; left).
  apply elem_of_nearest in Hin as (j & v & -> & _ & _).
  unfold add_memory_overwrite.
  destruct (Py.getitem (data db) (Z.of_nat j)) as [old|e] eqn:Hget; simpl;
    [|done].
  apply getitem_Ok in Hget; [|lia]. rewrite Nat2Z.id in *.
  destruct (get_text old); simpl; [|done].
  destruct (get_texts _) as [texts|e] eqn:Hts; simpl; [|done].
  destruct (_save_domain _ fs domain_name) as [fs1|e] eqn:Hsave; simpl; [|done].
  apply save_domain_set_inv in Hsave as [Hw ->].
  intros [= <- <-].
  eexists. split; [done|]. split; [done|]. split; [done|].
  right. exists j, texts. simpl.
  split; [by eapply lookup_lt_Some|]. split; [done|].
  split; [by apply get_texts_spec|done].
Qed.

Lemma memory_step_new v now text importance mem_type db db' :
  memory_step v (new_memory now text importance mem_type) db db' →
  new_memory now text importance mem_type ∈ data db'.
Proof.
  intros [[_ ->]|(i & texts & Hi & -> & _)].
  - apply elem_of_app. right. left.
  - eapply list_elem_of_lookup_2. by apply list_lookup_insert_eq.
Qed.

Lemma memory_step_count v new db db' :
  memory_step v new db db' →
  length (faiss.vectors (index db)) = length (data db) →
  length (faiss.vectors (index db')) = length (data db').
Proof.
  intros [[-> ->]|(i & texts & _ & _ & HF & ->)] Hlen; simpl.
  - rewrite !length_app, Hlen. done.
  - rewrite length_fmap. by apply Forall2_length in HF.
Qed.

Lemma memory_step_inv now text importance mem_type db db' :
  memory_step (encode text) (new_memory now text importance mem_type) db db' →
  store_inv db → store_inv db'.
Proof.
  unfold store_inv.
  intros [[-> ->]|(i & texts & _ & _ & HF & ->)] Hinv; simpl.
  - apply Forall2_app; [done|]. constructor; [|constructor]. by exists text.
  - by apply texts_embeds.
Qed.

Lemma memory_step_L2 v new db db' :
  memory_step v new db db' →
  faiss.metric_type (index db) = faiss.METRIC_L2 →
  faiss.metric_type (index db') = faiss.METRIC_L2.
Proof. by intros [[-> _]|(i & texts & _ & _ & _ & ->)]. Qed.

(** C2 (amended).  On a loaded store with an L2 index whose two files can
    be written.  When some stored vector lies at a distance below 1.0 of
    the embedding of the new text (the index holding no more vectors than
    there are records, and every record carrying a text), [add_memory]
    overwrites the record of a nearest neighbour in place with the new
    text, the clock reading, the importance and the type, keeps the
    record count, rebuilds the index from the texts of the updated
    metadata list and saves both files.  When every stored vector lies at
    distance 1.0 or more, or the store is empty, it appends a record with
    the new text, [timestamp = now], the importance and the type, the
    count grows by one, and both files are saved. *)
Theorem add_memory_dedup (mgr : VectorDBManager) (fs : filesystem) (now : Q)
  (domain_name text : string) (importance : Q) (mem_type : string)
  (db : domain_db) :
  databases mgr !! domain_name = Some db →
  faiss.metric_type (index db) = faiss.METRIC_L2 →
  files_writable fs mgr domain_name →
  let q := encode text in
  let new :=
    MemoryObj (Some text) (Some now) (Some importance) (Some mem_type) [] in
  ((length (faiss.vectors (index db)) <= length (data db))%nat →
   Forall (fun m => is_Some (m_text m)) (data db) →
   (∃ (j : nat) w, faiss.vectors (index db) !! j = Some w
                   ∧ (faiss.l2_sqr q w < 1)%Q) →
   ∃ (i : nat) v mgr' fs' db' texts,
     faiss.vectors (index db) !! i = Some v
     ∧ (faiss.l2_sqr q v < 1)%Q
     ∧ (∀ (j : nat) w, faiss.vectors (index db) !! j = Some w →
                       (faiss.l2_sqr q v <= faiss.l2_sqr q w)%Q)
     ∧ add_memory mgr fs now domain_name text importance mem_type = Ok (mgr', fs')
     ∧ databases mgr' !! domain_name = Some db'
     ∧ data db' = <[i := new]> (data db)
     ∧ data db' !! i = Some new
     ∧ length (data db') = length (data db)
     ∧ Forall2 (fun t m => m_text m = Some t) texts (data db')
     ∧ index db' = faiss.MkIndex faiss.METRIC_L2 (encode <$> texts)
     ∧ fs' !! domain_index_path mgr domain_name = Some (IndexFile (index db'))
     ∧ fs' !! domain_meta_path mgr domain_name
       = Some (MetaFile None (data db')))
  ∧ ((∀ (j : nat) w, faiss.vectors (index db) !! j = Some w →
                     (1 <= faiss.l2_sqr q w)%Q) →
     ∃ mgr' fs' db',
       add_memory mgr fs now domain_name text importance mem_type = Ok (mgr', fs')
       ∧ databases mgr' !! domain_name = Some db'
       ∧ data db' = data db ++ [new]
       ∧ length (data db') = S (length (data db))
       ∧ faiss.vectors (index db') = faiss.vectors (index db) ++ [q]
       ∧ faiss.metric_type (index db') = faiss.METRIC_L2
       ∧ fs' !! domain_index_path mgr domain_name = Some (IndexFile (index db'))
       ∧ fs' !! domain_meta_path mgr domain_name
         = Some (MetaFile None (data db'))).
Proof.
  intros Hdb Hmetric Hw q new.
  assert (1.0 == 1)%Q as Hone by reflexivity.
  split.
  - intros Hlen Htext (j0 & w0 & Hj0 & Hw0).
    assert (0 < faiss.ntotal (index db))%Z as Hn.
    { unfold faiss.ntotal. apply lookup_lt_Some in Hj0. lia. }
    destruct (nearest_nonempty (index db) q 1) as (d & i & rest & Hs); [lia|done|].
    assert ((d, i) ∈ faiss.nearest (index db) q 1) as Hin by (rewrite Hs; left).
    apply elem_of_nearest in Hin as (j & v & -> & Hj & ->).
    rewrite Hmetric in *. simpl in *.
    pose proof (nearest_head _ _ _ _ _ _ Hmetric Hs) as Hnear.
    assert (faiss.l2_sqr q v < 1)%Q as Hlt.
    { eapply Qle_lt_trans; [exact (Hnear j0 w0 Hj0)|done]. }
    assert (j < length (data db))%nat as Hjlen.
    { apply lookup_lt_Some in Hj. lia. }
    destruct (add_memory_overwrite_ok mgr fs now domain_name db j text
                importance mem_type Hjlen Htext Hw) as (texts & Hov & HF).
    eexists j, v, _, _, _, texts.
    split; [done|]. split; [done|]. split; [done|]. split.
    { rewrite (add_memory_present _ _ _ _ db) by done.
      destruct (Z.ltb_spec 0 (faiss.ntotal (index db))); [|lia].
      fold q. rewrite Hs.
      destruct (Z.eqb_spec (Z.of_nat j) (-1)); [lia|]. simpl.
      unfold Qltb.
      destruct (Qle_bool IDENTITY_THRESHOLD (faiss.l2_sqr q v)) eqn:E.
      { apply Qle_bool_iff in E. unfold IDENTITY_THRESHOLD in E. lra. }
      simpl. exact Hov. }
    split; [apply lookup_insert_eq|]. simpl.
    split; [done|]. split; [by apply list_lookup_insert_eq|].
    split; [apply length_insert|]. split; [done|]. split; [done|].
    apply (persisted_after_save mgr fs domain_name
             (DomainDb (faiss.MkIndex faiss.METRIC_L2 (encode <$> texts))
                (<[j := new]> (data db)))).
  - intros Hfar.
    pose proof (add_memory_append_ok mgr fs now domain_name db text importance
                  mem_type Hw) as Hap.
    eexists _, _, _. split.
    { rewrite (add_memory_present _ _ _ _ db) by done.
      destruct (Z.ltb_spec 0 (faiss.ntotal (index db))) as [Hn|Hn]; [|exact Hap].
      destruct (nearest_nonempty (index db) q 1) as (d & i & rest & Hs); [lia|done|].
      fold q. rewrite Hs.
      assert ((d, i) ∈ faiss.nearest (index db) q 1) as Hin by (rewrite Hs; left).
      apply elem_of_nearest in Hin as (j & v & -> & Hj & ->).
      rewrite Hmetric. simpl.
      assert (Qltb (faiss.l2_sqr q v) IDENTITY_THRESHOLD = false) as ->.
      { unfold Qltb. apply negb_false_iff, Qle_bool_iff.
        unfold IDENTITY_THRESHOLD. rewrite Hone. by eapply Hfar. }
      rewrite andb_false_r. exact Hap. }
    split; [apply lookup_insert_eq|]. simpl.
    split; [done|]. split; [rewrite length_app; simpl; lia|].
    split; [done|]. split; [done|].
    apply (persisted_after_save mgr fs domain_name
             (DomainDb (faiss.add [q] (index db)) (data db ++ [new]))).
Qed.

(** ** The store invariant *)

Lemma store_inv_length db :
  store_inv db → length (faiss.vectors (index db)) = length (data db).
Proof. apply Forall2_length. Qed.

Lemma store_inv_text db :
  store_inv db → Forall (fun m => is_Some (m_text m)) (data db).
Proof.
  unfold store_inv. generalize (faiss.vectors (index db)), (data db).
  induction 1 as [|v m vs ms (t & Ht & _) _ IH]; constructor; [by eexists|done].
Qed.

Lemma store_inv_lookup db i m :
  store_inv db → data db !! i = Some m →
  ∃ t, m_text m = Some t ∧ faiss.vectors (index db) !! i = Some (encode t).
Proof.
  intros Hinv Hm.
  destruct (Forall2_lookup_r _ _ _ _ _ Hinv Hm) as (v & Hv & t & Ht & ->).
  eauto.
Qed.

(** [_init_empty_domain] when a file of the domain is missing: the two
    writes, then the empty store. *)
Lemma init_empty_domain_create mgr fs domain_name :
  exists_path fs (domain_index_path mgr domain_name)
  && exists_path fs (domain_meta_path mgr domain_name) = false →
  _init_empty_domain mgr fs domain_name
  = (fs' ← (fs1 ← write_index fs (domain_index_path mgr domain_name)
                     faiss.IndexFlatL2;
            write_json fs1 (domain_meta_path mgr domain_name) (MetaFile None []));
     Ok (set_domain mgr domain_name (DomainDb faiss.IndexFlatL2 []), fs')).
Proof.
  intros H. unfold _init_empty_domain. rewrite H. simpl.
  by destruct (write_index fs _ _).
Qed.

Lemma init_empty_domain_absent mgr fs domain_name :
  exists_path fs (domain_index_path mgr domain_name)
  && exists_path fs (domain_meta_path mgr domain_name) = false →
  files_writable fs mgr domain_name →
  _init_empty_domain mgr fs domain_name
  = Ok (set_domain mgr domain_name (DomainDb faiss.IndexFlatL2 []),
        <[domain_meta_path mgr domain_name := MetaFile None []]>
          (<[domain_index_path mgr domain_name := IndexFile faiss.IndexFlatL2]> fs)).
Proof.
  intros H Hw. rewrite init_empty_domain_create by done.
  by rewrite write_domain_files_Ok.
Qed.

Lemma init_empty_domain_no_dir mgr fs domain_name :
  exists_path fs (domain_index_path mgr domain_name)
  && exists_path fs (domain_meta_path mgr domain_name) = false →
  is_dir fs (os_path_dirname (domain_index_path mgr domain_name)) = false →
  _init_empty_domain mgr fs domain_name = Raise RuntimeError.
Proof.
  intros H Hdir. rewrite init_empty_domain_create by done.
  by rewrite write_domain_files_no_dir.
Qed.

Lemma init_empty_domain_present mgr fs domain_name ix t d :
  fs !! domain_index_path mgr domain_name = Some (IndexFile ix) →
  fs !! domain_meta_path mgr domain_name = Some (MetaFile t d) →
  _init_empty_domain mgr fs domain_name
  = Ok (set_domain mgr domain_name (DomainDb ix d), fs).
Proof.
  intros Hi Hm. unfold _init_empty_domain, exists_path, read_meta, read_index.
  rewrite Hi, Hm.
  rewrite !bool_decide_eq_true_2 by (by eexists). done.
Qed.

(** The outcome of [_init_empty_domain], when it succeeds: the store its
    two files hold, or the empty store and the two files written. *)
Lemma init_empty_domain_Ok mgr fs domain_name mgr0 fs0 :
  _init_empty_domain mgr fs domain_name = Ok (mgr0, fs0) →
  (∃ ix t d,
     fs !! domain_index_path mgr domain_name = Some (IndexFile ix)
     ∧ fs !! domain_meta_path mgr domain_name = Some (MetaFile t d)
     ∧ mgr0 = set_domain mgr domain_name (DomainDb ix d)
     ∧ fs0 = fs)
  ∨ (exists_path fs (domain_index_path mgr domain_name)
     && exists_path fs (domain_meta_path mgr domain_name) = false
     ∧ files_writable fs mgr domain_name
     ∧ mgr0 = set_domain mgr domain_name (DomainDb faiss.IndexFlatL2 [])
     ∧ fs0 = <[domain_meta_path mgr domain_name := MetaFile None []]>
               (<[domain_index_path mgr domain_name := IndexFile faiss.IndexFlatL2]>
                  fs)).
Proof.
  destruct (exists_path fs (domain_index_path mgr domain_name)
            && exists_path fs (domain_meta_path mgr domain_name)) eqn:Hex.
  - unfold _init_empty_domain. rewrite Hex.
    unfold read_meta, read_index.
    destruct (fs !! domain_meta_path mgr domain_name) as [[| t d | |]|] eqn:Hm;
      simpl; try done.
    destruct (fs !! domain_index_path mgr domain_name) as [[ix| | |]|] eqn:Hi;
      simpl; try done.
    intros [= <- <-]. left. by exists ix, t, d.
  - rewrite init_empty_domain_create by done.
    destruct (write_index fs _ _ ≫= _) as [fs'|e] eqn:Hwrite; simpl; [|done].
    apply write_domain_files_inv in Hwrite as [Hw ->].
    intros [= <- <-]. right. done.
Qed.

Lemma add_memory_absent mgr fs now domain_name text importance mem_type :
  databases mgr !! domain_name = None →
  add_memory mgr fs now domain_name text importance mem_type
  = st ← _init_empty_domain mgr fs domain_name;
    add_memory st.1 st.2 now domain_name text importance mem_type.
Proof.
  intros Hnone. unfold add_memory at 1.
  rewrite bool_decide_eq_false_2 by (rewrite Hnone; by intros [? ?]).
  destruct (_init_empty_domain mgr fs domain_name) as [[mgr1 fs1]|e] eqn:Hinit;
    simpl; [|done].
  assert (is_Some (databases mgr1 !! domain_name)) as Hsome.
  { apply init_empty_domain_Ok in Hinit
      as [(ix & t & d & _ & _ & -> & _)|(_ & _ & -> & _)];
      simpl; rewrite lookup_insert_eq; by eexists. }
  unfold add_memory. by rewrite bool_decide_eq_true_2.
Qed.

(** The outcome of [add_memory], when it succeeds: one step on the store
    it found, loaded, read from the two files or created empty. *)
Lemma add_memory_Ok_step mgr fs now domain_name text importance mem_type
    mgr' fs' :
  add_memory mgr fs now domain_name text importance mem_type = Ok (mgr', fs') →
  ∃ db db',
    databases mgr' !! domain_name = Some db'
    ∧ index_dir mgr' = index_dir mgr
    ∧ memory_step (encode text) (new_memory now text importance mem_type) db db'
    ∧ persisted fs' mgr' domain_name db'
    ∧ files_writable fs' mgr' domain_name
    ∧ (databases mgr !! domain_name = Some db
       ∨ databases mgr !! domain_name = None
         ∧ (db = DomainDb faiss.IndexFlatL2 []
            ∨ ∃ t, fs !! domain_index_path mgr domain_name
                   = Some (IndexFile (index db))
                   ∧ fs !! domain_meta_path mgr domain_name
                     = Some (MetaFile t (data db)))).
Proof.
  destruct (databases mgr !! domain_name) as [db|] eqn:Hdb.
  - intros Hadd.
    destruct (add_memory_present_Ok _ _ _ _ _ _ _ _ _ _ Hdb Hadd)
      as (db' & -> & -> & Hw & Hstep).
    exists db, db'. split; [apply lookup_insert_eq|]. split; [done|].
    split; [done|]. split; [apply (persisted_after_save mgr)|].
    split; [by apply (files_writable_written fs mgr)|]. by left.
  - rewrite add_memory_absent by done.
    destruct (_init_empty_domain mgr fs domain_name) as [[mgr0 fs0]|e] eqn:Hinit;
      simpl; [|done].
    intros Hadd.
    apply init_empty_domain_Ok in Hinit
      as [(ix & t & d & Hi & Hm & -> & ->)|(_ & Hw0 & -> & ->)].
    + destruct (add_memory_present_Ok (set_domain mgr domain_name (DomainDb ix d))
                  fs now domain_name (DomainDb ix d) text importance mem_type
                  mgr' fs') as (db' & -> & -> & Hw & Hstep);
        [apply lookup_insert_eq|done|].
      exists (DomainDb ix d), db'. split; [apply lookup_insert_eq|].
      split; [done|]. split; [done|].
      split; [apply (persisted_after_save mgr)|].
      split; [by apply (files_writable_written fs mgr)|].
      right. split; [done|]. right. by exists t.
    + destruct (add_memory_present_Ok
                  (set_domain mgr domain_name (DomainDb faiss.IndexFlatL2 []))
                  (<[domain_meta_path mgr domain_name := MetaFile None []]>
                     (<[domain_index_path mgr domain_name
                        := IndexFile faiss.IndexFlatL2]> fs))
                  now domain_name (DomainDb faiss.IndexFlatL2 []) text importance
                  mem_type mgr' fs') as (db' & -> & -> & Hw & Hstep);
        [apply lookup_insert_eq|done|].
      exists (DomainDb faiss.IndexFlatL2 []), db'.
      split; [apply lookup_insert_eq|]. split; [done|]. split; [done|].
      split; [apply (persisted_after_save mgr)|].
      split; [by apply (files_writable_written _ mgr)|].
      right. split; [done|]. by left.
Qed.

Lemma add_memory_Ok mgr fs now domain_name text importance mem_type mgr' fs' :
  add_memory mgr fs now domain_name text importance mem_type = Ok (mgr', fs') →
  index_dir mgr' = index_dir mgr
  ∧ (∀ other, other ≠ domain_name →
              databases mgr' !! other = databases mgr !! other)
  ∧ (∀ p, p ≠ domain_index_path mgr domain_name →
          p ≠ domain_meta_path mgr domain_name → fs' !! p = fs !! p)
  ∧ ∃ db', databases mgr' !! domain_name = Some db'
           ∧ new_memory now text importance mem_type ∈ data db'
           ∧ persisted fs' mgr' domain_name db'.
Proof.
  intros Hadd.
  destruct (add_memory_Ok_step _ _ _ _ _ _ _ _ _ Hadd)
    as (db & db' & Hdb' & Hdir & Hstep & Hp & _ & _).
  split; [done|].
  assert ((∀ other, other ≠ domain_name →
                    databases mgr' !! other = databases mgr !! other)
          ∧ (∀ p, p ≠ domain_index_path mgr domain_name →
                  p ≠ domain_meta_path mgr domain_name → fs' !! p = fs !! p))
    as [Hdbs Hfiles].
  { clear db db' Hdb' Hdir Hstep Hp.
    destruct (databases mgr !! domain_name) as [db|] eqn:Hdb.
    - destruct (add_memory_present_Ok _ _ _ _ _ _ _ _ _ _ Hdb Hadd)
        as (db' & -> & -> & _ & _).
      split.
      + intros other Hne. simpl. by rewrite lookup_insert_ne.
      + intros p Hi Hm. by apply save_frame.
    - rewrite add_memory_absent in Hadd by done.
      destruct (_init_empty_domain mgr fs domain_name) as [[mgr0 fs0]|e]
        eqn:Hinit; simpl in Hadd; [|done].
      assert (∃ db0, mgr0 = set_domain mgr domain_name db0
                     ∧ ∀ p, p ≠ domain_index_path mgr domain_name →
                            p ≠ domain_meta_path mgr domain_name →
                            fs0 !! p = fs !! p) as (db0 & -> & Hframe0).
      { apply init_empty_domain_Ok in Hinit
          as [(ix & t & d & _ & _ & -> & ->)|(_ & _ & -> & ->)].
        - by eexists.
        - eexists. split; [done|]. intros p Hi Hm. by apply save_frame. }
      destruct (add_memory_present_Ok (set_domain mgr domain_name db0) fs0 now
                  domain_name db0 text importance mem_type mgr' fs')
        as (db' & -> & -> & _ & _); [apply lookup_insert_eq|done|].
      split.
      + intros other Hne. simpl. by rewrite !lookup_insert_ne.
      + intros p Hi Hm.
        change (domain_index_path (set_domain mgr domain_name db0) domain_name)
          with (domain_index_path mgr domain_name).
        change (domain_meta_path (set_domain mgr domain_name db0) domain_name)
          with (domain_meta_path mgr domain_name).
        rewrite save_frame by done. by apply Hframe0. }
  split; [done|]. split; [done|].
  exists db'. split; [done|]. split; [by eapply memory_step_new|done].
Qed.

Lemma add_memory_preserves_inv mgr fs now domain_name db text importance mem_type :
  databases mgr !! domain_name = Some db →
  store_inv db →
  files_writable fs mgr domain_name →
  ∃ mgr' fs' db',
    add_memory mgr fs now domain_name text importance mem_type = Ok (mgr', fs')
    ∧ databases mgr' !! domain_name = Some db'
    ∧ store_inv db'
    ∧ new_memory now text importance mem_type ∈ data db'
    ∧ persisted fs' mgr' domain_name db'
    ∧ files_writable fs' mgr' domain_name.
Proof.
  intros Hdb Hinv Hw.
  pose proof (store_inv_length _ Hinv) as Hlen.
  pose proof (store_inv_text _ Hinv) as Htext.
  assert (∃ mgr' fs',
            add_memory mgr fs now domain_name text importance mem_type
            = Ok (mgr', fs')) as (mgr' & fs' & Hadd).
  { rewrite (add_memory_present _ _ _ _ db) by done.
    pose proof (add_memory_append_ok mgr fs now domain_name db text importance
                  mem_type Hw) as Hap.
    destruct (Z.ltb_spec 0 (faiss.ntotal (index db))) as [Hn|Hn]; [|by eauto].
    destruct (nearest_nonempty (index db) (encode text) 1) as (d & i & rest & Hs);
      [lia|done|].
    rewrite Hs.
    destruct (negb (i =? -1)%Z && Qltb d IDENTITY_THRESHOLD); [|by eauto].
    assert ((d, i) ∈ faiss.nearest (index db) (encode text) 1) as Hin
      by (rewrite Hs; left).
    apply elem_of_nearest in Hin as (j & v & -> & Hj & _).
    assert (j < length (data db))%nat as Hjlen.
    { apply lookup_lt_Some in Hj. lia. }
    destruct (add_memory_overwrite_ok mgr fs now domain_name db j text
                importance mem_type Hjlen Htext Hw) as (texts & Hov & _).
    by eauto. }
  exists mgr', fs'.
  destruct (add_memory_Ok_step _ _ _ _ _ _ _ _ _ Hadd)
    as (db0 & db' & Hdb' & _ & Hstep & Hp & Hw' & [Hdb0|[Hnone _]]);
    [|congruence].
  assert (db0 = db) as -> by congruence.
  exists db'. split; [done|]. split; [done|].
  split; [by eapply memory_step_inv|].
  split; [by eapply memory_step_new|]. done.
Qed.

Lemma add_memory_ready mgr fs now domain_name text importance mem_type :
  domain_ready mgr fs domain_name →
  files_writable fs mgr domain_name →
  ∃ mgr' fs' db',
    add_memory mgr fs now domain_name text importance mem_type = Ok (mgr', fs')
    ∧ databases mgr' !! domain_name = Some db'
    ∧ store_inv db'
    ∧ new_memory now text importance mem_type ∈ data db'
    ∧ persisted fs' mgr' domain_name db'
    ∧ files_writable fs' mgr' domain_name.
Proof.
  unfold domain_ready.
  destruct (databases mgr !! domain_name) as [db|] eqn:Hdb.
  - by apply add_memory_preserves_inv.
  - intros Hready Hw. rewrite add_memory_absent by done.
    destruct Hready as [Habs|(ix & t & d & Hi & Hm & Hinv)].
    + rewrite init_empty_domain_absent by done. simpl.
      eapply add_memory_preserves_inv; [apply lookup_insert_eq|constructor|].
      by apply (files_writable_written fs mgr).
    + rewrite (init_empty_domain_present _ _ _ ix t d) by done. simpl.
      eapply add_memory_preserves_inv; [apply lookup_insert_eq|done|done].
Qed.

(** A property of stores that the empty store has and that every step of
    [add_memory] keeps holds after every sequence of calls that
    completes, when the store the sequence starts from has it. *)
Lemma add_memories_Ok (P : domain_db → Prop) mgr fs domain_name calls mgr' fs' db' :
  P (DomainDb faiss.IndexFlatL2 []) →
  (∀ now text importance mem_type db db',
     memory_step (encode text) (new_memory now text importance mem_type) db db' →
     P db → P db') →
  add_memories mgr fs domain_name calls = Ok (mgr', fs') →
  store_before P mgr fs domain_name →
  databases mgr' !! domain_name = Some db' →
  P db'.
Proof.
  intros Hempty Hstep. revert mgr fs.
  induction calls as [|c calls IH]; intros mgr fs; simpl.
  - intros [= <- <-] Hbefore Hdb'. unfold store_before in Hbefore.
    by rewrite Hdb' in Hbefore.
  - destruct (add_memory mgr fs _ _ _ _ _) as [[mgr1 fs1]|e] eqn:Hadd;
      simpl; [|done].
    intros Hrun Hbefore. apply (IH mgr1 fs1 Hrun).
    destruct (add_memory_Ok_step _ _ _ _ _ _ _ _ _ Hadd)
      as (db & db1 & Hdb1 & _ & Hs & _ & _ & Hfrom).
    unfold store_before. rewrite Hdb1.
    apply (Hstep _ _ _ _ _ _ Hs).
    unfold store_before in Hbefore.
    destruct Hfrom as [Hdb|[Hnone [->|[t [Hi Hm]]]]].
    + by rewrite Hdb in Hbefore.
    + done.
    + rewrite Hnone in Hbefore. destruct db as [ix d]. simpl in *.
      by apply (Hbefore ix t d).
Qed.

(** C3 (amended).  After a finite sequence of [add_memory] calls on a
    domain has completed: the index holds as many vectors as the metadata
    list holds records, when that was so for the store the sequence
    started from (the loaded store or, for a domain that was not loaded,
    the store its two files held); and the vector at each position is the
    embedding of the text of the record at that position, when that was
    so for the store the sequence started from.  From a store of the
    second kind, or a domain without files, whose two files can be
    written, every sequence completes. *)
Theorem add_memories_invariant (mgr : VectorDBManager) (fs : filesystem)
  (domain_name : string) (calls : list memory_call) :
  (∀ mgr' fs' db',
     add_memories mgr fs domain_name calls = Ok (mgr', fs') →
     databases mgr' !! domain_name = Some db' →
     store_before
       (fun db => length (faiss.vectors (index db)) = length (data db))
       mgr fs domain_name →
     faiss.ntotal (index db') = Z.of_nat (length (data db')))
  ∧ (∀ mgr' fs' db',
       add_memories mgr fs domain_name calls = Ok (mgr', fs') →
       databases mgr' !! domain_name = Some db' →
       store_before
         (fun db => Forall2 (fun v m => ∃ t, m_text m = Some t ∧ v = encode t)
                      (faiss.vectors (index db)) (data db))
         mgr fs domain_name →
       ∀ (i : nat) m, data db' !! i = Some m →
         ∃ t, m_text m = Some t
              ∧ faiss.vectors (index db') !! i = Some (encode t))
  ∧ (domain_ready mgr fs domain_name →
     files_writable fs mgr domain_name →
     ∃ mgr' fs',
       add_memories mgr fs domain_name calls = Ok (mgr', fs')
       ∧ (calls ≠ [] → is_Some (databases mgr' !! domain_name))).
Proof.
  split; [|split].
  - intros mgr' fs' db' Hrun Hdb' Hbefore. unfold faiss.ntotal. f_equal.
    apply (add_memories_Ok
             (fun db => length (faiss.vectors (index db)) = length (data db))
             mgr fs domain_name calls mgr' fs' db'); try done.
    intros now text importance mem_type db db1 Hstep.
    by eapply memory_step_count.
  - intros mgr' fs' db' Hrun Hdb' Hbefore i m Hm.
    apply (store_inv_lookup db'); [|done].
    apply (add_memories_Ok store_inv mgr fs domain_name calls mgr' fs' db');
      try done.
    + constructor.
    + intros now text importance mem_type db db1 Hstep.
      by eapply memory_step_inv.
  - revert mgr fs. induction calls as [|c calls IH]; intros mgr fs Hready Hw;
      simpl.
    + exists mgr, fs. by split.
    + destruct (add_memory_ready mgr fs (call_now c) domain_name (call_text c)
                  (call_importance c) (call_type c) Hready Hw)
        as (mgr1 & fs1 & db1 & Hadd & Hdb1 & Hinv1 & _ & _ & Hw1).
      rewrite Hadd. simpl.
      destruct (IH mgr1 fs1) as (mgr' & fs' & Hrun & Hsome).
      { unfold domain_ready. by rewrite Hdb1. }
      { done. }
      exists mgr', fs'. split; [done|].
      intros _. destruct calls as [|c' calls'].
      * simpl in Hrun. injection Hrun as <- <-. by eexists.
      * by apply Hsome.
Qed.

(** C10 (amended).  [add_memory] on a domain that is not in the collection
    runs [_init_empty_domain] for that name and then inserts as usual.
    When one of the two files of the domain is missing and the files can
    be written, the domain is created empty and written to disk, and
    afterwards it holds exactly the new record; when the directory that is
    to hold the files does not exist, as for a name with a path separator,
    the call raises [RuntimeError].  When the two files hold a store
    (with no more vectors than records, each record with a text) and can
    be written, that store is loaded and afterwards it contains the new
    record.  In the cases where the call succeeds the domain is in the
    collection and on disk. *)
Theorem add_memory_unknown_domain (mgr : VectorDBManager) (fs : filesystem)
  (now : Q) (domain_name text : string) (importance : Q) (mem_type : string) :
  databases mgr !! domain_name = None →
  let new :=
    MemoryObj (Some text) (Some now) (Some importance) (Some mem_type) [] in
  add_memory mgr fs now domain_name text importance mem_type
  = (st ← _init_empty_domain mgr fs domain_name;
     add_memory st.1 st.2 now domain_name text importance mem_type)
  ∧ (exists_path fs (domain_index_path mgr domain_name)
     && exists_path fs (domain_meta_path mgr domain_name) = false →
     (files_writable fs mgr domain_name →
      ∃ mgr0 fs0 mgr' fs' db',
        _init_empty_domain mgr fs domain_name = Ok (mgr0, fs0)
        ∧ databases mgr0 !! domain_name = Some (DomainDb faiss.IndexFlatL2 [])
        ∧ fs0 !! domain_index_path mgr domain_name
          = Some (IndexFile faiss.IndexFlatL2)
        ∧ fs0 !! domain_meta_path mgr domain_name = Some (MetaFile None [])
        ∧ add_memory mgr fs now domain_name text importance mem_type
          = Ok (mgr', fs')
        ∧ databases mgr' !! domain_name = Some db'
        ∧ data db' = [new]
        ∧ faiss.vectors (index db') = [encode text]
        ∧ faiss.ntotal (index db') = 1%Z
        ∧ fs' !! domain_index_path mgr domain_name = Some (IndexFile (index db'))
        ∧ fs' !! domain_meta_path mgr domain_name
          = Some (MetaFile None (data db')))
     ∧ (is_dir fs (os_path_dirname (domain_index_path mgr domain_name)) = false →
        add_memory mgr fs now domain_name text importance mem_type
        = Raise RuntimeError))
  ∧ (∀ ix t d,
       fs !! domain_index_path mgr domain_name = Some (IndexFile ix) →
       fs !! domain_meta_path mgr domain_name = Some (MetaFile t d) →
       Forall2 (fun v m => ∃ t, m_text m = Some t ∧ v = encode t)
         (faiss.vectors ix) d →
       files_writable fs mgr domain_name →
       ∃ mgr' fs' db',
         add_memory mgr fs now domain_name text importance mem_type = Ok (mgr', fs')
         ∧ databases mgr' !! domain_name = Some db'
         ∧ new ∈ data db'
         ∧ fs' !! domain_index_path mgr domain_name = Some (IndexFile (index db'))
         ∧ fs' !! domain_meta_path mgr domain_name
           = Some (MetaFile None (data db'))).
Proof.
  intros Hnone new. split; [by apply add_memory_absent|]. split.
  - intros Habs. split.
    + intros Hw. rewrite add_memory_absent by done.
      rewrite init_empty_domain_absent by done. simpl.
      set (mgr0 := set_domain mgr domain_name (DomainDb faiss.IndexFlatL2 [])).
      set (fs0 := <[domain_meta_path mgr domain_name := MetaFile None []]>
                    (<[domain_index_path mgr domain_name
                       := IndexFile faiss.IndexFlatL2]> fs)).
      rewrite (add_memory_present mgr0 _ _ _ (DomainDb faiss.IndexFlatL2 []))
        by apply lookup_insert_eq.
      simpl.
      assert (files_writable fs0 mgr0 domain_name) as Hw0
        by (by apply (files_writable_written fs mgr)).
      pose proof (add_memory_append_ok mgr0 fs0 now domain_name
                    (DomainDb faiss.IndexFlatL2 []) text importance mem_type Hw0)
        as Hap.
      pose proof (persisted_after_save mgr fs domain_name
                    (DomainDb faiss.IndexFlatL2 [])) as [Hi0 Hm0].
      eexists mgr0, fs0, _, _, _. split; [done|].
      split; [apply lookup_insert_eq|]. split; [exact Hi0|]. split; [exact Hm0|].
      split; [exact Hap|]. split; [apply lookup_insert_eq|]. simpl.
      split; [done|]. split; [done|]. split; [done|].
      apply (persisted_after_save mgr fs0 domain_name
               (DomainDb (faiss.add [encode text] faiss.IndexFlatL2) [new])).
    + intros Hdir. rewrite add_memory_absent by done.
      by rewrite init_empty_domain_no_dir.
  - intros ix t d Hi Hm Hinv Hw.
    destruct (add_memory_ready mgr fs now domain_name text importance mem_type)
      as (mgr' & fs' & db' & Hadd & Hdb' & _ & Hnew & [Hpi Hpm] & _).
    { unfold domain_ready. rewrite Hnone. right. by exists ix, t, d. }
    { done. }
    exists mgr', fs', db'. split; [done|]. split; [done|]. split; [done|].
    destruct (add_memory_Ok _ _ _ _ _ _ _ _ _ Hadd) as (Hdir & _).
    unfold domain_index_path, domain_meta_path in *. rewrite Hdir in *.
    by split.
Qed.

(** C8 (amended).  Loading a memory domain when its index file or its
    metadata file is missing gives the domain an empty store (no record,
    no vector) and writes both files, provided they can be written; it
    raises [RuntimeError] when the directory that is to hold them does not
    exist.  Building the quote manager when the quote corpus file is
    missing raises an error and builds nothing: [FileNotFoundError] for
    the corpus, unless making the directory of the index has failed
    before. *)
Theorem missing_files (fs : filesystem) :
  (∀ (mgr : VectorDBManager) (domain_name : string),
     fs !! domain_index_path mgr domain_name = None
     ∨ fs !! domain_meta_path mgr domain_name = None →
     (files_writable fs mgr domain_name →
      ∃ mgr' fs' db,
        _init_empty_domain mgr fs domain_name = Ok (mgr', fs')
        ∧ databases mgr' !! domain_name = Some db
        ∧ data db = []
        ∧ faiss.vectors (index db) = []
        ∧ faiss.ntotal (index db) = 0%Z
        ∧ fs' !! domain_index_path mgr domain_name = Some (IndexFile (index db))
        ∧ fs' !! domain_meta_path mgr domain_name = Some (MetaFile None []))
     ∧ (is_dir fs (os_path_dirname (domain_index_path mgr domain_name)) = false →
        _init_empty_domain mgr fs domain_name = Raise RuntimeError))
  ∧ (∀ json_path index_path : string,
       fs !! json_path = None →
       (∃ e, _load_or_build fs json_path index_path = Raise e)
       ∧ (∀ fs1, os_makedirs fs (os_path_dirname index_path) = Ok fs1 →
                 fs1 !! json_path = None →
                 _load_or_build fs json_path index_path
                 = Raise FileNotFoundError)).
Proof.
  split.
  - intros mgr domain_name Hmiss.
    assert (exists_path fs (domain_index_path mgr domain_name)
            && exists_path fs (domain_meta_path mgr domain_name) = false) as Habs.
    { unfold exists_path. apply andb_false_iff.
      destruct Hmiss as [H|H]; [left|right]; rewrite H;
        apply bool_decide_eq_false_2; by intros [? ?]. }
    split.
    + intros Hw. rewrite init_empty_domain_absent by done.
      pose proof (persisted_after_save mgr fs domain_name
                    (DomainDb faiss.IndexFlatL2 [])) as [Hi0 Hm0].
      eexists _, _, _. split; [done|]. split; [apply lookup_insert_eq|].
      simpl. split; [done|]. split; [done|]. split; [done|]. by split.
    + intros Hdir. by apply init_empty_domain_no_dir.
  - intros json_path index_path Hnone.
    assert (∀ fs1, os_makedirs fs (os_path_dirname index_path) = Ok fs1 →
                   fs1 !! json_path = None →
                   _load_or_build fs json_path index_path
                   = Raise FileNotFoundError) as Hmissing.
    { intros fs1 Hmk Hnone1. unfold _load_or_build. rewrite Hmk. simpl.
      unfold exists_path. rewrite Hnone1.
      by rewrite bool_decide_eq_false_2 by (by intros [? ?]). }
    split; [|done].
    unfold _load_or_build.
    destruct (os_makedirs fs (os_path_dirname index_path)) as [fs1|e] eqn:Hmk;
      simpl; [|by eexists].
    unfold exists_path, read_quotes.
    destruct (fs1 !! json_path) as [f|] eqn:Hj.
    + rewrite bool_decide_eq_true_2 by (by eexists). simpl.
      pose proof (makedirs_new_entries _ _ _ Hmk json_path Hnone) as Hnew.
      rewrite Hj in Hnew. destruct Hnew as [[=]|[= ->]]. simpl. by eexists.
    + rewrite bool_decide_eq_false_2 by (by intros [? ?]). by eexists.
Qed.

(** ** The quote scorer *)




Lemma score_quotes_Forall2 self query_unit used_indices hits results :
  score_quotes self query_unit used_indices hits = Ok results →
  Forall2 (fun hit r =>
             ∃ q, Py.getitem (quotes self) hit.2 = Ok q
                  ∧ r = result_of self query_unit hit q)
          (filter (fun hit => eligible used_indices hit) hits) results.
Proof.
  revert results. induction hits as [|[c i] hits IH]; intros results; simpl.
  - intros [= <-]. constructor.
  - destruct ((i =? -1)%Z || bool_decide (i ∈ used_indices)) eqn:Eskip.
    { rewrite filter_cons_False; [apply IH|].
      unfold eligible. simpl. rewrite Eskip. by intros []. }
    rewrite filter_cons_True by (unfold eligible; simpl; by rewrite Eskip).
    destruct (Py.getitem (quotes self) i) as [q|e] eqn:Hget; simpl; [|done].
    destruct (score_quotes self query_unit used_indices hits) as [rest|e];
      simpl; [|done].
    intros [= <-]. constructor; [|by apply IH]. by exists q.
Qed.


Lemma eligible_spec used_indices hit :
  eligible used_indices hit = true → hit.2 ≠ (-1)%Z ∧ hit.2 ∉ used_indices.
Proof.
  unfold eligible. rewrite negb_true_iff, orb_false_iff.
  intros [H1 H2]. split.
  - by apply Z.eqb_neq.
  - by apply bool_decide_eq_false in H2.
Qed.

Lemma StronglySorted_take {A} (R : A → A → Prop) (n : nat) (l : list A) :
  StronglySorted R l → StronglySorted R (take n l).
Proof.
  intros Hs. rewrite <- (take_drop n l) in Hs.
  by apply StronglySorted_app_1_l in Hs.
Qed.

(** Every entry [search_quote] returns is the recorded entry of a hit that
    is not excluded, whatever the state of the manager. *)
Lemma search_quote_entries self query top_k used_indices results ix :
  quote_index self = Some ix →
  search_quote self query top_k used_indices = Ok results →
  StronglySorted (fun a b => (r_composite b <= r_composite a)%Q) results
  ∧ (Z.of_nat (length results) <= Z.max 0 top_k)%Z
  ∧ ∀ r, r ∈ results →
      (r_index r ∉ used_indices)
      ∧ ∃ c q, (c, r_index r) ∈ faiss.nearest ix (normalize_L2 (encode query))
                                   (Z.min (top_k * 4) (faiss.ntotal ix))
               ∧ Py.getitem (quotes self) (r_index r) = Ok q
               ∧ r = result_of self (normalize_L2 (encode query)) (c, r_index r) q.
Proof.
  intros Hix. unfold search_quote. rewrite Hix.
  destruct (faiss.search _ _ _) as [hits|e] eqn:Hsearch; simpl; [|done].
  apply search_Ok_inv in Hsearch as [_ ->].
  destruct (score_quotes _ _ _ _) as [scored|e] eqn:Hsc; simpl; [|done].
  intros [= <-]. split; [|split].
  - apply StronglySorted_take, (sort_desc_sorted r_composite).
  - rewrite length_take. lia.
  - intros r Hr%subseteq_take. rewrite sort_desc_perm in Hr.
    destruct (Forall2_elem_r _ _ _ _ (score_quotes_Forall2 _ _ _ _ _ Hsc) Hr)
      as ([c i] & Hin & q & Hget & ->).
    apply list_elem_of_filter in Hin as [Hel Hin].
    apply Is_true_true, eligible_spec in Hel as [_ Hnot].
    split; [done|]. by exists c, q.
Qed.


(** With nothing to fetch, the index refuses the search. *)
Lemma search_quote_nothing_to_fetch self query top_k used_indices ix :
  quote_index self = Some ix →
  (Z.min (top_k * 4) (faiss.ntotal ix) <= 0)%Z →
  search_quote self query top_k used_indices = Raise AssertionError.
Proof.
  intros Hix Hk. unfold search_quote. rewrite Hix.
  by rewrite search_refused.
Qed.



Lemma load_or_build_built fs fs1 json_path index_path qs :
  os_makedirs fs (os_path_dirname index_path) = Ok fs1 →
  fs1 !! json_path = Some (QuotesFile qs) →
  fs1 !! index_path = None →
  can_write fs1 index_path = true →
  qs ≠ [] →
  ∃ self fs', _load_or_build fs json_path index_path = Ok (self, fs')
              ∧ quotes self = qs ∧ quote_db_built self.
Proof.
  intros Hmk Hj Hi Hw Hqs. unfold _load_or_build. rewrite Hmk. simpl.
  unfold exists_path, read_quotes, write_index.
  rewrite Hj, Hi, Hw.
  rewrite bool_decide_eq_true_2 by (by eexists).
  rewrite bool_decide_eq_false_2 by (by intros [? ?]). simpl.
  destruct qs as [|q qs]; [done|]. simpl. eexists _, _.
  split; [reflexivity|]. split; [done|].
  unfold quote_db_built, faiss.add. simpl. by rewrite <- list_fmap_compose.
Qed.

(** ** The short-query gate *)

Lemma isspace_lower_char c : Py.isspace (Py.lower_char c) = Py.isspace c.
Proof. by destruct c as [[] [] [] [] [] [] [] []]. Qed.

Lemma split_from_lower_length cur cur' s :
  (cur = [] ↔ cur' = []) →
  length (Py.split_from cur (Py.lower s)) = length (Py.split_from cur' s).
Proof.
  revert cur cur'. induction s as [|c s IH]; intros cur cur' Hcur; simpl.
  - destruct cur, cur'; try done; exfalso; destruct Hcur as [H1 H2];
      first [by specialize (H1 eq_refl)|by specialize (H2 eq_refl)].
  - rewrite isspace_lower_char. destruct (Py.isspace c).
    + destruct cur, cur'; simpl.
      * by apply IH.
      * exfalso. destruct Hcur as [H1 H2]. by specialize (H1 eq_refl).
      * exfalso. destruct Hcur as [H1 H2]. by specialize (H2 eq_refl).
      * f_equal. by apply IH.
    + apply IH. split; discriminate.
Qed.

Lemma split_lower_length s :
  length (Py.split (Py.lower s)) = length (Py.split s).
Proof. by apply split_from_lower_length. Qed.

(** C5 (amended).  The gate on short queries is in the quote stage of the
    pipeline: for every pipeline object and every turn whose query has
    fewer than 4 whitespace-delimited tokens, [_node_retrieve_quote]
    selects no quote and leaves the pipeline object, and so the ring of
    recently used positions, as it was, whatever the quote manager
    holds. *)
Theorem short_query_gate (self : CinematicPipeline) (state : GraphState) :
  (length (Py.split (user_query state)) < 4)%nat →
  _node_retrieve_quote self state = Ok (self, set_selected_quote state None)
  ∧ selected_quote (set_selected_quote state None) = None.
Proof.
  intros Hshort. split; [|done]. unfold _node_retrieve_quote.
  rewrite split_lower_length.
  by destruct (Nat.ltb_spec (length (Py.split (user_query state))) 4); [|lia].
Qed.

(** ** The anti-repetition ring *)

Lemma track_usage_deque used i : track_usage used i = Py.deque_append 5 i used.
Proof. done. Qed.

Lemma search_quote_not_used self query top_k used_indices results :
  search_quote self query top_k used_indices = Ok results →
  ∀ r, r ∈ results → r_index r ∉ used_indices.
Proof.
  intros Hres r Hr. destruct (quote_index self) as [ix|] eqn:Hix.
  - destruct (search_quote_entries _ _ _ _ _ _ Hix Hres) as (_ & _ & Hall).
    by destruct (Hall r Hr).
  - unfold search_quote in Hres. rewrite Hix in Hres. injection Hres as <-.
    by apply elem_of_nil in Hr.
Qed.

(** One run of the quote stage either selects nothing and leaves the ring
    as it was, or accepts a quote outside the ring whose composite is at
    least 0.25 and records its position. *)
Lemma node_retrieve_quote_step self state self' state' :
  _node_retrieve_quote self state = Ok (self', state') →
  quote_db self' = quote_db self
  ∧ (selected_quote state' = None ∧ _used_indices self' = _used_indices self
     ∨ ∃ best,
         selected_quote state' = Some best
         ∧ (r_index best ∉ _used_indices self)
         ∧ (MIN_SCORE <= r_composite best)%Q
         ∧ _used_indices self' = track_usage (_used_indices self) (r_index best)).
Proof.
  unfold _node_retrieve_quote.
  destruct (_ <? 4)%nat.
  { intros [= <- <-]. split; [done|]. by left. }
  destruct (search_quote _ _ _ _) as [candidates|e] eqn:Hs; simpl; [|done].
  destruct candidates as [|best rest].
  { intros [= <- <-]. split; [done|]. by left. }
  destruct (Qltb (r_composite best) MIN_SCORE) eqn:Hlow.
  { intros [= <- <-]. split; [done|]. by left. }
  intros [= <- <-]. split; [done|]. right. exists best. simpl.
  split; [done|]. split; [|split; [|done]].
  - eapply search_quote_not_used; [exact Hs|left].
  - unfold Qltb in Hlow. by apply negb_false_iff, Qle_bool_iff in Hlow.
Qed.

Lemma retrieve_turns_ring (self : CinematicPipeline) (turns : list GraphState)
    (history : list Z) :
  _used_indices self = last_n 5 history →
  let run := retrieve_turns self turns in
  let accepted := r_index <$> run.2 in
  _used_indices run.1 = last_n 5 (history ++ accepted)
  ∧ Forall (fun r => (MIN_SCORE <= r_composite r)%Q) run.2
  ∧ ∀ (k : nat) a, accepted !! k = Some a →
                   a ∉ last_n 5 (history ++ take k accepted).
Proof.
  revert self history. induction turns as [|state turns IH];
    intros self history Hring; simpl.
  - rewrite app_nil_r. split; [done|]. split; [constructor|]. by intros k a.
  - destruct (_node_retrieve_quote self state) as [[self' state']|e] eqn:Hnode.
    2: { by apply IH. }
    apply node_retrieve_quote_step in Hnode
      as (_ & [[Hsel Hsame]|(best & Hsel & Hfresh & Hscore & Hpush)]).
    + rewrite Hsel. simpl. apply IH. by rewrite Hsame.
    + rewrite Hsel. simpl.
      destruct (IH self' (history ++ [r_index best])) as (Hfinal & Hall & Hrun).
      { rewrite Hpush, track_usage_deque, Hring. apply deque_append_last_n. }
      rewrite <- app_assoc in Hfinal. simpl in Hfinal.
      split; [done|]. split; [by constructor|].
      intros [|k] a Hk; simpl in *.
      * injection Hk as <-. rewrite app_nil_r. by rewrite <- Hring.
      * specialize (Hrun k a Hk). by rewrite <- app_assoc in Hrun.
Qed.

Lemma elem_of_last_n {A} (n : nat) (l : list A) (i : nat) (x : A) :
  l !! i = Some x → (length l <= i + n)%nat → x ∈ last_n n l.
Proof.
  intros Hi Hlen. unfold last_n. apply list_elem_of_lookup.
  exists (i - (length l - n))%nat. rewrite lookup_drop.
  replace (length l - n + (i - (length l - n)))%nat with i by lia. done.
Qed.

(** C6.  Over the turns of one conversation, starting from a pipeline
    whose ring is empty: the ring never holds more than 5 positions and is
    always the last 5 accepted positions, oldest first; each accepted
    quote has a composite of at least 0.25; [search_quote] never returns a
    position that is in the ring it is given; and an accepted position is
    different from each of the next 5 accepted positions. *)
Theorem no_repeat_within_five (self : CinematicPipeline)
  (turns : list GraphState) :
  _used_indices self = [] →
  let run := retrieve_turns self turns in
  let accepted := r_index <$> run.2 in
  (length (_used_indices run.1) <= 5)%nat
  ∧ _used_indices run.1 = last_n 5 accepted
  ∧ Forall (fun r => (MIN_SCORE <= r_composite r)%Q) run.2
  ∧ (∀ (db : QuoteDBManager) query top_k used_indices results,
       search_quote db query top_k used_indices = Ok results →
       ∀ r, r ∈ results → r_index r ∉ used_indices)
  ∧ ∀ (i j : nat) a b,
      accepted !! i = Some a → accepted !! j = Some b →
      (i < j <= i + 5)%nat → a ≠ b.
Proof.
  intros Hempty run accepted.
  destruct (retrieve_turns_ring self turns []) as (Hring & Hscore & Hfresh);
    [done|].
  simpl in Hring, Hfresh. fold run in Hring, Hscore, Hfresh.
  fold accepted in Hring, Hfresh.
  split; [|split; [done|split; [done|split]]].
  - rewrite Hring. unfold last_n. rewrite length_drop. lia.
  - intros db query top_k used_indices results.
    apply search_quote_not_used.
  - intros i j a b Hi Hj Hij ->.
    apply (Hfresh j b Hj).
    apply (elem_of_last_n 5 _ i).
    + rewrite lookup_take_lt by lia. done.
    + rewrite length_take. lia.
Qed.

(** * Further properties *)

(** ** Persistence of a domain *)

Lemma domain_paths_index_dir mgr mgr2 domain_name :
  index_dir mgr2 = index_dir mgr →
  domain_index_path mgr2 domain_name = domain_index_path mgr domain_name
  ∧ domain_meta_path mgr2 domain_name = domain_meta_path mgr domain_name.
Proof. intros H. unfold domain_index_path, domain_meta_path. by rewrite H. Qed.

Lemma persisted_load mgr mgr2 fs domain_name db :
  index_dir mgr2 = index_dir mgr →
  persisted fs mgr domain_name db →
  _init_empty_domain mgr2 fs domain_name
  = Ok (set_domain mgr2 domain_name db, fs).
Proof.
  intros Hdir [Hi Hm].
  destruct (domain_paths_index_dir mgr mgr2 domain_name Hdir) as [Ei Em].
  destruct db as [ix d]. simpl in *.
  apply (init_empty_domain_present _ _ _ ix None d); by rewrite ?Ei, ?Em.
Qed.

(** X1.  What [_save_domain] writes, [_init_empty_domain] reads back: a
    manager that uses the same index directory loads from the saved files
    exactly the store that was saved, index and metadata, and leaves the
    files as they are. *)
Theorem save_then_load (mgr mgr2 : VectorDBManager) (fs fs' : filesystem)
  (domain_name : string) :
  _save_domain mgr fs domain_name = Ok fs' →
  index_dir mgr2 = index_dir mgr →
  ∃ db, databases mgr !! domain_name = Some db
        ∧ _init_empty_domain mgr2 fs' domain_name
          = Ok (set_domain mgr2 domain_name db, fs').
Proof.
  intros Hsave Hdir. unfold _save_domain, lookup_key in Hsave.
  destruct (databases mgr !! domain_name) as [db|] eqn:Hdb; simpl in Hsave;
    [|done].
  apply write_domain_files_inv in Hsave as [_ ->].
  exists db. split; [done|].
  apply (persisted_load mgr); [done|]. apply persisted_after_save.
Qed.

(** ** What a successful [add_memory] leaves *)

Lemma search_with_decay_domain mgr mgr2 now domain_name query top_k :
  databases mgr2 !! domain_name = databases mgr !! domain_name →
  search_with_decay mgr2 now domain_name query top_k
  = search_with_decay mgr now domain_name query top_k.
Proof. intros H. unfold search_with_decay. by rewrite H. Qed.

(** X2.  A memory survives a restart.  After a successful [add_memory], a
    manager on the same index directory that loads the domain from the
    files gets the store the call left in memory, so every decayed search
    answers as before the restart. *)
Theorem add_memory_survives_restart (mgr mgr2 : VectorDBManager)
  (fs : filesystem) (now : Q) (domain_name text : string) (importance : Q)
  (mem_type : string) (mgr' : VectorDBManager) (fs' : filesystem) :
  add_memory mgr fs now domain_name text importance mem_type = Ok (mgr', fs') →
  index_dir mgr2 = index_dir mgr →
  ∃ mgr2',
    _init_empty_domain mgr2 fs' domain_name = Ok (mgr2', fs')
    ∧ databases mgr2' !! domain_name = databases mgr' !! domain_name
    ∧ ∀ later query top_k,
        search_with_decay mgr2' later domain_name query top_k
        = search_with_decay mgr' later domain_name query top_k.
Proof.
  intros Hadd Hdir.
  destruct (add_memory_Ok _ _ _ _ _ _ _ _ _ Hadd)
    as (Hdir' & _ & _ & db' & Hdb' & _ & Hp).
  exists (set_domain mgr2 domain_name db'). split.
  - apply (persisted_load mgr'); [congruence|done].
  - assert (databases (set_domain mgr2 domain_name db') !! domain_name
            = databases mgr' !! domain_name) as Heq.
    { simpl. by rewrite lookup_insert_eq, Hdb'. }
    split; [done|]. intros later query top_k.
    by apply search_with_decay_domain.
Qed.

(** X3.  [add_memory] touches one domain only: after a successful call
    every other domain of the collection holds the store it held, and
    every file other than the index file and the metadata file of the
    domain is as it was. *)
Theorem add_memory_frame (mgr : VectorDBManager) (fs : filesystem) (now : Q)
  (domain_name text : string) (importance : Q) (mem_type : string)
  (mgr' : VectorDBManager) (fs' : filesystem) :
  add_memory mgr fs now domain_name text importance mem_type = Ok (mgr', fs') →
  (∀ other, other ≠ domain_name →
            databases mgr' !! other = databases mgr !! other)
  ∧ (∀ p, p ≠ domain_index_path mgr domain_name →
          p ≠ domain_meta_path mgr domain_name → fs' !! p = fs !! p).
Proof.
  intros Hadd.
  destruct (add_memory_Ok _ _ _ _ _ _ _ _ _ Hadd) as (_ & Hdom & Hfiles & _).
  by split.
Qed.

(** ** The files of a domain in the index directory *)

Lemma head_app_slash (x : string) : head_to_last_slash (x +:+ "/") = x +:+ "/".
Proof.
  induction x as [|c x IH]; [done|].
  change (String c x +:+ "/") with (String c (x +:+ "/")). simpl.
  rewrite IH. rewrite (bool_decide_eq_false_2 (x +:+ "/" = ""))
    by (by destruct x).
  by rewrite orb_true_r.
Qed.

Lemma rstrip_app_slash (x : string) : rstrip_slash (x +:+ "/") = rstrip_slash x.
Proof.
  induction x as [|c x IH]; [done|].
  change (String c x +:+ "/") with (String c (x +:+ "/")). simpl.
  by rewrite IH.
Qed.

Lemma rstrip_no_trailing_slash (x : string) :
  ends_with_slash x = false → rstrip_slash x = x.
Proof.
  induction x as [|c x IH]; [done|]. destruct x as [|d x].
  - simpl. intros ->. done.
  - intros Hx. change (ends_with_slash (String d x) = false) in Hx.
    specialize (IH Hx).
    change (rstrip_slash (String c (String d x)))
      with (if bool_decide (c = "/"%char)
               && bool_decide (rstrip_slash (String d x) = "")
            then EmptyString else String c (rstrip_slash (String d x))).
    rewrite IH. rewrite (bool_decide_eq_false_2 (String d x = "")) by done.
    by rewrite andb_false_r.
Qed.

Lemma dirname_app_slash (x : string) :
  x ≠ "" → ends_with_slash x = false → os_path_dirname (x +:+ "/") = x.
Proof.
  intros Hne Hx. unfold os_path_dirname.
  rewrite head_app_slash, rstrip_app_slash, rstrip_no_trailing_slash by done.
  by rewrite bool_decide_eq_false_2.
Qed.

Lemma no_slash_starts (s : string) : no_slash s = true → starts_with_slash s = false.
Proof.
  destruct s as [|c s]; [done|]. simpl.
  intros [Hc _]%andb_true_iff. by apply negb_true_iff in Hc.
Qed.

(** X24.  The files of a domain lie in the index directory.  For an index
    directory whose name is not empty and has no trailing separator, and
    a domain name without a path separator, the directory part of the
    index path and of the metadata path is the index directory; so once
    that directory exists, as it does after the constructor, the two
    files can be written unless one of the two paths is itself a
    directory. *)
Theorem files_writable_in_index_dir (fs : filesystem) (mgr : VectorDBManager)
  (domain_name : string) :
  index_dir mgr ≠ "" →
  ends_with_slash (index_dir mgr) = false →
  no_slash domain_name = true →
  os_path_dirname (domain_index_path mgr domain_name) = index_dir mgr
  ∧ os_path_dirname (domain_meta_path mgr domain_name) = index_dir mgr
  ∧ (fs !! index_dir mgr = Some Directory →
     is_directory (fs !! domain_index_path mgr domain_name) = false →
     is_directory (fs !! domain_meta_path mgr domain_name) = false →
     files_writable fs mgr domain_name).
Proof.
  intros Hne Hend Hname.
  assert (os_path_dirname (domain_index_path mgr domain_name) = index_dir mgr)
    as Hdir.
  { rewrite domain_index_path_stem, dirname_app_no_slash by done.
    unfold domain_stem, os_path_join.
    rewrite no_slash_starts by done.
    rewrite bool_decide_eq_false_2 by done. rewrite Hend. simpl.
    rewrite <- string_app_assoc, dirname_app_no_slash by done.
    by apply dirname_app_slash. }
  split; [done|]. split; [by rewrite domain_dirname_meta|].
  intros Hfs Hi Hm. unfold files_writable, can_write.
  rewrite domain_dirname_meta, Hdir. unfold is_dir.
  rewrite Hfs, Hi, Hm. simpl. by rewrite !orb_true_r.
Qed.

(** ** Repeating a memory *)

Lemma l2_sqr_self (x : faiss.vec) : (faiss.l2_sqr x x == 0)%Q.
Proof.
  unfold faiss.l2_sqr. induction x as [|a x IH]; simpl; [reflexivity|].
  rewrite IH. ring.
Qed.

(** [add_memory] on a loaded L2 store with a neighbour below the identity
    threshold overwrites one record and rebuilds. *)
Lemma add_memory_near mgr fs now domain_name db text importance mem_type :
  databases mgr !! domain_name = Some db →
  faiss.metric_type (index db) = faiss.METRIC_L2 →
  store_inv db →
  files_writable fs mgr domain_name →
  (∃ (j : nat) w, faiss.vectors (index db) !! j = Some w
                  ∧ (faiss.l2_sqr (encode text) w < IDENTITY_THRESHOLD)%Q) →
  ∃ (i : nat) fs' texts,
    (i < length (data db))%nat
    ∧ Forall2 embeds (encode <$> texts)
        (<[i := new_memory now text importance mem_type]> (data db))
    ∧ add_memory mgr fs now domain_name text importance mem_type
      = Ok (set_domain mgr domain_name
              (DomainDb (faiss.MkIndex faiss.METRIC_L2 (encode <$> texts))
                 (<[i := new_memory now text importance mem_type]> (data db))),
            fs').
Proof.
  intros Hdb Hmetric Hinv Hw (j0 & w0 & Hj0 & Hw0).
  pose proof (store_inv_length _ Hinv) as Hlen.
  pose proof (store_inv_text _ Hinv) as Htext.
  assert (0 < faiss.ntotal (index db))%Z as Hn.
  { unfold faiss.ntotal. apply lookup_lt_Some in Hj0. lia. }
  destruct (nearest_nonempty (index db) (encode text) 1) as (d & i & rest & Hs);
    [lia|done|].
  assert ((d, i) ∈ faiss.nearest (index db) (encode text) 1) as Hin
    by (rewrite Hs; left).
  apply elem_of_nearest in Hin as (j & v & -> & Hj & ->).
  rewrite Hmetric in *. simpl in *.
  pose proof (nearest_head _ _ _ _ _ _ Hmetric Hs j0 w0 Hj0) as Hnear.
  assert (j < length (data db))%nat as Hjlen.
  { apply lookup_lt_Some in Hj. lia. }
  destruct (add_memory_overwrite_ok mgr fs now domain_name db j text
              importance mem_type Hjlen Htext Hw) as (texts & Hov & HF).
  eexists j, _, texts. split; [done|]. split; [by apply texts_embeds|].
  rewrite (add_memory_present _ _ _ _ db) by done.
  destruct (Z.ltb_spec 0 (faiss.ntotal (index db))); [|lia].
  rewrite Hs.
  destruct (Z.eqb_spec (Z.of_nat j) (-1)); [lia|]. simpl.
  unfold Qltb.
  destruct (Qle_bool IDENTITY_THRESHOLD (faiss.l2_sqr (encode text) v)) eqn:E.
  { apply Qle_bool_iff in E. exfalso.
    apply (Qlt_not_le _ _ Hw0). by eapply Qle_trans. }
  simpl. exact Hov.
Qed.

Lemma add_memory_keeps_L2 mgr fs now domain_name db text importance mem_type
    mgr' fs' db' :
  databases mgr !! domain_name = Some db →
  faiss.metric_type (index db) = faiss.METRIC_L2 →
  add_memory mgr fs now domain_name text importance mem_type = Ok (mgr', fs') →
  databases mgr' !! domain_name = Some db' →
  faiss.metric_type (index db') = faiss.METRIC_L2.
Proof.
  intros Hdb Hmetric Hadd Hdb'.
  destruct (add_memory_present_Ok _ _ _ _ _ _ _ _ _ _ Hdb Hadd)
    as (db1 & -> & _ & _ & Hstep).
  simpl in Hdb'. rewrite lookup_insert_eq in Hdb'. injection Hdb' as <-.
  by eapply memory_step_L2.
Qed.

(** X4.  Telling the same thing twice stores it once.  On a loaded L2
    store that satisfies the invariant and whose two files can be
    written, [add_memory] of a text followed by [add_memory] of the same
    text (with any importance, type and clock) both succeed, and the
    second call does not change the record count: it overwrites a record
    and the store holds the second record. *)
Theorem add_memory_twice (mgr : VectorDBManager) (fs : filesystem)
  (domain_name text : string) (db : domain_db)
  (now1 importance1 : Q) (mem_type1 : string)
  (now2 importance2 : Q) (mem_type2 : string) :
  databases mgr !! domain_name = Some db →
  faiss.metric_type (index db) = faiss.METRIC_L2 →
  store_inv db →
  files_writable fs mgr domain_name →
  ∃ mgr1 fs1 db1 mgr2 fs2 db2,
    add_memory mgr fs now1 domain_name text importance1 mem_type1 = Ok (mgr1, fs1)
    ∧ databases mgr1 !! domain_name = Some db1
    ∧ add_memory mgr1 fs1 now2 domain_name text importance2 mem_type2
      = Ok (mgr2, fs2)
    ∧ databases mgr2 !! domain_name = Some db2
    ∧ length (data db2) = length (data db1)
    ∧ new_memory now2 text importance2 mem_type2 ∈ data db2.
Proof.
  intros Hdb Hmetric Hinv Hw.
  destruct (add_memory_preserves_inv mgr fs now1 domain_name db text importance1
              mem_type1 Hdb Hinv Hw)
    as (mgr1 & fs1 & db1 & Hadd1 & Hdb1 & Hinv1 & Hnew1 & _ & Hw1).
  pose proof (add_memory_keeps_L2 _ _ _ _ _ _ _ _ _ _ _ Hdb Hmetric Hadd1 Hdb1)
    as Hmetric1.
  apply list_elem_of_lookup in Hnew1 as [j Hj].
  destruct (store_inv_lookup db1 j _ Hinv1 Hj) as (t & Ht & Hv).
  simpl in Ht. injection Ht as <-.
  destruct (add_memory_near mgr1 fs1 now2 domain_name db1 text importance2
              mem_type2 Hdb1 Hmetric1 Hinv1 Hw1)
    as (i & fs2 & texts & Hi & _ & Hadd2).
  { exists j, (encode text). split; [done|].
    eapply Qle_lt_trans; [|by instantiate (1 := 0%Q)].
    rewrite l2_sqr_self. apply Qle_refl. }
  eexists mgr1, fs1, db1, _, fs2, _. split; [done|]. split; [done|].
  split; [exact Hadd2|]. split; [apply lookup_insert_eq|]. simpl.
  split; [apply length_insert|].
  eapply list_elem_of_lookup_2. by apply list_lookup_insert_eq.
Qed.

(** ** Size and shape of a decayed search *)

Lemma getitem_elem {A} (l : list A) (i : Z) x : Py.getitem l i = Ok x → x ∈ l.
Proof.
  unfold Py.getitem. destruct (_ <? 0)%Z; [done|].
  destruct (l !! _) eqn:E; [|done]. intros [= <-].
  by eapply list_elem_of_lookup_2.
Qed.

Lemma score_hits_length now dat hits scored :
  score_hits now dat hits = Ok scored →
  (length scored <= length hits)%nat ∧ ∀ sm, sm ∈ scored → sm.2 ∈ dat.
Proof.
  intros Hs. pose proof (score_hits_Forall2 _ _ _ _ Hs) as HF. split.
  - rewrite <- (Forall2_length _ _ _ HF). apply length_filter.
  - intros sm Hsm.
    destruct (Forall2_elem_r _ _ _ _ HF Hsm) as (hit & _ & Hget & _).
    by eapply getitem_elem.
Qed.

Lemma slice_to_fmap {A B} (f : A → B) (l : list A) (k : Z) :
  f <$> Py.slice_to l k = Py.slice_to (f <$> l) k.
Proof.
  unfold Py.slice_to. rewrite length_fmap.
  destruct (0 <=? k)%Z; by rewrite fmap_take.
Qed.

Lemma search_with_decay_loaded mgr now domain_name query top_k db :
  databases mgr !! domain_name = Some db →
  search_with_decay mgr now domain_name query top_k
  = if (faiss.ntotal (index db) =? 0)%Z then Ok []
    else
      scored ← score_hits now (data db)
                 (faiss.nearest (index db) (encode query)
                    (Z.min 10 (faiss.ntotal (index db))));
      Ok (snd <$> Py.slice_to (Py.sort_desc fst scored) top_k).
Proof.
  intros Hdb. unfold search_with_decay. rewrite Hdb.
  destruct (Z.eqb_spec (faiss.ntotal (index db)) 0) as [|Hn]; [done|].
  rewrite search_Ok; [done|]. unfold faiss.ntotal in *. lia.
Qed.

(** X5.  A decayed search that succeeds with a non-negative [top_k]
    returns at most [top_k] records and never more than 10, and every
    record it returns is a record of the domain that was asked. *)
Theorem search_with_decay_bounds (mgr : VectorDBManager) (now : Q)
  (domain_name query : string) (top_k : Z) (found : list memory_obj) :
  search_with_decay mgr now domain_name query top_k = Ok found →
  (0 <= top_k)%Z →
  (length found <= Z.to_nat top_k)%nat
  ∧ (length found <= 10)%nat
  ∧ ∀ m, m ∈ found →
         ∃ db, databases mgr !! domain_name = Some db ∧ m ∈ data db.
Proof.
  intros Hs Hk.
  destruct (databases mgr !! domain_name) as [db|] eqn:Hdb.
  2: { unfold search_with_decay in Hs. rewrite Hdb in Hs.
       injection Hs as <-. simpl. split; [lia|]. split; [lia|].
       intros m Hm. by apply elem_of_nil in Hm. }
  rewrite (search_with_decay_loaded _ _ _ _ _ db Hdb) in Hs.
  destruct (faiss.ntotal (index db) =? 0)%Z.
  { injection Hs as <-. simpl. split; [lia|]. split; [lia|].
    intros m Hm. by apply elem_of_nil in Hm. }
  destruct (score_hits _ _ _) as [scored|e] eqn:Hsc; simpl in Hs; [|done].
  injection Hs as <-.
  destruct (score_hits_length _ _ _ _ Hsc) as [Hlen Hmem].
  rewrite nearest_length in Hlen.
  rewrite slice_to_nonneg by done. rewrite length_fmap, length_take.
  rewrite (Permutation_length (sort_desc_perm fst scored)).
  split; [lia|]. split; [lia|].
  intros m (sm & -> & Hsm%subseteq_take)%list_elem_of_fmap.
  rewrite sort_desc_perm in Hsm. exists db. split; [done|]. by apply Hmem.
Qed.

(** X6.  The answer for any [top_k] is a slice of one ranking: what
    [search_with_decay] returns for [top_k] is the Python slice [[:top_k]]
    of what it returns for 10.  So the answers for a smaller non-negative
    [top_k] are a prefix of the answers for a larger one, and a negative
    [top_k] drops the last records of the ranking instead of returning
    nothing. *)
Theorem search_with_decay_slices (mgr : VectorDBManager) (now : Q)
  (domain_name query : string) (top_k : Z) :
  search_with_decay mgr now domain_name query top_k
  = (full ← search_with_decay mgr now domain_name query 10;
     Ok (Py.slice_to full top_k)).
Proof.
  assert (Py.slice_to (@nil memory_obj) top_k = []) as Hnil.
  { unfold Py.slice_to. destruct (0 <=? top_k)%Z; apply take_nil. }
  destruct (databases mgr !! domain_name) as [db|] eqn:Hdb.
  2: { unfold search_with_decay. rewrite Hdb. simpl. by rewrite Hnil. }
  rewrite !(search_with_decay_loaded _ _ _ _ _ db Hdb).
  destruct (faiss.ntotal (index db) =? 0)%Z; simpl; [by rewrite Hnil|].
  destruct (score_hits _ _ _) as [scored|e] eqn:Hsc; simpl; [|done].
  destruct (score_hits_length _ _ _ _ Hsc) as [Hlen _].
  rewrite nearest_length in Hlen.
  rewrite (slice_to_nonneg _ 10) by lia.
  rewrite take_ge.
  - by rewrite slice_to_fmap.
  - rewrite (Permutation_length (sort_desc_perm fst scored)). lia.
Qed.


(** ** Files that do not agree *)

Lemma getitem_out_of_range {A} (l : list A) (i : Z) :
  (Z.of_nat (length l) <= i)%Z → Py.getitem l i = Raise IndexError.
Proof.
  intros Hi. unfold Py.getitem.
  destruct (Z.ltb_spec i 0); [lia|].
  destruct (Z.ltb_spec i 0); [lia|].
  rewrite lookup_ge_None_2; [done|lia].
Qed.

(** The scoring loop raises [IndexError] as soon as one hit points past
    the metadata list, whatever its distance. *)
Lemma score_hits_out_of_range now dat hits :
  Forall (fun m => ∀ t, m_timestamp m = Some t → (t <= now)%Q) dat →
  (∀ d i, (d, i) ∈ hits → (0 <= i)%Z) →
  (∃ d i, (d, i) ∈ hits ∧ (Z.of_nat (length dat) <= i)%Z) →
  score_hits now dat hits = Raise IndexError.
Proof.
  intros Hts. induction hits as [|[d i] hits IH]; intros Hpos (d0 & i0 & Hin & Hbad).
  { by apply elem_of_nil in Hin. }
  simpl. assert (0 <= i)%Z as Hi by (apply (Hpos d); left).
  destruct (Z.eqb_spec i (-1)); [lia|].
  destruct (decide (Z.of_nat (length dat) <= i)%Z) as [Hout|Hok].
  { by rewrite getitem_out_of_range. }
  assert (score_hits now dat hits = Raise IndexError) as Hrest.
  { apply IH.
    - intros d' i' Hin'. apply (Hpos d'). by right.
    - apply elem_of_cons in Hin as [Heq|Hin]; [|by eauto].
      injection Heq as -> ->. lia. }
  destruct (lookup_lt_is_Some_2 dat (Z.to_nat i)) as [m Hm]; [lia|].
  apply getitem_Ok in Hm as Hget; [|done]. rewrite Hget. simpl.
  destruct (Qltb _ _); [done|].
  destruct (final_score_total now (base_similarity_of d) m) as [sc Hsc].
  { rewrite Forall_forall in Hts. apply Hts. by eapply list_elem_of_lookup_2. }
  rewrite Hsc, Hrest. done.
Qed.

Lemma nearest_all ix q k :
  (Z.of_nat (length (faiss.vectors ix)) <= k)%Z →
  faiss.nearest ix q k = faiss.ranked ix q.
Proof.
  intros Hk. unfold faiss.nearest. apply take_ge. rewrite ranked_length. lia.
Qed.

Lemma elem_of_ranked ix q (j : nat) v :
  faiss.vectors ix !! j = Some v →
  (faiss.distance (faiss.metric_type ix) q v, Z.of_nat j) ∈ faiss.ranked ix q.
Proof.
  intros Hj. rewrite ranked_perm. apply elem_of_all_hits. by exists j, v.
Qed.

Lemma search_with_decay_torn mgr now domain_name query top_k db :
  databases mgr !! domain_name = Some db →
  (length (data db) < length (faiss.vectors (index db)))%nat →
  (length (faiss.vectors (index db)) <= 10)%nat →
  Forall (fun m => ∀ t, m_timestamp m = Some t → (t <= now)%Q) (data db) →
  search_with_decay mgr now domain_name query top_k = Raise IndexError.
Proof.
  intros Hdb Hshort Hsmall Hts.
  rewrite (search_with_decay_loaded _ _ _ _ _ db Hdb).
  unfold faiss.ntotal.
  destruct (Z.eqb_spec (Z.of_nat (length (faiss.vectors (index db)))) 0); [lia|].
  rewrite nearest_all by lia.
  rewrite score_hits_out_of_range; [done|done| |].
  - intros d i Hin. rewrite ranked_perm in Hin.
    apply elem_of_all_hits in Hin as (j & v & -> & _). lia.
  - destruct (lookup_lt_is_Some_2 (faiss.vectors (index db)) (length (data db)))
      as [v Hv]; [done|].
    exists (faiss.distance (faiss.metric_type (index db)) (encode query) v),
      (Z.of_nat (length (data db))).
    split; [by apply elem_of_ranked|lia].
Qed.

(** X8.  Loading does not check that the two files of a domain agree.
    When the index file holds more vectors (at most 10) than the metadata
    file holds records, [_init_empty_domain] loads both as they are and
    succeeds, and from then on every decayed search of that domain raises
    [IndexError], whatever the query and [top_k]. *)
Theorem torn_files_break_search (mgr : VectorDBManager) (fs : filesystem)
  (domain_name : string) (ix : faiss.Index) (t : option Q)
  (d : list memory_obj) (now : Q) :
  fs !! domain_index_path mgr domain_name = Some (IndexFile ix) →
  fs !! domain_meta_path mgr domain_name = Some (MetaFile t d) →
  (length d < length (faiss.vectors ix))%nat →
  (length (faiss.vectors ix) <= 10)%nat →
  Forall (fun m => ∀ t, m_timestamp m = Some t → (t <= now)%Q) d →
  ∃ mgr',
    _init_empty_domain mgr fs domain_name = Ok (mgr', fs)
    ∧ databases mgr' !! domain_name = Some (DomainDb ix d)
    ∧ ∀ query top_k,
        search_with_decay mgr' now domain_name query top_k = Raise IndexError.
Proof.
  intros Hi Hm Hshort Hsmall Hts.
  exists (set_domain mgr domain_name (DomainDb ix d)).
  split; [by apply (init_empty_domain_present _ _ _ ix t d)|].
  split; [apply lookup_insert_eq|].
  intros query top_k.
  apply (search_with_decay_torn _ _ _ _ _ (DomainDb ix d));
    [apply lookup_insert_eq|done..].
Qed.

(** ** Further properties of the quote manager *)

Lemma StronglySorted_sublist {A} (R : A → A → Prop) (l1 l2 : list A) :
  l1 `sublist_of` l2 → StronglySorted R l2 → StronglySorted R l1.
Proof.
  induction 1 as [|x l1 l2 Hsub IH|x l1 l2 Hsub IH]; intros Hs.
  - constructor.
  - apply StronglySorted_cons in Hs as [Hall Hs].
    apply StronglySorted_cons. split; [|by apply IH].
    rewrite Forall_forall in *. intros y Hy. apply Hall.
    by eapply elem_of_sublist.
  - apply StronglySorted_cons in Hs as [_ Hs]. by apply IH.
Qed.

Lemma search_quote_sorted self query top_k used_indices results :
  search_quote self query top_k used_indices = Ok results →
  StronglySorted (fun a b => (r_composite b <= r_composite a)%Q) results.
Proof.
  intros Hres. destruct (quote_index self) as [ix|] eqn:Hix.
  - by destruct (search_quote_entries _ _ _ _ _ _ Hix Hres).
  - unfold search_quote in Hres. rewrite Hix in Hres. injection Hres as <-.
    constructor.
Qed.

(** X9.  [search_catchphrase] returns entries of
    [search_quote(query, top_k * 3, used_indices)] in the same order,
    keeps only those whose quote has the type ["catchphrase"], and keeps
    at most [top_k] of them.  So the entries it returns are sorted by
    descending recorded composite and none is at an excluded position. *)
Theorem search_catchphrase_spec (self : QuoteDBManager) (query : string)
  (top_k : Z) (used_indices : list Z) (found : list quote_result) :
  search_catchphrase self query top_k used_indices = Ok found →
  (∃ all_results,
     search_quote self query (top_k * 3) used_indices = Ok all_results
     ∧ found `sublist_of` all_results)
  ∧ Forall (fun r => q_type (r_metadata r) = Some "catchphrase") found
  ∧ (Z.of_nat (length found) <= Z.max 0 top_k)%Z
  ∧ StronglySorted (fun a b => (r_composite b <= r_composite a)%Q) found
  ∧ ∀ r, r ∈ found → r_index r ∉ used_indices.
Proof.
  unfold search_catchphrase.
  destruct (search_quote self query (top_k * 3) used_indices)
    as [all_results|e] eqn:Hall; simpl; [|done].
  intros [= <-].
  set (catchphrases :=
         filter (fun r => q_type (r_metadata r) = Some "catchphrase") all_results).
  assert (take (Z.to_nat (Z.of_nat (length catchphrases) `min` top_k)) catchphrases
          `sublist_of` all_results) as Hsub.
  { etrans; [apply sublist_take|apply sublist_filter]. }
  split; [by exists all_results|]. split; [|split; [|split]].
  - rewrite Forall_forall. intros r Hr%subseteq_take.
    by apply list_elem_of_filter in Hr as [Hr _].
  - rewrite length_take. lia.
  - eapply StronglySorted_sublist; [exact Hsub|].
    by eapply search_quote_sorted.
  - intros r Hr. eapply search_quote_not_used; [exact Hall|].
    by eapply elem_of_sublist.
Qed.

Lemma build_emotion_cache_lookup (qs : list quote) (label : string) :
  _build_emotion_cache qs !! label
  = if bool_decide (label ∈ emotion_label <$> qs)
    then Some (normalize_L2 (encode label)) else None.
Proof.
  induction qs as [|q qs IH].
  - unfold _build_emotion_cache. cbn [foldr]. rewrite lookup_empty, fmap_nil.
    case_bool_decide as H; [by apply elem_of_nil in H|reflexivity].
  - unfold _build_emotion_cache. cbn [foldr]. fold (_build_emotion_cache qs).
    rewrite fmap_cons.
    destruct (decide (emotion_label q = label)) as [<-|Hne].
    + clear IH. rewrite lookup_insert_eq.
      rewrite bool_decide_eq_true_2; [done|left].
    + rewrite lookup_insert_ne by done. rewrite IH. clear IH.
      repeat case_bool_decide; try done.
      * exfalso. match goal with H : ¬ _ |- _ => apply H end. by right.
      * exfalso.
        match goal with H : _ ∈ _ :: _ |- _ =>
          apply elem_of_cons in H as [?|?] end; [congruence|done].
Qed.

Lemma load_or_build_Ok fs json_path index_path self fs' :
  _load_or_build fs json_path index_path = Ok (self, fs') →
  ∃ fs1 qs ix,
    os_makedirs fs (os_path_dirname index_path) = Ok fs1
    ∧ fs1 !! json_path = Some (QuotesFile qs)
    ∧ self = MkQuoteDB json_path index_path qs (Some ix) (_build_emotion_cache qs)
    ∧ (fs1 !! index_path = Some (IndexFile ix) ∧ fs' = fs1
       ∨ fs1 !! index_path = None
         ∧ qs ≠ []
         ∧ ix = faiss.MkIndex faiss.METRIC_INNER_PRODUCT
                  ((fun q => normalize_L2 (encode (compound_doc q))) <$> qs)
         ∧ fs' = <[index_path := IndexFile ix]> fs1).
Proof.
  unfold _load_or_build.
  destruct (os_makedirs fs (os_path_dirname index_path)) as [fs1|e] eqn:Hmk;
    simpl; [|done].
  unfold exists_path, read_quotes, read_index, write_index.
  destruct (fs1 !! json_path) as [[| |qs|]|] eqn:Hj;
    try (rewrite bool_decide_eq_true_2 by (by eexists); simpl; done).
  2: { rewrite bool_decide_eq_false_2 by (by intros [? ?]). done. }
  rewrite bool_decide_eq_true_2 by (by eexists). simpl.
  destruct (fs1 !! index_path) as [[ix| | |]|] eqn:Hi;
    try (rewrite bool_decide_eq_true_2 by (by eexists); simpl; done).
  - rewrite bool_decide_eq_true_2 by (by eexists). simpl.
    intros [= <- <-]. exists fs1, qs, ix.
    split; [done|]. split; [done|]. split; [done|]. by left.
  - rewrite bool_decide_eq_false_2 by (by intros [? ?]).
    destruct qs as [|q qs]; simpl; [done|].
    destruct (can_write fs1 index_path); simpl; [|done].
    intros [= <- <-]. eexists fs1, (q :: qs), _.
    split; [done|]. split; [done|]. split; [reflexivity|].
    right. split; [done|]. split; [done|]. split; [|done].
    unfold faiss.add. simpl. by rewrite <- list_fmap_compose.
Qed.

(** X10.  After [QuoteDBManager] is built, the emotion cache holds exactly
    the emotion labels of the corpus (["general"] for a quote without
    one), each with the normalised embedding of the label.  So for every
    quote of the corpus [_emotion_sim] is the dot product with that vector
    and its fallback 0.0 is never taken. *)
Theorem emotion_cache_complete (fs fs' : filesystem)
  (json_path index_path : string) (self : QuoteDBManager) :
  _load_or_build fs json_path index_path = Ok (self, fs') →
  (∀ q, q ∈ quotes self →
        _emotion_vecs self !! emotion_label q
        = Some (normalize_L2 (encode (emotion_label q))))
  ∧ (∀ label, label ∉ emotion_label <$> quotes self →
              _emotion_vecs self !! label = None)
  ∧ ∀ q query_unit, q ∈ quotes self →
      _emotion_sim self query_unit (emotion_label q)
      = faiss.dot query_unit (normalize_L2 (encode (emotion_label q))).
Proof.
  intros Hload.
  destruct (load_or_build_Ok _ _ _ _ _ Hload) as (fs1 & qs & ix & _ & _ & -> & _).
  simpl.
  assert (∀ q, q ∈ qs →
               _build_emotion_cache qs !! emotion_label q
               = Some (normalize_L2 (encode (emotion_label q)))) as Hhit.
  { intros q Hq. rewrite build_emotion_cache_lookup.
    rewrite bool_decide_eq_true_2; [done|]. by apply list_elem_of_fmap_2. }
  split; [done|]. split.
  - intros label Hnot. rewrite build_emotion_cache_lookup.
    by rewrite bool_decide_eq_false_2.
  - intros q query_unit Hq. unfold _emotion_sim. simpl. by rewrite Hhit.
Qed.

(** X11.  Building the quote manager twice gives the same manager: when
    [_load_or_build] succeeds, running it again on the files it left
    (the index file it may have written included) succeeds with the same
    corpus, index and emotion cache, and changes no file. *)
Theorem load_or_build_again (fs fs' : filesystem)
  (json_path index_path : string) (self : QuoteDBManager) :
  _load_or_build fs json_path index_path = Ok (self, fs') →
  _load_or_build fs' json_path index_path = Ok (self, fs').
Proof.
  intros Hload.
  destruct (load_or_build_Ok _ _ _ _ _ Hload)
    as (fs1 & qs & ix & Hmk & Hj & -> & [[Hi ->]|(Hi & Hqs & Hix & ->)]).
  - unfold _load_or_build. rewrite (makedirs_idem _ _ _ Hmk). simpl.
    unfold exists_path, read_quotes, read_index. rewrite Hj, Hi.
    rewrite !bool_decide_eq_true_2 by (by eexists). done.
  - assert (json_path ≠ index_path) as Hne by congruence.
    assert (os_makedirs (<[index_path := IndexFile ix]> fs1)
              (os_path_dirname index_path)
            = Ok (<[index_path := IndexFile ix]> fs1)) as Hmk2.
    { unfold os_makedirs in *.
      destruct (bool_decide (os_path_dirname index_path = "")); [done|].
      apply makedirs_along_idem. intros p Hp.
      pose proof (makedirs_along_dirs _ _ _ Hmk p Hp) as Hdir.
      rewrite lookup_insert_ne; [done|]. congruence. }
    unfold _load_or_build. rewrite Hmk2. simpl.
    unfold exists_path, read_quotes, read_index.
    rewrite lookup_insert_ne by done. rewrite Hj, lookup_insert_eq.
    rewrite !bool_decide_eq_true_2 by (by eexists). done.
Qed.



Lemma all_hits_positions_NoDup ix q : NoDup (snd <$> all_hits ix q).
Proof.
  apply NoDup_alt. intros i j x Hi Hj.
  unfold all_hits in *.
  rewrite list_lookup_fmap, list_lookup_imap in Hi, Hj.
  destruct (faiss.vectors ix !! i); simpl in Hi; [|done].
  destruct (faiss.vectors ix !! j); simpl in Hj; [|done].
  injection Hi as <-. injection Hj as Hj. lia.
Qed.

Lemma nearest_positions_NoDup ix q k : NoDup (snd <$> faiss.nearest ix q k).
Proof.
  apply (sublist_NoDup _ (snd <$> faiss.ranked ix q)).
  - rewrite (ranked_perm ix q). apply all_hits_positions_NoDup.
  - apply fmap_sublist, sublist_take.
Qed.

Lemma Forall2_fmap_eq {A B C} (f : A → C) (g : B → C) (P : A → B → Prop)
    (l : list A) (k : list B) :
  Forall2 P l k → (∀ x y, P x y → g y = f x) → g <$> k = f <$> l.
Proof.
  induction 1 as [|x y l k Hxy _ IH]; intros Himp; [done|].
  rewrite !fmap_cons, (Himp x y Hxy), IH; done.
Qed.

Lemma score_quotes_positions self query_unit used_indices hits results :
  score_quotes self query_unit used_indices hits = Ok results →
  r_index <$> results
  = snd <$> filter (fun hit => eligible used_indices hit) hits.
Proof.
  intros Hs. eapply Forall2_fmap_eq; [by apply score_quotes_Forall2|].
  by intros hit r (q & _ & ->).
Qed.

(** X13.  [search_quote] never returns the same quote twice: the positions
    of the entries it returns are pairwise different. *)
Theorem search_quote_distinct (self : QuoteDBManager) (query : string)
  (top_k : Z) (used_indices : list Z) (results : list quote_result) :
  search_quote self query top_k used_indices = Ok results →
  NoDup (r_index <$> results).
Proof.
  unfold search_quote. destruct (quote_index self) as [ix|].
  2: { intros [= <-]. constructor. }
  destruct (faiss.search _ _ _) as [hits|e] eqn:Hsearch; simpl; [|done].
  apply search_Ok_inv in Hsearch as [_ ->].
  destruct (score_quotes _ _ _ _) as [scored|e] eqn:Hsc; simpl; [|done].
  intros [= <-].
  apply (sublist_NoDup _ (r_index <$> Py.sort_desc r_composite scored));
    [|apply fmap_sublist, sublist_take].
  rewrite sort_desc_perm.
  rewrite (score_quotes_positions _ _ _ _ _ Hsc).
  eapply sublist_NoDup; [apply nearest_positions_NoDup|].
  apply fmap_sublist, sublist_filter.
Qed.

(** X23.  With nothing to fetch the index refuses the search: on a
    manager that holds an index, [search_quote] raises [AssertionError]
    when [top_k] is not positive or the index holds no vector, for every
    query and excluded positions. *)
Theorem search_quote_refuses_empty (self : QuoteDBManager) (query : string)
  (top_k : Z) (used_indices : list Z) (ix : faiss.Index) :
  quote_index self = Some ix →
  (top_k <= 0)%Z ∨ faiss.ntotal ix = 0%Z →
  search_quote self query top_k used_indices = Raise AssertionError.
Proof.
  intros Hix Hk. apply (search_quote_nothing_to_fetch _ _ _ _ ix); [done|].
  unfold faiss.ntotal in *. lia.
Qed.

(** ** Further properties of the conversation window *)

Lemma deque_append_length {A} (n : nat) (x : A) (l : list A) :
  (length l <= n)%nat → (length (Py.deque_append n x l) <= n)%nat.
Proof.
  intros Hl. unfold Py.deque_append.
  destruct (Nat.ltb_spec n (length (l ++ [x]))) as [Hlt|Hge]; [|done].
  rewrite length_drop, length_app. simpl. lia.
Qed.

Lemma run_buffer_op_bound b op :
  (length (buffer b) <= maxlen b)%nat →
  (length (buffer (run_buffer_op b op)) <= maxlen (run_buffer_op b op))%nat
  ∧ maxlen (run_buffer_op b op) = maxlen b.
Proof.
  intros Hb. destruct op as [u a|]; simpl.
  - split; [|done]. by do 2 apply deque_append_length.
  - split; [lia|done].
Qed.

(** X14.  The window never grows past its bound.  For a buffer made by
    [ConversationBuffer(max_turns)], after any sequence of
    [add_interaction] and [clear] calls [get_history] returns at most
    [max_turns] messages. *)
Theorem buffer_never_exceeds_bound (max_turns : Z) (b : ConversationBuffer)
  (ops : list buffer_op) :
  new_ConversationBuffer max_turns = Ok b →
  (length (get_history (run_buffer_ops ops b)) <= Z.to_nat max_turns)%nat.
Proof.
  unfold new_ConversationBuffer. destruct (max_turns <? 0)%Z; [done|].
  intros [= <-].
  assert (∀ b, (length (buffer b) <= maxlen b)%nat →
               (length (buffer (run_buffer_ops ops b)) <= maxlen b)%nat) as Hinv.
  { induction ops as [|op ops IH]; intros b Hb; simpl; [done|].
    destruct (run_buffer_op_bound b op Hb) as [Hb' Hmax].
    rewrite <- Hmax. by apply IH. }
  apply (Hinv (MkBuffer (Z.to_nat max_turns) [])). simpl. lia.
Qed.

Lemma drop_bind_pairs (k : nat) (exs : list (string * string)) :
  drop (2 * k) (exs ≫= exchange_messages) = drop k exs ≫= exchange_messages.
Proof.
  revert exs. induction k as [|k IH]; intros exs; [done|].
  destruct exs as [|ex exs]; [done|].
  replace (2 * S k)%nat with (S (S (2 * k))) by lia. simpl. apply IH.
Qed.

Lemma length_bind_pairs (exs : list (string * string)) :
  length (exs ≫= exchange_messages) = (2 * length exs)%nat.
Proof.
  induction exs as [|ex exs IH]; [done|].
  rewrite bind_cons, length_app, IH. simpl. lia.
Qed.

(** X15.  With an even bound the window holds whole exchanges.  For a
    buffer made with [max_turns = 2 * n], after any sequence of
    [add_interaction] calls [get_history] is exactly the last [n]
    exchanges, each as its user message followed by its assistant
    message. *)
Theorem even_bound_keeps_exchanges (n : nat) (b : ConversationBuffer)
  (exs : list (string * string)) :
  new_ConversationBuffer (2 * Z.of_nat n) = Ok b →
  get_history (add_interactions exs b)
  = last_n n exs ≫= exchange_messages.
Proof.
  unfold new_ConversationBuffer. destruct (_ <? 0)%Z; [done|].
  intros [= <-]. rewrite get_history_last_messages.
  replace (Z.to_nat (2 * Z.of_nat n)) with (2 * n)%nat by lia.
  unfold last_n. rewrite length_bind_pairs.
  replace (2 * length exs - 2 * n)%nat with (2 * (length exs - n))%nat by lia.
  apply drop_bind_pairs.
Qed.

Lemma last_char_app (s : string) (c : Ascii.ascii) (t : string) :
  last_char (s +:+ String c t) = last_char (String c t).
Proof.
  induction s as [|d s IH]; [done|].
  change (String d s +:+ String c t) with (String d (s +:+ String c t)).
  destruct s; simpl in *; exact IH.
Qed.

Lemma history_line_last (acc : string) (msg : message) :
  last_char (acc +:+ history_line msg) = Some (Ascii.ascii_of_nat 10).
Proof.
  unfold history_line, newline.
  rewrite <- !string_app_assoc. by rewrite last_char_app.
Qed.

Lemma history_fold_last (msgs : list message) (acc : string) :
  msgs ≠ [] →
  last_char (foldl (fun history_str msg => history_str +:+ history_line msg)
               acc msgs)
  = Some (Ascii.ascii_of_nat 10).
Proof.
  revert acc. induction msgs as [|msg msgs IH]; intros acc Hne; [done|].
  destruct msgs as [|msg' msgs].
  - apply history_line_last.
  - change (foldl ?f acc (msg :: ?l)) with (foldl f (f acc msg) l).
    by apply IH.
Qed.

(** X16.  The placeholder cannot be mistaken for history.
    [get_history_string] returns ["No previous context."] exactly when the
    window is empty; for a non-empty window the text ends with a line
    break.  In particular it returns the placeholder after [clear]. *)
Theorem history_string_placeholder (b : ConversationBuffer) :
  (get_history_string b = "No previous context." ↔ get_history b = [])
  ∧ (get_history b ≠ [] →
     last_char (get_history_string b) = Some (Ascii.ascii_of_nat 10))
  ∧ get_history_string (clear b) = "No previous context.".
Proof.
  unfold get_history_string, get_history.
  split; [|split; [|done]].
  - destruct (buffer b) as [|msg msgs] eqn:Hb; [done|].
    split; [|done]. intros Heq.
    pose proof (history_fold_last (msg :: msgs) "" ltac:(done)) as Hlast.
    rewrite Heq in Hlast. done.
  - destruct (buffer b) as [|msg msgs] eqn:Hb; [done|].
    intros _. by apply history_fold_last.
Qed.

(** ** Further properties of the anti-repetition ring *)

Lemma last_n_NoDup {A} (n : nat) (l : list A) :
  (∀ (k : nat) a, l !! k = Some a → a ∉ last_n n (take k l)) →
  NoDup (last_n n l).
Proof.
  intros Hfresh. apply NoDup_alt. intros i j x Hi Hj.
  unfold last_n in Hi, Hj. rewrite lookup_drop in Hi, Hj.
  set (off := (length l - n)%nat) in *.
  pose proof (lookup_lt_Some _ _ _ Hi) as Hil.
  pose proof (lookup_lt_Some _ _ _ Hj) as Hjl.
  destruct (Nat.lt_trichotomy i j) as [Hlt|[Heq|Hgt]]; [|done|]; exfalso.
  - apply (Hfresh _ _ Hj). apply (elem_of_last_n n _ (off + i)).
    + rewrite lookup_take_lt by lia. done.
    + rewrite length_take. lia.
  - apply (Hfresh _ _ Hi). apply (elem_of_last_n n _ (off + j)).
    + rewrite lookup_take_lt by lia. done.
    + rewrite length_take. lia.
Qed.

(** X17.  The ring never holds a position twice.  Over the turns of one
    conversation, starting from a pipeline whose ring is empty, the
    positions in [_used_indices] are pairwise different. *)
Theorem ring_has_no_duplicates (self : CinematicPipeline)
  (turns : list GraphState) :
  _used_indices self = [] →
  NoDup (_used_indices (retrieve_turns self turns).1).
Proof.
  intros Hempty.
  destruct (retrieve_turns_ring self turns []) as (Hring & _ & Hfresh); [done|].
  simpl in Hring, Hfresh. rewrite Hring. by apply last_n_NoDup.
Qed.

(** ** The context stage of the pipeline *)

Lemma search_with_decay_found mgr now domain_name query found :
  search_with_decay mgr now domain_name query 2 = Ok found →
  (length found <= 2)%nat
  ∧ ∀ m, m ∈ found →
         ∃ db, databases mgr !! domain_name = Some db ∧ m ∈ data db.
Proof.
  intros Hs.
  destruct (databases mgr !! domain_name) as [db|] eqn:Hdb.
  2: { unfold search_with_decay in Hs. rewrite Hdb in Hs.
       injection Hs as <-. simpl. split; [lia|].
       intros m Hm. by apply elem_of_nil in Hm. }
  rewrite (search_with_decay_loaded _ _ _ _ _ db Hdb) in Hs.
  destruct (faiss.ntotal (index db) =? 0)%Z.
  { injection Hs as <-. simpl. split; [lia|].
    intros m Hm. by apply elem_of_nil in Hm. }
  destruct (score_hits _ _ _) as [scored|e] eqn:Hsc; simpl in Hs; [|done].
  injection Hs as <-.
  destruct (score_hits_length _ _ _ _ Hsc) as [_ Hmem].
  rewrite slice_to_nonneg by lia. rewrite length_fmap, length_take.
  split; [lia|].
  intros m (sm & -> & Hsm%subseteq_take)%list_elem_of_fmap.
  rewrite sort_desc_perm in Hsm. exists db. split; [done|]. by apply Hmem.
Qed.

(** X18.  The context stage hands at most four memories to the next
    stages: when [_node_load_context] succeeds, the memory list of the new
    state is the answer for the domain ["preferences"] followed by the
    answer for ["personal_context"], at most two records of each, all of
    them records of those two stores; the first memory of the list has a
    text; the history is the window of the buffer, and the other fields of
    the state are as they were. *)
Theorem load_context_spec (vector_db : VectorDBManager)
  (chat_buffer : ConversationBuffer) (now_prefs now_facts : Q)
  (state state' : GraphState) :
  _node_load_context vector_db chat_buffer now_prefs now_facts state = Ok state' →
  (∃ prefs facts,
     preferences state' = prefs ++ facts
     ∧ (length prefs <= 2)%nat ∧ (length facts <= 2)%nat
     ∧ (∀ m, m ∈ prefs →
             ∃ db, databases vector_db !! "preferences" = Some db ∧ m ∈ data db)
     ∧ (∀ m, m ∈ facts →
             ∃ db, databases vector_db !! "personal_context" = Some db
                   ∧ m ∈ data db))
  ∧ (length (preferences state') <= 4)%nat
  ∧ (∀ m, head (preferences state') = Some m → is_Some (m_text m))
  ∧ chat_history state' = get_history chat_buffer
  ∧ user_query state' = user_query state
  ∧ direct_answer state' = direct_answer state
  ∧ selected_quote state' = selected_quote state
  ∧ final_response state' = final_response state.
Proof.
  unfold _node_load_context.
  destruct (search_with_decay vector_db now_prefs "preferences" _ 2)
    as [prefs|e] eqn:Hp; simpl; [|done].
  destruct (search_with_decay vector_db now_facts "personal_context" _ 2)
    as [facts|e] eqn:Hf; simpl; [|done].
  destruct (search_with_decay_found _ _ _ _ _ Hp) as [Hlp Hmp].
  destruct (search_with_decay_found _ _ _ _ _ Hf) as [Hlf Hmf].
  destruct (match prefs ++ facts with [] => Ok "" | m :: _ => get_text m end)
    as [t|e] eqn:Htext; simpl; [|done].
  intros [= <-]. simpl.
  split; [by exists prefs, facts|].
  split; [rewrite length_app; lia|].
  split; [|done].
  intros m Hm. destruct (prefs ++ facts) as [|m0 rest]; [done|].
  injection Hm as ->. unfold get_text in Htext.
  destruct (m_text m); [by eexists|done].
Qed.

(** X19.  What is stored outside the two domains the context stage reads
    is never retrieved.  After a successful [add_memory] on any domain
    other than ["preferences"] and ["personal_context"] (the gatekeeper
    also writes ["learning_progress"]), [_node_load_context] gives the
    same result as before the call, for every state. *)
Theorem load_context_ignores_other_domains (mgr : VectorDBManager)
  (fs : filesystem) (now : Q) (domain_name text : string) (importance : Q)
  (mem_type : string) (mgr' : VectorDBManager) (fs' : filesystem) :
  add_memory mgr fs now domain_name text importance mem_type = Ok (mgr', fs') →
  domain_name ≠ "preferences" →
  domain_name ≠ "personal_context" →
  ∀ chat_buffer now_prefs now_facts state,
    _node_load_context mgr' chat_buffer now_prefs now_facts state
    = _node_load_context mgr chat_buffer now_prefs now_facts state.
Proof.
  intros Hadd Hp Hf chat_buffer now_prefs now_facts state.
  destruct (add_memory_Ok _ _ _ _ _ _ _ _ _ Hadd) as (_ & Hframe & _).
  unfold _node_load_context.
  rewrite (search_with_decay_domain mgr mgr' _ "preferences")
    by (apply Hframe; congruence).
  rewrite (search_with_decay_domain mgr mgr' _ "personal_context")
    by (apply Hframe; congruence).
  done.
Qed.

(** ** The gatekeeper *)

Lemma strip_prefix_app (p s rest b : string) :
  Re.strip_prefix p s = Some rest →
  Re.strip_prefix p (s +:+ b) = Some (rest +:+ b).
Proof.
  revert s. induction p as [|c p IH]; intros s; simpl.
  - by intros [= ->].
  - destruct s as [|d s]; [done|].
    change (String d s +:+ b) with (String d (s +:+ b)). simpl.
    destruct (Ascii.eqb c d); [apply IH|done].
Qed.

Lemma strip_prefix_length (p s rest : string) :
  Re.strip_prefix p s = Some rest →
  String.length s = (String.length p + String.length rest)%nat.
Proof.
  revert s. induction p as [|c p IH]; intros s; simpl.
  - by intros [= ->].
  - destruct s as [|d s]; [done|]. destruct (Ascii.eqb c d); [|done].
    intros H%IH. simpl. by rewrite H.
Qed.

Lemma matches_from_app (r : Re.t) (s rest b : string) :
  rest ∈ Re.matches_from r s → rest +:+ b ∈ Re.matches_from r (s +:+ b).
Proof.
  revert s rest. induction r as [p|r1 IH1 r2 IH2|r1 IH1 r2 IH2|r1 IH1];
    intros s rest; simpl.
  - destruct (Re.strip_prefix p s) as [rest'|] eqn:Hp.
    + intros ->%list_elem_of_singleton.
      rewrite (strip_prefix_app _ _ _ _ Hp). left.
    + intros []%elem_of_nil.
  - intros (mid & Hrest & Hmid)%list_elem_of_bind.
    apply list_elem_of_bind. exists (mid +:+ b). split; [by apply IH2|by apply IH1].
  - intros [H|H]%elem_of_app; apply elem_of_app; [left; by apply IH1|right; by apply IH2].
  - intros [H| ->%list_elem_of_singleton]%elem_of_app; apply elem_of_app.
    + left. by apply IH1.
    + right. left.
Qed.

Lemma matches_from_length (r : Re.t) (s rest : string) :
  rest ∈ Re.matches_from r s →
  (Re.min_length r + String.length rest <= String.length s)%nat.
Proof.
  revert s rest. induction r as [p|r1 IH1 r2 IH2|r1 IH1 r2 IH2|r1 IH1];
    intros s rest; simpl.
  - destruct (Re.strip_prefix p s) as [rest'|] eqn:Hp.
    + intros ->%list_elem_of_singleton.
      rewrite (strip_prefix_length _ _ _ Hp). lia.
    + intros []%elem_of_nil.
  - intros (mid & Hrest & Hmid)%list_elem_of_bind.
    apply IH1 in Hmid. apply IH2 in Hrest. lia.
  - intros [H|H]%elem_of_app; [apply IH1 in H|apply IH2 in H]; lia.
  - intros [H| ->%list_elem_of_singleton]%elem_of_app; [apply IH1 in H|]; lia.
Qed.

Lemma search_unfold (r : Re.t) (s : string) :
  Re.search r s
  = match Re.matches_from r s with
    | _ :: _ => true
    | [] => match s with
            | String _ s' => Re.search r s'
            | EmptyString => false
            end
    end.
Proof. by destruct s. Qed.

Lemma search_of_match (r : Re.t) (s rest : string) :
  rest ∈ Re.matches_from r s → Re.search r s = true.
Proof.
  intros Hin. rewrite search_unfold.
  destruct (Re.matches_from r s); [|done]. by apply elem_of_nil in Hin.
Qed.

Lemma search_cons (r : Re.t) (c : Ascii.ascii) (s : string) :
  Re.search r s = true → Re.search r (String c s) = true.
Proof.
  intros H. rewrite search_unfold.
  by destruct (Re.matches_from r (String c s)).
Qed.

Lemma search_app_r (r : Re.t) (s b : string) :
  Re.search r s = true → Re.search r (s +:+ b) = true.
Proof.
  induction s as [|c s IH]; rewrite search_unfold;
    destruct (Re.matches_from r _) as [|rest l] eqn:Hm.
  - done.
  - intros _. apply (search_of_match _ _ (rest +:+ b)).
    apply matches_from_app. rewrite Hm. left.
  - intros H%IH. change (String c s +:+ b) with (String c (s +:+ b)).
    by apply search_cons.
  - intros _. apply (search_of_match _ _ (rest +:+ b)).
    apply matches_from_app. rewrite Hm. left.
Qed.

Lemma search_app_l (r : Re.t) (a s : string) :
  Re.search r s = true → Re.search r (a +:+ s) = true.
Proof.
  intros H. induction a as [|c a IH]; [done|].
  change (String c a +:+ s) with (String c (a +:+ s)). by apply search_cons.
Qed.

Lemma search_min_length (r : Re.t) (s : string) :
  Re.search r s = true → (Re.min_length r <= String.length s)%nat.
Proof.
  induction s as [|c s IH]; rewrite search_unfold;
    destruct (Re.matches_from r _) as [|rest l] eqn:Hm.
  - done.
  - intros _.
    assert (rest ∈ Re.matches_from r "") as Hin by (rewrite Hm; left).
    apply matches_from_length in Hin. lia.
  - intros H%IH. simpl. lia.
  - intros _.
    assert (rest ∈ Re.matches_from r (String c s)) as Hin by (rewrite Hm; left).
    apply matches_from_length in Hin. lia.
Qed.

Lemma lower_app (a b : string) : Py.lower (a +:+ b) = Py.lower a +:+ Py.lower b.
Proof.
  induction a as [|c a IH]; [done|].
  change (String c a +:+ b) with (String c (a +:+ b)). simpl. by rewrite IH.
Qed.

Lemma lower_length (s : string) : String.length (Py.lower s) = String.length s.
Proof. induction s as [|c s IH]; simpl; [done|]. by rewrite IH. Qed.

(** X20.  The fast filter looks for a trigger anywhere in the utterance:
    when [_fast_check] accepts a text, it accepts every text that contains
    it, whatever comes before and after. *)
Theorem fast_check_substring (before text after : string) :
  _fast_check text = true →
  _fast_check (before +:+ text +:+ after) = true.
Proof.
  unfold _fast_check. intros H. rewrite !lower_app.
  by apply search_app_l, search_app_r.
Qed.

(** X21.  Short utterances never reach the classifier: the shortest
    triggers (["i love"], ["i hate"]) have 6 characters, so a text of fewer
    than 6 characters matches none, and [evaluate_and_store] returns at
    once and stores nothing, whatever the classifier would say. *)
Theorem short_text_not_triggered (mgr : VectorDBManager) (fs : filesystem)
  (now : Q) (user_text : string) :
  (String.length user_text < 6)%nat →
  _fast_check user_text = false
  ∧ evaluate_and_store mgr fs now user_text = NotTriggered.
Proof.
  intros Hshort.
  assert (_fast_check user_text = false) as Hno.
  { destruct (_fast_check user_text) eqn:E; [|done]. exfalso.
    unfold _fast_check in E. apply search_min_length in E.
    rewrite lower_length in E.
    change (Re.min_length trigger_regex) with 6%nat in E. lia. }
  split; [done|]. unfold evaluate_and_store. by rewrite Hno.
Qed.

(** X22.  The gatekeeper writes to three domains only.  When
    [evaluate_and_store] stores a memory, a trigger matched, the
    classifier said to store, and the memory went through [add_memory]
    into one of ["preferences"], ["learning_progress"] and
    ["personal_context"] with that domain as its type; every other domain
    of the collection holds the store it held. *)
Theorem gatekeeper_confined (mgr : VectorDBManager) (fs : filesystem) (now : Q)
  (user_text : string) (mgr' : VectorDBManager) (fs' : filesystem) :
  evaluate_and_store mgr fs now user_text = Stored (mgr', fs') →
  _fast_check user_text = true
  ∧ ∃ dec domain,
      classify user_text = Some dec
      ∧ dec_store dec = true
      ∧ domain ∈ VALID_DOMAINS
      ∧ add_memory mgr fs now domain (default "" (dec_summary dec))
          (default 0.5%Q (dec_importance dec)) domain = Ok (mgr', fs')
      ∧ (∀ other, other ≠ domain →
                  databases mgr' !! other = databases mgr !! other)
      ∧ ∃ db', databases mgr' !! domain = Some db'
               ∧ MemoryObj (Some (default "" (dec_summary dec))) (Some now)
                   (Some (default 0.5%Q (dec_importance dec))) (Some domain) []
                 ∈ data db'.
Proof.
  unfold evaluate_and_store.
  destruct (_fast_check user_text); simpl; [|done].
  destruct (classify user_text) as [dec|]; [|done].
  destruct (dec_store dec) eqn:Hstore; [|done].
  set (domain := if bool_decide (default "personal_context" (dec_type dec)
                                   ∈ VALID_DOMAINS)
                 then default "personal_context" (dec_type dec)
                 else "personal_context").
  destruct (add_memory mgr fs now domain _ _ domain) as [[mgr1 fs1]|e] eqn:Hadd;
    [|done].
  intros [= <- <-]. split; [done|].
  exists dec, domain. split; [done|]. split; [done|].
  assert (domain ∈ VALID_DOMAINS) as Hvalid.
  { unfold domain. case_bool_decide as H; [done|].
    unfold VALID_DOMAINS. do 2 apply list_elem_of_further.
    apply list_elem_of_here. }
  split; [done|]. split; [done|].
  destruct (add_memory_Ok _ _ _ _ _ _ _ _ _ Hadd)
    as (_ & Hframe & _ & db' & Hdb' & Hnew & _).
  split; [done|]. by exists db'.
Qed.

End Model.

(** * The properties on the small corpus *)

(** The managers of the small corpus are states the code reaches: the
    quote manager is what [_load_or_build] builds from the corpus file, the
    memory manager what [add_memory] leaves after one call. *)
Lemma demo_quote_manager_built :
  ∃ fs', _load_or_build Demo.encode Demo.normalize_L2 Demo.quote_files
           "data/quote_dictionary.json" "data/indexes/quote.index"
         = Ok (Demo.quote_manager, fs')
         ∧ fs' !! "data/indexes" = Some Directory.
Proof. eexists. split; vm_compute; reflexivity. Qed.

Lemma demo_memory_manager_reached :
  add_memory Demo.encode Demo.empty_manager Demo.disk 0 "preferences"
    "I like tea" (1 # 2) "preferences"
  = Ok (Demo.memory_manager, Demo2.tea_files).
Proof. vm_compute. reflexivity. Qed.

(** The two files of the preferences can be written on the disks of the
    small corpus; the files of a domain whose name has a path separator
    cannot. *)
Lemma demo_files_writable :
  files_writable Demo.disk Demo.empty_manager "preferences"
  ∧ files_writable Demo2.tea_files Demo.memory_manager "preferences"
  ∧ is_dir Demo.disk
      (os_path_dirname (domain_index_path Demo.empty_manager "notes/today"))
    = false.
Proof. repeat split; vm_compute; reflexivity. Qed.

(** C7 at two records of the same importance, aged 0 and 1 day. *)
Lemma decay_monotonicity_witness :
  (RELEVANCE_FLOOR <= 1 # 2)%Q
  ∧ (0 <= age_in_days 172800 172800)%Q
  ∧ (age_in_days 172800 172800 <= age_in_days 172800 86400)%Q
  ∧ ∃ score1 score2,
      final_score 172800 (1 # 2) Demo.young = Ok score1
      ∧ final_score 172800 (1 # 2) Demo.old = Ok score2
      ∧ (score2 <= score1)%Q.
Proof.
  assert (RELEVANCE_FLOOR <= 1 # 2)%Q as H1 by (by vm_compute).
  assert (0 <= age_in_days 172800 172800)%Q as H2 by (by vm_compute).
  assert (age_in_days 172800 172800 <= age_in_days 172800 86400)%Q as H3
    by (by vm_compute).
  split; [exact H1|]. split; [exact H2|]. split; [exact H3|].
  exact (decay_monotonicity 172800 (1 # 2) Demo.young Demo.old 172800 86400
           eq_refl eq_refl (Qeq_refl _) H1 H2 H3).
Defined.



(** C2 (amended) on the stored preference: the same text is a duplicate
    and overwrites the record; another text is appended. *)
Lemma add_memory_dedup_witness :
  databases Demo.memory_manager !! "preferences" = Some Demo.tea_store
  ∧ faiss.metric_type (index Demo.tea_store) = faiss.METRIC_L2
  ∧ files_writable Demo2.tea_files Demo.memory_manager "preferences"
  ∧ (∃ (j : nat) w,
       faiss.vectors (index Demo.tea_store) !! j = Some w
       ∧ (faiss.l2_sqr (Demo.encode "I like tea") w < 1)%Q)
  ∧ (∀ (j : nat) w,
       faiss.vectors (index Demo.tea_store) !! j = Some w →
       (1 <= faiss.l2_sqr (Demo.encode "dark mode please") w)%Q)
  ∧ (∃ (i : nat) mgr' fs' db',
       add_memory Demo.encode Demo.memory_manager Demo2.tea_files 86400
         "preferences" "I like tea" (3 # 4) "preferences" = Ok (mgr', fs')
       ∧ databases mgr' !! "preferences" = Some db'
       ∧ data db' !! i
         = Some (MemoryObj (Some "I like tea") (Some 86400) (Some (3 # 4))
                   (Some "preferences") [])
       ∧ length (data db') = length (data Demo.tea_store))
  ∧ ∃ mgr' fs' db',
      add_memory Demo.encode Demo.memory_manager Demo2.tea_files 86400
        "preferences" "dark mode please" (3 # 4) "preferences" = Ok (mgr', fs')
      ∧ databases mgr' !! "preferences" = Some db'
      ∧ data db'
        = data Demo.tea_store
          ++ [MemoryObj (Some "dark mode please") (Some 86400) (Some (3 # 4))
                (Some "preferences") []].
Proof.
  assert (files_writable Demo2.tea_files Demo.memory_manager "preferences")
    as Hw by (split; vm_compute; reflexivity).
  assert (∃ (j : nat) w,
            faiss.vectors (index Demo.tea_store) !! j = Some w
            ∧ (faiss.l2_sqr (Demo.encode "I like tea") w < 1)%Q)
    as Hnear.
  { exists 0%nat, [3; 0]%Q. split; [reflexivity|by vm_compute]. }
  assert (∀ (j : nat) w,
            faiss.vectors (index Demo.tea_store) !! j = Some w →
            (1 <= faiss.l2_sqr (Demo.encode "dark mode please") w)%Q) as Hfar.
  { intros [|j] w Hj; simpl in Hj; [|discriminate Hj].
    injection Hj as <-. by vm_compute. }
  assert (Forall (fun m => is_Some (m_text m)) (data Demo.tea_store)) as Htext.
  { repeat constructor. by eexists. }
  split; [reflexivity|]. split; [reflexivity|]. split; [exact Hw|].
  split; [exact Hnear|]. split; [exact Hfar|]. split.
  - pose proof (add_memory_dedup Demo.encode Demo.memory_manager Demo2.tea_files
                  86400 "preferences" "I like tea" (3 # 4) "preferences"
                  Demo.tea_store eq_refl eq_refl Hw) as H.
    cbv zeta in H. destruct H as [Hover _].
    destruct (Hover (le_n 1) Htext Hnear) as
      (i & v & mgr' & fs' & db' & texts & _ & _ & _ & Hadd & Hdb & _ & Hnew
       & Hlen & _).
    exists i, mgr', fs', db'. split; [exact Hadd|]. split; [exact Hdb|].
    split; [exact Hnew|exact Hlen].
  - pose proof (add_memory_dedup Demo.encode Demo.memory_manager Demo2.tea_files
                  86400 "preferences" "dark mode please" (3 # 4) "preferences"
                  Demo.tea_store eq_refl eq_refl Hw) as H.
    cbv zeta in H. destruct H as [_ Happend].
    destruct (Happend Hfar) as (mgr' & fs' & db' & Hadd & Hdb & Hdata & _).
    exists mgr', fs', db'. split; [exact Hadd|]. split; [exact Hdb|exact Hdata].
Defined.

(** C2 as stated fails on a bulk-loaded domain: its record has no text,
    and [add_memory] of a text whose embedding is within the threshold of
    the stored vector raises [KeyError] instead of overwriting the
    record. *)
Lemma add_memory_dedup_counterexample :
  databases Demo2.slang_manager !! "slang_dictionary" = Some Demo2.slang_store
  ∧ faiss.vectors (index Demo2.slang_store) !! 0%nat = Some [3; 0]%Q
  ∧ (faiss.l2_sqr (Demo.encode "I like tea") [3; 0] < 1)%Q
  ∧ files_writable Demo.disk Demo2.slang_manager "slang_dictionary"
  ∧ add_memory Demo.encode Demo2.slang_manager Demo.disk 86400
      "slang_dictionary" "I like tea" (1 # 2) "general"
    = Raise KeyError.
Proof.
  split; [reflexivity|]. split; [reflexivity|]. split; [by vm_compute|].
  split; [split; vm_compute; reflexivity|]. vm_compute. reflexivity.
Qed.

(** C3 (amended) on a domain that does not exist yet, with two calls. *)
Lemma add_memories_invariant_witness :
  domain_ready Demo.encode Demo.empty_manager Demo.disk "preferences"
  ∧ files_writable Demo.disk Demo.empty_manager "preferences"
  ∧ ∃ mgr' fs' db',
      add_memories Demo.encode Demo.empty_manager Demo.disk "preferences"
        [MemoryCall 0 "I like tea" (1 # 2) "preferences";
         MemoryCall 86400 "dark mode please" (3 # 4) "preferences"]
      = Ok (mgr', fs')
      ∧ databases mgr' !! "preferences" = Some db'
      ∧ faiss.ntotal (index db') = Z.of_nat (length (data db'))
      ∧ ∀ (i : nat) m, data db' !! i = Some m →
          ∃ t, m_text m = Some t
               ∧ faiss.vectors (index db') !! i = Some (Demo.encode t).
Proof.
  assert (domain_ready Demo.encode Demo.empty_manager Demo.disk "preferences")
    as Hready.
  { left. reflexivity. }
  assert (files_writable Demo.disk Demo.empty_manager "preferences") as Hw
    by (split; vm_compute; reflexivity).
  assert (∀ P, store_before P Demo.empty_manager Demo.disk "preferences")
    as Hbefore.
  { intros P. unfold store_before.
    replace (databases Demo.empty_manager !! "preferences")
      with (@None domain_db) by reflexivity.
    intros ix t d Hi. vm_compute in Hi. discriminate Hi. }
  split; [exact Hready|]. split; [exact Hw|].
  destruct (add_memories_invariant Demo.encode Demo.empty_manager Demo.disk
              "preferences"
              [MemoryCall 0 "I like tea" (1 # 2) "preferences";
               MemoryCall 86400 "dark mode please" (3 # 4) "preferences"])
    as (Hcount & Hembed & Hruns).
  destruct (Hruns Hready Hw) as (mgr' & fs' & Hrun & Hsome).
  destruct Hsome as [db' Hdb']; [discriminate|].
  exists mgr', fs', db'. split; [exact Hrun|]. split; [exact Hdb'|].
  split.
  - exact (Hcount mgr' fs' db' Hrun Hdb' (Hbefore _)).
  - exact (Hembed mgr' fs' db' Hrun Hdb' (Hbefore _)).
Defined.

(** C3 as stated fails on stores that [add_memory] did not write.  On a
    bulk-loaded domain a call completes and leaves a first record without
    text, so its vector is not the embedding of its text; on a domain
    whose index file holds two vectors and whose metadata file holds one
    record a call completes and leaves three vectors for two records. *)
Lemma add_memories_invariant_counterexample :
  (∃ mgr' fs' db',
     add_memories Demo.encode Demo2.slang_manager Demo.disk "slang_dictionary"
       [MemoryCall 86400 "dark mode please" (3 # 4) "general"]
     = Ok (mgr', fs')
     ∧ databases mgr' !! "slang_dictionary" = Some db'
     ∧ data db' !! 0%nat = Some Demo2.slang
     ∧ m_text Demo2.slang = None)
  ∧ ∃ mgr' fs' db',
      add_memories Demo.encode Demo.empty_manager Demo2.torn_files "preferences"
        [MemoryCall 86400 "something else" (3 # 4) "preferences"]
      = Ok (mgr', fs')
      ∧ databases mgr' !! "preferences" = Some db'
      ∧ faiss.ntotal (index db') = 3%Z
      ∧ length (data db') = 2%nat.
Proof.
  split.
  - eexists _, _, _. split; [vm_compute; reflexivity|].
    split; [reflexivity|]. split; reflexivity.
  - eexists _, _, _. split; [vm_compute; reflexivity|].
    split; [reflexivity|]. split; reflexivity.
Qed.

(** C10 (amended) on a domain that is neither loaded nor on disk, and on
    a name whose files would lie in a directory that does not exist. *)
Lemma add_memory_unknown_domain_witness :
  databases Demo.empty_manager !! "preferences" = None
  ∧ exists_path Demo.disk (domain_index_path Demo.empty_manager "preferences")
    && exists_path Demo.disk (domain_meta_path Demo.empty_manager "preferences")
    = false
  ∧ files_writable Demo.disk Demo.empty_manager "preferences"
  ∧ is_dir Demo.disk
      (os_path_dirname (domain_index_path Demo.empty_manager "notes/today"))
    = false
  ∧ (∃ mgr' fs' db',
       add_memory Demo.encode Demo.empty_manager Demo.disk 0 "preferences"
         "I like tea" (1 # 2) "preferences" = Ok (mgr', fs')
       ∧ databases mgr' !! "preferences" = Some db'
       ∧ data db'
         = [MemoryObj (Some "I like tea") (Some 0) (Some (1 # 2))
              (Some "preferences") []]
       ∧ faiss.ntotal (index db') = 1%Z)
  ∧ add_memory Demo.encode Demo.empty_manager Demo.disk 0 "notes/today"
      "I like tea" (1 # 2) "preferences" = Raise RuntimeError.
Proof.
  assert (files_writable Demo.disk Demo.empty_manager "preferences") as Hw
    by (split; vm_compute; reflexivity).
  assert (is_dir Demo.disk
            (os_path_dirname (domain_index_path Demo.empty_manager "notes/today"))
          = false) as Hdir by (vm_compute; reflexivity).
  split; [reflexivity|]. split; [reflexivity|]. split; [exact Hw|].
  split; [exact Hdir|]. split.
  - pose proof (add_memory_unknown_domain Demo.encode Demo.empty_manager
                  Demo.disk 0 "preferences" "I like tea" (1 # 2) "preferences"
                  eq_refl) as H.
    cbv zeta in H. destruct H as (_ & Hfresh & _).
    destruct (Hfresh eq_refl) as [Hok _].
    destruct (Hok Hw) as (mgr0 & fs0 & mgr' & fs' & db' & _ & _ & _ & _ & Hadd
                          & Hdb & Hdata & _ & Hcount & _).
    exists mgr', fs', db'. split; [exact Hadd|]. split; [exact Hdb|].
    split; [exact Hdata|exact Hcount].
  - pose proof (add_memory_unknown_domain Demo.encode Demo.empty_manager
                  Demo.disk 0 "notes/today" "I like tea" (1 # 2) "preferences"
                  eq_refl) as H.
    cbv zeta in H. destruct H as (_ & Hfresh & _).
    destruct (Hfresh eq_refl) as [_ Hfail]. exact (Hfail Hdir).
Defined.

(** C10 as stated fails on a name with a path separator: the domain is
    not in the collection, the disk holds the index directory and no file
    of the domain, and [add_memory] raises [RuntimeError] when the new
    empty index is written. *)
Lemma add_memory_unknown_domain_counterexample :
  databases Demo.empty_manager !! "notes/today" = None
  ∧ Demo.disk !! index_dir Demo.empty_manager = Some Directory
  ∧ Demo.disk !! domain_index_path Demo.empty_manager "notes/today" = None
  ∧ Demo.disk !! domain_meta_path Demo.empty_manager "notes/today" = None
  ∧ add_memory Demo.encode Demo.empty_manager Demo.disk 0 "notes/today"
      "I like tea" (1 # 2) "preferences" = Raise RuntimeError.
Proof. repeat split; vm_compute; reflexivity. Qed.

(** C8 (amended) on the disk of the small corpus, which holds no file. *)
Lemma missing_files_witness :
  Demo.disk !! domain_index_path Demo.empty_manager "preferences" = None
  ∧ files_writable Demo.disk Demo.empty_manager "preferences"
  ∧ Demo.disk !! "data/quote_dictionary.json" = None
  ∧ os_makedirs Demo.disk (os_path_dirname "data/indexes/quote.index")
    = Ok Demo.disk
  ∧ (∃ mgr' fs' db,
       _init_empty_domain Demo.empty_manager Demo.disk "preferences"
       = Ok (mgr', fs')
       ∧ databases mgr' !! "preferences" = Some db
       ∧ data db = []
       ∧ faiss.ntotal (index db) = 0%Z)
  ∧ _load_or_build Demo.encode Demo.normalize_L2 Demo.disk
      "data/quote_dictionary.json" "data/indexes/quote.index"
    = Raise FileNotFoundError.
Proof.
  assert (files_writable Demo.disk Demo.empty_manager "preferences") as Hw
    by (split; vm_compute; reflexivity).
  assert (os_makedirs Demo.disk (os_path_dirname "data/indexes/quote.index")
          = Ok Demo.disk) as Hmk by (vm_compute; reflexivity).
  destruct (missing_files Demo.encode Demo.normalize_L2 Demo.disk)
    as [Hinit Hload].
  split; [reflexivity|]. split; [exact Hw|]. split; [reflexivity|].
  split; [exact Hmk|]. split.
  - destruct (Hinit Demo.empty_manager "preferences" (or_introl eq_refl))
      as [Hok _].
    destruct (Hok Hw) as (mgr' & fs' & db & Hrun & Hdb & Hdata & _ & Hcount & _).
    exists mgr', fs', db. split; [exact Hrun|]. split; [exact Hdb|].
    split; [exact Hdata|exact Hcount].
  - destruct (Hload "data/quote_dictionary.json" "data/indexes/quote.index"
                eq_refl) as [_ Hmissing].
    exact (Hmissing Demo.disk Hmk eq_refl).
Defined.

(** C8 as stated fails on a name with a path separator: both files of the
    domain are absent, and loading it raises [RuntimeError] instead of
    giving an empty store. *)
Lemma missing_files_counterexample :
  Demo.disk !! domain_index_path Demo.empty_manager "notes/today" = None
  ∧ Demo.disk !! domain_meta_path Demo.empty_manager "notes/today" = None
  ∧ _init_empty_domain Demo.empty_manager Demo.disk "notes/today"
    = Raise RuntimeError.
Proof. repeat split; vm_compute; reflexivity. Qed.



(** C5 (amended) on the small corpus. *)
Lemma short_query_gate_witness :
  (length (Py.split (user_query (Demo.turn "hello"))) < 4)%nat
  ∧ _node_retrieve_quote Demo.encode Demo.normalize_L2 Demo.pipeline
      (Demo.turn "hello")
    = Ok (Demo.pipeline, set_selected_quote (Demo.turn "hello") None).
Proof.
  assert (length (Py.split (user_query (Demo.turn "hello"))) < 4)%nat as Hshort
    by (vm_compute; lia).
  split; [exact Hshort|].
  exact (proj1 (short_query_gate Demo.encode Demo.normalize_L2 Demo.pipeline
                  (Demo.turn "hello") Hshort)).
Defined.

(** C5 as stated fails on the small corpus: [search_quote] itself answers
    a query of one token.  And on a corpus without quotes the manager is
    not built ([_load_or_build] raises [IndexError]), while on a manager
    whose index holds no vector [search_quote] raises [AssertionError]
    instead of returning the empty list. *)
Lemma short_query_gate_counterexample :
  ((length (Py.split "hello") < 4)%nat
   ∧ ∃ r rest,
       search_quote Demo.encode Demo.normalize_L2 Demo.quote_manager "hello" 3 []
       = Ok (r :: rest))
  ∧ _load_or_build Demo.encode Demo.normalize_L2
      (<["data/quote_dictionary.json" := QuotesFile []]> Demo.disk)
      "data/quote_dictionary.json" "data/indexes/quote.index"
    = Raise IndexError
  ∧ search_quote Demo.encode Demo.normalize_L2
      (MkQuoteDB "data/quote_dictionary.json" "data/indexes/quote.index" []
         (Some faiss.IndexFlatIP) ∅)
      Demo.query 3 [] = Raise AssertionError.
Proof.
  split; [split; [vm_compute; lia|]|].
  - eexists _, _. vm_compute. reflexivity.
  - split; vm_compute; reflexivity.
Qed.

(** C6 on a conversation of four turns. *)
Lemma no_repeat_within_five_witness :
  _used_indices Demo.pipeline = []
  ∧ r_index <$> (retrieve_turns Demo.encode Demo.normalize_L2 Demo.pipeline
                   Demo.turns).2
    = [0; 1]%Z
  ∧ (length (_used_indices
               (retrieve_turns Demo.encode Demo.normalize_L2 Demo.pipeline
                  Demo.turns).1) <= 5)%nat
  ∧ _used_indices
      (retrieve_turns Demo.encode Demo.normalize_L2 Demo.pipeline Demo.turns).1
    = last_n 5 (r_index <$> (retrieve_turns Demo.encode Demo.normalize_L2
                               Demo.pipeline Demo.turns).2).
Proof.
  destruct (no_repeat_within_five Demo.encode Demo.normalize_L2 Demo.pipeline
              Demo.turns eq_refl) as (Hlen & Hring & _).
  split; [reflexivity|]. split; [vm_compute; reflexivity|].
  split; [exact Hlen|exact Hring].
Defined.


(** * The further properties on the small corpus *)

(** X1: the stored preference is saved and loaded by a fresh manager. *)
Lemma save_then_load_witness :
  _save_domain Demo.memory_manager Demo.disk "preferences" = Ok Demo2.tea_files
  ∧ index_dir Demo.empty_manager = index_dir Demo.memory_manager
  ∧ ∃ db, databases Demo.memory_manager !! "preferences" = Some db
          ∧ _init_empty_domain Demo.empty_manager Demo2.tea_files "preferences"
            = Ok (set_domain Demo.empty_manager "preferences" db,
                  Demo2.tea_files).
Proof.
  assert (_save_domain Demo.memory_manager Demo.disk "preferences"
          = Ok Demo2.tea_files) as Hsave by (vm_compute; reflexivity).
  split; [exact Hsave|]. split; [reflexivity|].
  exact (save_then_load Demo.memory_manager Demo.empty_manager Demo.disk
           Demo2.tea_files "preferences" Hsave eq_refl).
Defined.

(** X2: the preference stored on a disk without files is found by a
    manager started on the files that were written. *)
Lemma add_memory_survives_restart_witness :
  add_memory Demo.encode Demo.empty_manager Demo.disk 0 "preferences"
    "I like tea" (1 # 2) "preferences" = Ok (Demo.memory_manager, Demo2.tea_files)
  ∧ index_dir Demo.empty_manager = index_dir Demo.empty_manager
  ∧ ∃ mgr2',
      _init_empty_domain Demo.empty_manager Demo2.tea_files "preferences"
      = Ok (mgr2', Demo2.tea_files)
      ∧ search_with_decay Demo.encode Demo.np_round mgr2' 86400 "preferences"
          "I like tea" 2
        = search_with_decay Demo.encode Demo.np_round Demo.memory_manager 86400
            "preferences" "I like tea" 2.
Proof.
  assert (add_memory Demo.encode Demo.empty_manager Demo.disk 0 "preferences"
            "I like tea" (1 # 2) "preferences"
          = Ok (Demo.memory_manager, Demo2.tea_files)) as Hadd
    by (vm_compute; reflexivity).
  split; [exact Hadd|]. split; [reflexivity|].
  destruct (add_memory_survives_restart Demo.encode Demo.np_round
              Demo.empty_manager Demo.empty_manager Demo.disk 0 "preferences"
              "I like tea" (1 # 2) "preferences" Demo.memory_manager
              Demo2.tea_files Hadd eq_refl)
    as (mgr2' & Hinit & _ & Hsearch).
  exists mgr2'. split; [exact Hinit|]. apply Hsearch.
Defined.

(** X3: storing a learning note leaves the preferences and their files
    alone. *)
Lemma add_memory_frame_witness :
  ∃ mgr' fs',
    add_memory Demo.encode Demo.memory_manager Demo2.tea_files 86400
      "learning_progress" "dark mode please" (3 # 4) "learning_progress"
    = Ok (mgr', fs')
    ∧ databases mgr' !! "preferences"
      = databases Demo.memory_manager !! "preferences"
    ∧ fs' !! "data/indexes/preferences.index"
      = Demo2.tea_files !! "data/indexes/preferences.index".
Proof.
  assert (∃ mgr' fs',
            add_memory Demo.encode Demo.memory_manager Demo2.tea_files 86400
              "learning_progress" "dark mode please" (3 # 4) "learning_progress"
            = Ok (mgr', fs')) as (mgr' & fs' & Hadd)
    by (eexists _, _; vm_compute; reflexivity).
  destruct (add_memory_frame Demo.encode Demo.memory_manager Demo2.tea_files
              86400 "learning_progress" "dark mode please" (3 # 4)
              "learning_progress" mgr' fs' Hadd) as [Hdbs Hfs].
  exists mgr', fs'. split; [exact Hadd|]. split.
  - apply Hdbs. discriminate.
  - apply Hfs; vm_compute; discriminate.
Defined.

(** X4: the same text stored twice in the preferences. *)
Lemma add_memory_twice_witness :
  databases Demo.memory_manager !! "preferences" = Some Demo.tea_store
  ∧ faiss.metric_type (index Demo.tea_store) = faiss.METRIC_L2
  ∧ store_inv Demo.encode Demo.tea_store
  ∧ files_writable Demo2.tea_files Demo.memory_manager "preferences"
  ∧ ∃ mgr1 fs1 db1 mgr2 fs2 db2,
      add_memory Demo.encode Demo.memory_manager Demo2.tea_files 86400
        "preferences" "dark mode please" (3 # 4) "preferences" = Ok (mgr1, fs1)
      ∧ databases mgr1 !! "preferences" = Some db1
      ∧ add_memory Demo.encode mgr1 fs1 172800 "preferences"
          "dark mode please" (1 # 4) "note" = Ok (mgr2, fs2)
      ∧ databases mgr2 !! "preferences" = Some db2
      ∧ length (data db2) = length (data db1)
      ∧ new_memory 172800 "dark mode please" (1 # 4) "note" ∈ data db2.
Proof.
  assert (store_inv Demo.encode Demo.tea_store) as Hinv.
  { repeat constructor. by eexists. }
  assert (files_writable Demo2.tea_files Demo.memory_manager "preferences")
    as Hw by (split; vm_compute; reflexivity).
  split; [reflexivity|]. split; [reflexivity|]. split; [exact Hinv|].
  split; [exact Hw|].
  exact (add_memory_twice Demo.encode Demo.memory_manager Demo2.tea_files
           "preferences" "dark mode please" Demo.tea_store 86400 (3 # 4)
           "preferences" 172800 (1 # 4) "note" eq_refl eq_refl Hinv Hw).
Defined.

(** X5: a search of the preferences for two results. *)
Lemma search_with_decay_bounds_witness :
  search_with_decay Demo.encode Demo.np_round Demo.memory_manager 86400
    "preferences" "I like tea" 2 = Ok [Demo.tea]
  ∧ (0 <= 2)%Z
  ∧ (length [Demo.tea] <= Z.to_nat 2)%nat
  ∧ (length [Demo.tea] <= 10)%nat
  ∧ ∀ m, m ∈ [Demo.tea] →
         ∃ db, databases Demo.memory_manager !! "preferences" = Some db
               ∧ m ∈ data db.
Proof.
  assert (search_with_decay Demo.encode Demo.np_round Demo.memory_manager 86400
            "preferences" "I like tea" 2 = Ok [Demo.tea]) as Hs
    by (vm_compute; reflexivity).
  assert (0 <= 2)%Z as Hk by lia.
  split; [exact Hs|]. split; [exact Hk|].
  exact (search_with_decay_bounds Demo.encode Demo.np_round Demo.memory_manager
           86400 "preferences" "I like tea" 2 [Demo.tea] Hs Hk).
Defined.


(** X8: an index file of two vectors beside a metadata file of one
    record. *)
Lemma torn_files_break_search_witness :
  Demo2.torn_files !! domain_index_path Demo.empty_manager "preferences"
  = Some (IndexFile Demo2.torn_index)
  ∧ Demo2.torn_files !! domain_meta_path Demo.empty_manager "preferences"
    = Some (MetaFile None [Demo.tea])
  ∧ (length [Demo.tea]
     < length (faiss.vectors Demo2.torn_index))%nat
  ∧ (length (faiss.vectors Demo2.torn_index)
     <= 10)%nat
  ∧ Forall (fun m => ∀ t, m_timestamp m = Some t → (t <= 86400)%Q) [Demo.tea]
  ∧ ∃ mgr',
      _init_empty_domain Demo.empty_manager Demo2.torn_files "preferences"
      = Ok (mgr', Demo2.torn_files)
      ∧ search_with_decay Demo.encode Demo.np_round mgr' 86400 "preferences"
          "I like tea" 2
        = Raise IndexError.
Proof.
  assert (length [Demo.tea]
          < length (faiss.vectors
                      Demo2.torn_index))%nat
    as Hlt by (simpl; lia).
  assert (length (faiss.vectors Demo2.torn_index)
          <= 10)%nat as Hle by (simpl; lia).
  assert (Forall (fun m => ∀ t, m_timestamp m = Some t → (t <= 86400)%Q)
            [Demo.tea]) as Htime.
  { repeat constructor. intros t [= <-]. by vm_compute. }
  split; [reflexivity|]. split; [reflexivity|]. split; [exact Hlt|].
  split; [exact Hle|]. split; [exact Htime|].
  destruct (torn_files_break_search Demo.encode Demo.np_round Demo.empty_manager
              Demo2.torn_files "preferences"
              Demo2.torn_index None [Demo.tea]
              86400 eq_refl eq_refl Hlt Hle Htime) as (mgr' & Hinit & _ & Hraise).
  exists mgr'. split; [exact Hinit|]. apply Hraise.
Defined.

(** X9: the catchphrases for the query of the small corpus. *)
Lemma search_catchphrase_spec_witness :
  ∃ found,
    search_catchphrase Demo.encode Demo.normalize_L2 Demo2.quote_manager
      Demo.query 1 [] = Ok found
    ∧ Forall (fun r => q_type (r_metadata r) = Some "catchphrase") found
    ∧ (Z.of_nat (length found) <= Z.max 0 1)%Z.
Proof.
  assert (∃ found,
            search_catchphrase Demo.encode Demo.normalize_L2
              Demo2.quote_manager Demo.query 1 [] = Ok found)
    as (found & Hs) by (eexists; vm_compute; reflexivity).
  destruct (search_catchphrase_spec Demo.encode Demo.normalize_L2
              Demo2.quote_manager Demo.query 1 [] found Hs)
    as (_ & Hall & Hlen & _).
  exists found. split; [exact Hs|]. split; [exact Hall|exact Hlen].
Defined.

(** X10: the emotion cache built from the corpus file. *)
Lemma emotion_cache_complete_witness :
  ∃ fs',
    _load_or_build Demo.encode Demo.normalize_L2 Demo.quote_files
      "data/quote_dictionary.json" "data/indexes/quote.index"
    = Ok (Demo.quote_manager, fs')
    ∧ (∀ q, q ∈ quotes Demo.quote_manager →
            _emotion_vecs Demo.quote_manager !! emotion_label q
            = Some (Demo.normalize_L2 (Demo.encode (emotion_label q))))
    ∧ ∀ label, label ∉ emotion_label <$> quotes Demo.quote_manager →
               _emotion_vecs Demo.quote_manager !! label = None.
Proof.
  assert (∃ fs',
            _load_or_build Demo.encode Demo.normalize_L2 Demo.quote_files
              "data/quote_dictionary.json" "data/indexes/quote.index"
            = Ok (Demo.quote_manager, fs')) as (fs' & Hload)
    by (eexists; vm_compute; reflexivity).
  destruct (emotion_cache_complete Demo.encode Demo.normalize_L2
              Demo.quote_files fs' "data/quote_dictionary.json"
              "data/indexes/quote.index" Demo.quote_manager Hload)
    as (Hin & Hout & _).
  exists fs'. split; [exact Hload|]. split; [exact Hin|exact Hout].
Defined.

(** X11: the quote manager is built once and loaded afterwards. *)
Lemma load_or_build_again_witness :
  ∃ fs',
    _load_or_build Demo.encode Demo.normalize_L2 Demo.quote_files
      "data/quote_dictionary.json" "data/indexes/quote.index"
    = Ok (Demo.quote_manager, fs')
    ∧ _load_or_build Demo.encode Demo.normalize_L2 fs'
        "data/quote_dictionary.json" "data/indexes/quote.index"
      = Ok (Demo.quote_manager, fs').
Proof.
  assert (∃ fs',
            _load_or_build Demo.encode Demo.normalize_L2 Demo.quote_files
              "data/quote_dictionary.json" "data/indexes/quote.index"
            = Ok (Demo.quote_manager, fs')) as (fs' & Hload)
    by (eexists; vm_compute; reflexivity).
  exists fs'. split; [exact Hload|].
  exact (load_or_build_again Demo.encode Demo.normalize_L2 Demo.quote_files fs'
           "data/quote_dictionary.json" "data/indexes/quote.index"
           Demo.quote_manager Hload).
Defined.


(** X13: the positions of the results on the small corpus. *)
Lemma search_quote_distinct_witness :
  ∃ results,
    search_quote Demo.encode Demo.normalize_L2 Demo.quote_manager Demo.query 3 []
    = Ok results
    ∧ NoDup (r_index <$> results).
Proof.
  assert (∃ results,
            search_quote Demo.encode Demo.normalize_L2 Demo.quote_manager
              Demo.query 3 [] = Ok results) as (results & Hs)
    by (eexists; vm_compute; reflexivity).
  exists results. split; [exact Hs|].
  exact (search_quote_distinct Demo.encode Demo.normalize_L2 Demo.quote_manager
           Demo.query 3 [] results Hs).
Defined.

(** X14: a buffer of four messages over a conversation with a reset. *)
Lemma buffer_never_exceeds_bound_witness :
  new_ConversationBuffer 4 = Ok (MkBuffer 4 [])
  ∧ (length (get_history (run_buffer_ops Demo2.conversation (MkBuffer 4 [])))
     <= Z.to_nat 4)%nat.
Proof.
  split; [reflexivity|].
  exact (buffer_never_exceeds_bound 4 (MkBuffer 4 []) Demo2.conversation eq_refl).
Defined.

(** X15: a buffer of four messages keeps the last two of three
    exchanges. *)
Lemma even_bound_keeps_exchanges_witness :
  new_ConversationBuffer (2 * Z.of_nat 2) = Ok (MkBuffer 4 [])
  ∧ get_history (add_interactions Demo.exchanges (MkBuffer 4 []))
    = last_n 2 Demo.exchanges ≫= exchange_messages.
Proof.
  split; [reflexivity|].
  exact (even_bound_keeps_exchanges 2 (MkBuffer 4 []) Demo.exchanges eq_refl).
Defined.

(** X16: the history string of a buffer after one exchange. *)
Lemma history_string_placeholder_witness :
  get_history (add_interaction "u1" "a1" (MkBuffer 4 [])) ≠ []
  ∧ last_char (get_history_string (add_interaction "u1" "a1" (MkBuffer 4 [])))
    = Some (Ascii.ascii_of_nat 10)
  ∧ get_history_string (clear (add_interaction "u1" "a1" (MkBuffer 4 [])))
    = "No previous context.".
Proof.
  assert (get_history (add_interaction "u1" "a1" (MkBuffer 4 [])) ≠ [])
    as Hne by discriminate.
  destruct (history_string_placeholder (add_interaction "u1" "a1" (MkBuffer 4 [])))
    as (_ & Hlast & Hclear).
  split; [exact Hne|]. split; [exact (Hlast Hne)|exact Hclear].
Defined.

(** X17: the ring after the conversation of four turns. *)
Lemma ring_has_no_duplicates_witness :
  _used_indices Demo.pipeline = []
  ∧ NoDup (_used_indices
             (retrieve_turns Demo.encode Demo.normalize_L2 Demo.pipeline
                Demo.turns).1).
Proof.
  split; [reflexivity|].
  exact (ring_has_no_duplicates Demo.encode Demo.normalize_L2 Demo.pipeline
           Demo.turns eq_refl).
Defined.

(** X18: the context of a turn about tea, one day after the preference
    was stored. *)
Lemma load_context_spec_witness :
  ∃ state',
    _node_load_context Demo.encode Demo.np_round Demo.memory_manager
      (add_interaction "u1" "a1" (MkBuffer 4 [])) 86400 86400
      (Demo.turn "I like tea") = Ok state'
    ∧ (length (preferences state') <= 4)%nat
    ∧ chat_history state'
      = get_history (add_interaction "u1" "a1" (MkBuffer 4 []))
    ∧ user_query state' = user_query (Demo.turn "I like tea").
Proof.
  assert (∃ state',
            _node_load_context Demo.encode Demo.np_round Demo.memory_manager
              (add_interaction "u1" "a1" (MkBuffer 4 [])) 86400 86400
              (Demo.turn "I like tea") = Ok state') as (state' & Hrun)
    by (eexists; vm_compute; reflexivity).
  destruct (load_context_spec Demo.encode Demo.np_round Demo.memory_manager
              (add_interaction "u1" "a1" (MkBuffer 4 [])) 86400 86400
              (Demo.turn "I like tea") state' Hrun)
    as (_ & Hlen & _ & Hhist & Hquery & _).
  exists state'. split; [exact Hrun|]. split; [exact Hlen|].
  split; [exact Hhist|exact Hquery].
Defined.

(** X19: a learning note does not change the context of a turn. *)
Lemma load_context_ignores_other_domains_witness :
  ∃ mgr' fs',
    add_memory Demo.encode Demo.memory_manager Demo2.tea_files 86400
      "learning_progress" "dark mode please" (3 # 4) "learning_progress"
    = Ok (mgr', fs')
    ∧ "learning_progress" ≠ "preferences"
    ∧ "learning_progress" ≠ "personal_context"
    ∧ _node_load_context Demo.encode Demo.np_round mgr' (MkBuffer 4 []) 90000
        90000 (Demo.turn "dark mode please")
      = _node_load_context Demo.encode Demo.np_round Demo.memory_manager
          (MkBuffer 4 []) 90000 90000 (Demo.turn "dark mode please").
Proof.
  assert (∃ mgr' fs',
            add_memory Demo.encode Demo.memory_manager Demo2.tea_files 86400
              "learning_progress" "dark mode please" (3 # 4) "learning_progress"
            = Ok (mgr', fs')) as (mgr' & fs' & Hadd)
    by (eexists _, _; vm_compute; reflexivity).
  assert ("learning_progress" ≠ "preferences") as H1 by discriminate.
  assert ("learning_progress" ≠ "personal_context") as H2 by discriminate.
  exists mgr', fs'. split; [exact Hadd|]. split; [exact H1|]. split; [exact H2|].
  exact (load_context_ignores_other_domains Demo.encode Demo.np_round
           Demo.memory_manager Demo2.tea_files 86400 "learning_progress"
           "dark mode please" (3 # 4) "learning_progress" mgr' fs' Hadd H1 H2
           (MkBuffer 4 []) 90000 90000 (Demo.turn "dark mode please")).
Defined.

(** X20: a trigger in the middle of a sentence. *)
Lemma fast_check_substring_witness :
  _fast_check "Call me" = true
  ∧ _fast_check ("Please, " +:+ "Call me" +:+ " Al.") = true.
Proof.
  split; [reflexivity|].
  exact (fast_check_substring "Please, " "Call me" " Al." eq_refl).
Defined.

(** X21: a greeting. *)
Lemma short_text_not_triggered_witness :
  (String.length "hello" < 6)%nat
  ∧ _fast_check "hello" = false
  ∧ evaluate_and_store Demo.encode Demo2.classify Demo.memory_manager
      Demo2.tea_files 86400 "hello" = NotTriggered.
Proof.
  assert (String.length "hello" < 6)%nat as Hshort by (simpl; lia).
  split; [exact Hshort|].
  exact (short_text_not_triggered Demo.encode Demo2.classify Demo.memory_manager
           Demo2.tea_files 86400 "hello" Hshort).
Defined.

(** X22: the classifier names a domain the gatekeeper does not know; the
    memory goes to ["personal_context"] and the preferences stay. *)
Lemma gatekeeper_confined_witness :
  ∃ mgr' fs',
    evaluate_and_store Demo.encode Demo2.classify Demo.memory_manager
      Demo2.tea_files 86400 "my goal is to learn Rust" = Stored (mgr', fs')
    ∧ _fast_check "my goal is to learn Rust" = true
    ∧ ∃ dec domain,
        Demo2.classify "my goal is to learn Rust" = Some dec
        ∧ domain ∈ VALID_DOMAINS
        ∧ (∀ other, other ≠ domain →
                    databases mgr' !! other
                    = databases Demo.memory_manager !! other)
        ∧ ∃ db', databases mgr' !! domain = Some db'
                 ∧ MemoryObj (Some (default "" (dec_summary dec))) (Some 86400)
                     (Some (default 0.5%Q (dec_importance dec))) (Some domain) []
                   ∈ data db'.
Proof.
  assert (∃ mgr' fs',
            evaluate_and_store Demo.encode Demo2.classify Demo.memory_manager
              Demo2.tea_files 86400 "my goal is to learn Rust"
            = Stored (mgr', fs')) as (mgr' & fs' & Hrun)
    by (eexists _, _; vm_compute; reflexivity).
  destruct (gatekeeper_confined Demo.encode Demo2.classify Demo.memory_manager
              Demo2.tea_files 86400 "my goal is to learn Rust" mgr' fs' Hrun)
    as (Hfast & dec & domain & Hdec & _ & Hvalid & _ & Hframe & Hnew).
  exists mgr', fs'. split; [exact Hrun|]. split; [exact Hfast|].
  exists dec, domain. split; [exact Hdec|]. split; [exact Hvalid|].
  split; [exact Hframe|exact Hnew].
Defined.

(** X23: a manager whose index holds no vector. *)
Lemma search_quote_refuses_empty_witness :
  quote_index
    (MkQuoteDB "data/quote_dictionary.json" "data/indexes/quote.index" []
       (Some faiss.IndexFlatIP) ∅)
  = Some faiss.IndexFlatIP
  ∧ ((3 <= 0)%Z ∨ faiss.ntotal faiss.IndexFlatIP = 0%Z)
  ∧ search_quote Demo.encode Demo.normalize_L2
      (MkQuoteDB "data/quote_dictionary.json" "data/indexes/quote.index" []
         (Some faiss.IndexFlatIP) ∅)
      Demo.query 3 [] = Raise AssertionError.
Proof.
  assert ((3 <= 0)%Z ∨ faiss.ntotal faiss.IndexFlatIP = 0%Z) as Hk
    by (right; reflexivity).
  split; [reflexivity|]. split; [exact Hk|].
  exact (search_quote_refuses_empty Demo.encode Demo.normalize_L2
           (MkQuoteDB "data/quote_dictionary.json" "data/indexes/quote.index" []
              (Some faiss.IndexFlatIP) ∅)
           Demo.query 3 [] faiss.IndexFlatIP eq_refl Hk).
Defined.

(** X24: the preferences in the index directory of the small corpus. *)
Lemma files_writable_in_index_dir_witness :
  index_dir Demo.empty_manager ≠ ""
  ∧ ends_with_slash (index_dir Demo.empty_manager) = false
  ∧ no_slash "preferences" = true
  ∧ Demo.disk !! index_dir Demo.empty_manager = Some Directory
  ∧ os_path_dirname (domain_index_path Demo.empty_manager "preferences")
    = "data/indexes"
  ∧ files_writable Demo.disk Demo.empty_manager "preferences".
Proof.
  assert (index_dir Demo.empty_manager ≠ "") as Hne by discriminate.
  assert (Demo.disk !! index_dir Demo.empty_manager = Some Directory) as Hdisk
    by (vm_compute; reflexivity).
  assert (is_directory
            (Demo.disk !! domain_index_path Demo.empty_manager "preferences")
          = false) as Hi by (vm_compute; reflexivity).
  assert (is_directory
            (Demo.disk !! domain_meta_path Demo.empty_manager "preferences")
          = false) as Hm by (vm_compute; reflexivity).
  destruct (files_writable_in_index_dir Demo.disk Demo.empty_manager
              "preferences" Hne eq_refl eq_refl) as (Hdir & _ & Hw).
  split; [exact Hne|]. split; [reflexivity|]. split; [reflexivity|].
  split; [exact Hdisk|]. split; [exact Hdir|].
  exact (Hw Hdisk Hi Hm).
Defined.
